(** * Kinopoisk search plugin: record normalisation, template substitution,
      file naming and image processing

    A shallow embedding of [APIProvider/DataFormatter.ts], [Utils/utils.ts]
    and [Utils/imageUtils.ts].  JavaScript strings are sequences of UTF-16
    code units, numbers of the catalogue are integers, exceptions are the left
    summand of a sum type, and the host environment (String.prototype
    .toUpperCase, Date parsing, the time zone, the vault, the message
    catalogue) is passed in explicitly. *)

From Stdlib Require Import String Ascii DecimalString.
From Stdlib Require Import List ZArith NArith Lia Bool.
Import ListNotations.
Local Open Scope list_scope.

(* ================================================================== *)
(** * Part I: definitions *)
(* ================================================================== *)

(** ** JavaScript strings and the string primitives the sources call *)

(** A string is the list of its UTF-16 code units. *)
Abbreviation jsstring := (list N) (only parsing).

(** An ASCII literal as a JavaScript string. *)
Definition js (s : string) : jsstring :=
  map N_of_ascii (list_ascii_of_string s).

(** Code units that have no literal form here. *)
Definition LF : N := 10.
Definition DQ : N := 34.

Definition inRange (lo hi c : N) : bool := ((lo <=? c) && (c <=? hi))%N.

(** WhiteSpace and LineTerminator of ECMAScript: what [trim] strips and what
    the class [\s] matches. *)
Definition isWhiteSpace (c : N) : bool :=
  inRange 9 13 c || (c =? 32)%N || (c =? 160)%N || (c =? 5760)%N
  || inRange 8192 8202 c || (c =? 8232)%N || (c =? 8233)%N
  || (c =? 8239)%N || (c =? 8287)%N || (c =? 12288)%N || (c =? 65279)%N.

(** LineTerminator: what [.] does not match. *)
Definition isLineTerminator (c : N) : bool :=
  (c =? 10)%N || (c =? 13)%N || (c =? 8232)%N || (c =? 8233)%N.

(** The class [\w] (no unicode flag): ASCII letters, digits and underscore. *)
Definition isWordChar (c : N) : bool :=
  inRange 48 57 c || inRange 65 90 c || (c =? 95)%N || inRange 97 122 c.

Fixpoint dropWhile {A} (p : A -> bool) (l : list A) : list A :=
  match l with
  | [] => []
  | x :: r => if p x then dropWhile p r else l
  end.

Fixpoint takeWhile {A} (p : A -> bool) (l : list A) : list A :=
  match l with
  | [] => []
  | x :: r => if p x then x :: takeWhile p r else []
  end.

Definition trimStart (s : jsstring) : jsstring := dropWhile isWhiteSpace s.
Definition trimEnd (s : jsstring) : jsstring :=
  rev (dropWhile isWhiteSpace (rev s)).

(** [s.trim()] *)
Definition trim (s : jsstring) : jsstring := trimEnd (trimStart s).

Definition isEmpty (s : jsstring) : bool :=
  match s with [] => true | _ :: _ => false end.

(** [s.startsWith(p)] *)
Fixpoint startsWith (p s : jsstring) : bool :=
  match p, s with
  | [], _ => true
  | _ :: _, [] => false
  | a :: p', b :: s' => (a =? b)%N && startsWith p' s'
  end.

(** [s.endsWith(p)] *)
Definition endsWith (p s : jsstring) : bool := startsWith (rev p) (rev s).

(** [s.slice(1, -1)] *)
Definition sliceInner (s : jsstring) : jsstring := removelast (tl s).

(** [xs.slice(0, n)] on an array, with JavaScript's reading of a negative
    end as counted from the end of the array. *)
Definition slice0 {A} (n : Z) (xs : list A) : list A :=
  if (0 <=? n)%Z then firstn (Z.to_nat n) xs
  else firstn (length xs - Z.to_nat (- n)) xs.

(** [xs.join(sep)] *)
Fixpoint join (sep : jsstring) (xs : list jsstring) : jsstring :=
  match xs with
  | [] => []
  | [x] => x
  | x :: r => x ++ sep ++ join sep r
  end.

(** [String(n)] for an integer-valued number (below 10^21 in size, where
    JavaScript still prints all the digits). *)
Definition numberToString (n : Z) : jsstring :=
  js (NilZero.string_of_int (Z.to_int n)).

(** *** Replacement text: GetSubstitution for a pattern without groups

    [$$] is a dollar sign, [$&] the matched text, [$`] the text before the
    match and [$'] the text after it; with no capture groups every other use
    of the dollar sign stands for itself. *)
Fixpoint getSubstitution (tpl before matched after : jsstring) : jsstring :=
  match tpl with
  | [] => []
  | c :: r =>
      if (c =? 36)%N then
        match r with
        | d :: r' =>
            if (d =? 36)%N then 36%N :: getSubstitution r' before matched after
            else if (d =? 38)%N then matched ++ getSubstitution r' before matched after
            else if (d =? 96)%N then before ++ getSubstitution r' before matched after
            else if (d =? 39)%N then after ++ getSubstitution r' before matched after
            else c :: getSubstitution r before matched after
        | [] => [c]
        end
      else c :: getSubstitution r before matched after
  end.

(** *** [s.replace(/re/g, tpl)]

    A matcher gives, for the text at the current position, the length of the
    match of the pattern that starts there ([None] when there is none).  No
    pattern of these sources matches the empty string.  The scan copies code
    units until the pattern matches, emits the replacement, skips the match
    and goes on after it: [skip] counts the code units of the current match
    still to pass, [rbefore] is the text already passed, reversed. *)
Definition matcher : Type := jsstring -> option nat.

Fixpoint replaceScan (m : matcher) (tpl rbefore : jsstring) (skip : nat)
    (s : jsstring) : jsstring :=
  match s with
  | [] => []
  | c :: s' =>
      match skip with
      | S k => replaceScan m tpl (c :: rbefore) k s'
      | O =>
          match m s with
          | Some (S k) =>
              getSubstitution tpl (rev rbefore) (firstn (S k) s) (skipn (S k) s)
                ++ replaceScan m tpl (c :: rbefore) k s'
          | _ => c :: replaceScan m tpl (c :: rbefore) 0 s'
          end
      end
  end.

Definition replaceAll (m : matcher) (tpl s : jsstring) : jsstring :=
  replaceScan m tpl [] 0 s.

(** A pattern that is one code unit of a class. *)
Definition oneOf (p : N -> bool) : matcher :=
  fun s => match s with
           | c :: _ => if p c then Some 1%nat else None
           | [] => None
           end.

(** A pattern that is a literal text, code unit by code unit under [eqc]. *)
Fixpoint prefixBy (eqc : N -> N -> bool) (p s : jsstring) : bool :=
  match p, s with
  | [], _ => true
  | _ :: _, [] => false
  | a :: p', b :: s' => eqc a b && prefixBy eqc p' s'
  end.

Definition literal (p : jsstring) : matcher :=
  fun s => if prefixBy N.eqb p s then Some (length p) else None.

(** Canonicalize of the [i] flag without the [u] flag, on the ASCII range:
    a code unit above 127 never folds onto an ASCII one, so against an ASCII
    pattern only the letters a-z fold. *)
Definition asciiUpper (c : N) : N := if inRange 97 122 c then (c - 32)%N else c.
Definition eqIgnoreCase (a b : N) : bool := (asciiUpper a =? asciiUpper b)%N.

Definition literalIgnoreCase (p : jsstring) : matcher :=
  fun s => if prefixBy eqIgnoreCase p s then Some (length p) else None.

(** [/\s+/] *)
Definition whitespaceRun : matcher :=
  fun s => match length (takeWhile isWhiteSpace s) with
           | O => None
           | n => Some n
           end.

(** [a === b] on strings *)
Definition strEq (a b : jsstring) : bool :=
  (length a =? length b)%nat && startsWith a b.

(** ** Exceptions

    A computation that can throw returns in [result]; [tryCatch] is
    [try { body } catch (e) { handler }]. *)
Inductive exn : Type :=
| TypeError
| Thrown.

Definition result (A : Type) : Type := (exn + A)%type.

Definition ret {A} (a : A) : result A := inr a.
Definition raise {A} (e : exn) : result A := inl e.

Definition bind {A B} (c : result A) (k : A -> result B) : result B :=
  match c with
  | inl e => inl e
  | inr a => k a
  end.

Definition tryCatch {A} (body : result A) (handler : exn -> result A)
  : result A :=
  match body with
  | inl e => handler e
  | inr a => inr a
  end.

Notation "x <- c ;; k" := (bind c (fun x => k))
  (at level 61, c at next level, right associativity).

(** ** Models/kinopoisk_response.ts: the raw catalogue record

    One module per interface, with the fields the formatter reads; an
    optional field ([?]) is an [option]. *)

Module KinopoiskImageUrl.
Record t : Type := mk { url : option jsstring; previewUrl : option jsstring }.
End KinopoiskImageUrl.

Module KinopoiskSimpleItem.
Record t : Type := mk { name : jsstring }.
End KinopoiskSimpleItem.

Module KinopoiskPerson.
Record t : Type := mk { name : jsstring; enProfession : jsstring }.
End KinopoiskPerson.

Module KinopoiskSeasonInfo.
Record t : Type := mk { number : Z; episodesCount : Z }.
End KinopoiskSeasonInfo.

Module KinopoiskRatings.
Record t : Type := mk {
    kp : option Z; imdb : option Z;
    filmCritics : option Z; russianFilmCritics : option Z }.
End KinopoiskRatings.

Module KinopoiskVotes.
Record t : Type := mk {
    kp : option Z; imdb : option Z;
    filmCritics : option Z; russianFilmCritics : option Z }.
End KinopoiskVotes.

Module KinopoiskExternalIds.
Record t : Type := mk {
    imdb : option jsstring; tmdb : option Z; kpHD : option jsstring }.
End KinopoiskExternalIds.

Module KinopoiskMoney.
Record t : Type := mk { value : option Z; currency : option jsstring }.
End KinopoiskMoney.

Module KinopoiskFees.
Record t : Type := mk {
    world : option KinopoiskMoney.t;
    russia : option KinopoiskMoney.t;
    usa : option KinopoiskMoney.t }.
End KinopoiskFees.

Module KinopoiskPremiere.
Record t : Type := mk {
    world : option jsstring; russia : option jsstring;
    digital : option jsstring; cinema : option jsstring }.
End KinopoiskPremiere.

Module KinopoiskFact.
Record t : Type := mk { value : jsstring; spoiler : option bool }.
End KinopoiskFact.

Module KinopoiskReleaseYear.
Record t : Type := mk { start : option Z; end_ : option Z }.
End KinopoiskReleaseYear.

Module KinopoiskName.
Record t : Type := mk { name : jsstring }.
End KinopoiskName.

Module KinopoiskNetworks.
Record t : Type := mk { items : option (list KinopoiskSimpleItem.t) }.
End KinopoiskNetworks.

Module KinopoiskRelatedMovie.
Record t : Type := mk { name : jsstring }.
End KinopoiskRelatedMovie.

Module KinopoiskProductionCompany.
Record t : Type := mk { name : jsstring }.
End KinopoiskProductionCompany.

Module KinopoiskDistributors.
Record t : Type := mk {
    distributor : option jsstring; distributorRelease : option jsstring }.
End KinopoiskDistributors.

Module KinopoiskFullInfo.
Record t : Type := mk {
    id : Z;
    name : jsstring;
    alternativeName : jsstring;
    type : jsstring;
    year : Z;
    description : option jsstring;
    poster : option KinopoiskImageUrl.t;
    genres : list KinopoiskSimpleItem.t;
    countries : list KinopoiskSimpleItem.t;
    persons : list KinopoiskPerson.t;
    movieLength : option Z;
    backdrop : option KinopoiskImageUrl.t;
    logo : option KinopoiskImageUrl.t;
    isSeries : bool;
    seriesLength : option Z;
    status : option jsstring;
    rating : option KinopoiskRatings.t;
    externalId : option KinopoiskExternalIds.t;
    seasonsInfo : option (list KinopoiskSeasonInfo.t);
    slogan : option jsstring;
    budget : option KinopoiskMoney.t;
    fees : option KinopoiskFees.t;
    premiere : option KinopoiskPremiere.t;
    votes : option KinopoiskVotes.t;
    facts : option (list KinopoiskFact.t);
    shortDescription : option jsstring;
    ageRating : option Z;
    ratingMpaa : option jsstring;
    releaseYears : option (list KinopoiskReleaseYear.t);
    top10 : option Z;
    top250 : option Z;
    totalSeriesLength : option Z;
    typeNumber : option Z;
    enName : option jsstring;
    names : option (list KinopoiskName.t);
    networks : option KinopoiskNetworks.t;
    subType : option jsstring;
    sequelsAndPrequels : option (list KinopoiskRelatedMovie.t);
    productionCompanies : option (list KinopoiskProductionCompany.t);
    distributors : option KinopoiskDistributors.t }.
End KinopoiskFullInfo.

(** ** Models/MovieShow.model.ts: the normalised record

    The fields stand in the order of the object literal of
    [createMovieShowFrom], which is the order [Object.entries] lists them
    in. *)
Record MovieShow : Type := mkMovieShow {
  id : Z;
  name : list jsstring;
  alternativeName : list jsstring;
  year : Z;
  description : list jsstring;
  shortDescription : list jsstring;
  nameForFile : jsstring;
  alternativeNameForFile : jsstring;
  enNameForFile : jsstring;
  posterUrl : list jsstring;
  coverUrl : list jsstring;
  logoUrl : list jsstring;
  posterImageLink : list jsstring;
  coverImageLink : list jsstring;
  logoImageLink : list jsstring;
  genres : list jsstring;
  genresLinks : list jsstring;
  countries : list jsstring;
  countriesLinks : list jsstring;
  type : list jsstring;
  subType : list jsstring;
  director : list jsstring;
  directorsLinks : list jsstring;
  actors : list jsstring;
  actorsLinks : list jsstring;
  writers : list jsstring;
  writersLinks : list jsstring;
  producers : list jsstring;
  producersLinks : list jsstring;
  movieLength : Z;
  isSeries : bool;
  seriesLength : Z;
  totalSeriesLength : Z;
  isComplete : bool;
  seasonsCount : Z;
  seriesInSeasonCount : Z;
  ratingKp : Z;
  ratingImdb : Z;
  ratingFilmCritics : Z;
  ratingRussianFilmCritics : Z;
  votesKp : Z;
  votesImdb : Z;
  votesFilmCritics : Z;
  votesRussianFilmCritics : Z;
  kinopoiskUrl : list jsstring;
  imdbId : list jsstring;
  tmdbId : Z;
  kpHDId : list jsstring;
  slogan : list jsstring;
  ageRating : Z;
  ratingMpaa : list jsstring;
  budgetValue : Z;
  budgetCurrency : list jsstring;
  feesWorldValue : Z;
  feesWorldCurrency : list jsstring;
  feesRussiaValue : Z;
  feesRussiaCurrency : list jsstring;
  feesUsaValue : Z;
  feesUsaCurrency : list jsstring;
  premiereWorld : list jsstring;
  premiereRussia : list jsstring;
  premiereDigital : list jsstring;
  premiereCinema : list jsstring;
  releaseYearsStart : Z;
  releaseYearsEnd : Z;
  top10 : Z;
  top250 : Z;
  facts : list jsstring;
  allNamesString : list jsstring;
  enName : list jsstring;
  networks : list jsstring;
  networksLinks : list jsstring;
  productionCompanies : list jsstring;
  productionCompaniesLinks : list jsstring;
  distributor : list jsstring;
  distributorRelease : list jsstring;
  sequelsAndPrequels : list jsstring;
  sequelsAndPrequelsLinks : list jsstring
}.

(** ** The Date built-in

    A time value is an integer count of milliseconds since the epoch.
    [civilFromDays] turns a day number into the (year, month, day) of the
    proleptic Gregorian calendar, which is what YearFromTime, MonthFromTime
    and DateFromTime of ECMAScript compute. *)
Definition msPerDay : Z := 86400000.

Definition Day (t : Z) : Z := (t / msPerDay)%Z.

Definition civilFromDays (days : Z) : Z * Z * Z :=
  let z := (days + 719468)%Z in
  let era := (z / 146097)%Z in
  let doe := (z - era * 146097)%Z in
  let yoe := ((doe - doe / 1460 + doe / 36524 - doe / 146096) / 365)%Z in
  let doy := (doe - (365 * yoe + yoe / 4 - yoe / 100))%Z in
  let mp := ((5 * doy + 2) / 153)%Z in
  let d := (doy - (153 * mp + 2) / 5 + 1)%Z in
  let m := (if mp <? 10 then mp + 3 else mp - 9)%Z in
  let y := (yoe + era * 400 + (if m <=? 2 then 1 else 0))%Z in
  (y, m, d).

Definition YearFromTime (t : Z) : Z := fst (fst (civilFromDays (Day t))).
Definition MonthFromTime (t : Z) : Z := snd (fst (civilFromDays (Day t))).
Definition DateFromTime (t : Z) : Z := snd (civilFromDays (Day t)).

(** A non-negative number as decimal digits, padded with zeros on the left
    to [w] places. *)
Definition padZero (w : nat) (n : Z) : jsstring :=
  let s := numberToString n in
  repeat 48%N (w - length s) ++ s.

(** [date.toISOString()]: the UTC fields, the year in four digits when it is
    in 0..9999 and signed in six otherwise. *)
Definition isoYear (y : Z) : jsstring :=
  if ((0 <=? y) && (y <=? 9999))%Z then padZero 4 y
  else (if (y <? 0)%Z then js "-" else js "+") ++ padZero 6 (Z.abs y).

Definition toISOString (t : Z) : jsstring :=
  let ms := (t mod msPerDay)%Z in
  isoYear (YearFromTime t) ++ js "-" ++ padZero 2 (MonthFromTime t)
    ++ js "-" ++ padZero 2 (DateFromTime t)
    ++ js "T" ++ padZero 2 (ms / 3600000)%Z
    ++ js ":" ++ padZero 2 ((ms / 60000) mod 60)%Z
    ++ js ":" ++ padZero 2 ((ms / 1000) mod 60)%Z
    ++ js "." ++ padZero 3 (ms mod 1000)%Z ++ js "Z".

(** [s.split("T")[0]] *)
Definition beforeFirstT (s : jsstring) : jsstring :=
  takeWhile (fun c => negb (c =? 84)%N) s.

(** ** APIProvider/DataFormatter.ts *)

Module DataFormatter.

Definition MAX_ARRAY_ITEMS : Z := 15.
Definition MAX_FACTS_COUNT : Z := 5.

(** What reading [TYPE_TRANSLATIONS[key]] gives.  The table is an object
    literal, so besides its five own keys the lookup also finds the members
    it inherits from [Object.prototype], none of which is a string. *)
Inductive property : Type :=
| Own (s : jsstring)
| Inherited
| Missing.

Definition objectPrototypeMembers : list string :=
  [ "constructor"; "__defineGetter__"; "__defineSetter__"; "hasOwnProperty";
    "__lookupGetter__"; "__lookupSetter__"; "isPrototypeOf";
    "propertyIsEnumerable"; "toString"; "valueOf"; "__proto__";
    "toLocaleString" ]%string.

Definition inheritedMember (key : jsstring) : bool :=
  existsb (fun k => strEq (js k) key) objectPrototypeMembers.

Definition TYPE_TRANSLATIONS (key : jsstring) : property :=
  if strEq key (js "animated-series") then
    Own [1040; 1085; 1080; 1084; 1072; 1094; 1080; 1086; 1085; 1085; 1099;
         1081; 32; 1089; 1077; 1088; 1080; 1072; 1083]%N
  else if strEq key (js "anime") then Own [1040; 1085; 1080; 1084; 1077]%N
  else if strEq key (js "cartoon") then
    Own [1052; 1091; 1083; 1100; 1090; 1092; 1080; 1083; 1100; 1084]%N
  else if strEq key (js "movie") then Own [1060; 1080; 1083; 1100; 1084]%N
  else if strEq key (js "tv-series") then
    Own [1057; 1077; 1088; 1080; 1072; 1083]%N
  else if inheritedMember key then Inherited
  else Missing.

(** The entity table, in the order of its literal. *)
Definition HTML_ENTITIES : list (jsstring * jsstring) :=
  [ (js "&laquo;", [171%N]); (js "&raquo;", [187%N]);
    (js "&ldquo;", [DQ]); (js "&rdquo;", [DQ]);
    (js "&lsquo;", js "'"); (js "&rsquo;", js "'");
    (js "&quot;", [DQ]); (js "&amp;", js "&");
    (js "&lt;", js "<"); (js "&gt;", js ">");
    (js "&nbsp;", js " "); (js "&ndash;", [8211%N]);
    (js "&mdash;", [8212%N]); (js "&hellip;", [8230%N]) ].

Inductive FormatType : Type :=
| SHORT_VALUE
| LONG_TEXT
| URL
| LINK.

(** The filter of [formatArray]: the item is truthy and its [trim()] is not
    the empty string; [None] is a null entry. *)
Definition present (item : option jsstring) : bool :=
  match item with
  | None => false
  | Some s => negb (isEmpty s) && negb (isEmpty (trim s))
  end.

Definition strings (items : list (option jsstring)) : list jsstring :=
  flat_map (fun i => match i with Some s => [s] | None => [] end) items.

(** [/:/] *)
Definition colon : matcher := oneOf (fun c => (c =? 58)%N).

Definition cleanTextForMetadata (text : jsstring) : jsstring :=
  if isEmpty text then [] else trim (replaceAll colon [] text).

Definition formatItem (formatType : FormatType) (item : jsstring) : jsstring :=
  match formatType with
  | SHORT_VALUE => cleanTextForMetadata item
  | LONG_TEXT =>
      let cleanedItem :=
        trim (replaceAll whitespaceRun (js " ")
                (replaceAll (oneOf (fun c => (c =? LF)%N)) (js " ") item)) in
      [DQ] ++ cleanedItem ++ [DQ]
  | URL => trim item
  | LINK => [DQ] ++ js "[[" ++ cleanTextForMetadata item ++ js "]]" ++ [DQ]
  end.

Definition formatArrayMax (items : list (option jsstring))
    (formatType : FormatType) (maxItems : Z) : list jsstring :=
  let filteredItems := slice0 maxItems (strings (filter present items)) in
  map (formatItem formatType) filteredItems.

(** The call with [maxItems] left to its default. *)
Definition formatArray (items : list (option jsstring))
    (formatType : FormatType) : list jsstring :=
  formatArrayMax items formatType MAX_ARRAY_ITEMS.

(** [Math.ceil(a / b)] on integers, [b] positive. *)
Definition ceilDiv (a b : Z) : Z := (- ((- a) / b))%Z.

Definition calculateSeasonsData
    (seasonsInfo : option (list KinopoiskSeasonInfo.t)) : Z * Z :=
  match seasonsInfo with
  | None | Some [] => (0, 0)%Z
  | Some seasons =>
      let totalEpisodes :=
        fold_left (fun total season =>
                     (total + KinopoiskSeasonInfo.episodesCount season)%Z)
                  seasons 0%Z in
      (Z.of_nat (length seasons),
       ceilDiv totalEpisodes (Z.of_nat (length seasons)))
  end.

Module People.
Record t : Type := mk {
    directors : list jsstring;
    actors : list jsstring;
    writers : list jsstring;
    producers : list jsstring }.
End People.

Definition extractPeople (persons : list KinopoiskPerson.t) : People.t :=
  fold_left
    (fun result person =>
       let n := KinopoiskPerson.name person in
       let p := KinopoiskPerson.enProfession person in
       if isEmpty n || isEmpty p then result
       else if strEq p (js "director") then
         People.mk (People.directors result ++ [n]) (People.actors result)
                   (People.writers result) (People.producers result)
       else if strEq p (js "actor") then
         People.mk (People.directors result) (People.actors result ++ [n])
                   (People.writers result) (People.producers result)
       else if strEq p (js "writer") then
         People.mk (People.directors result) (People.actors result)
                   (People.writers result ++ [n]) (People.producers result)
       else if strEq p (js "producer") then
         People.mk (People.directors result) (People.actors result)
                   (People.writers result) (People.producers result ++ [n])
       else result)
    persons (People.mk [] [] [] []).

(** The names of an optional list, without the null, empty and blank ones;
    the empty list when the list is absent. *)
Definition namesOf {A} (nameOf : A -> jsstring) (xs : option (list A))
  : list jsstring :=
  match xs with
  | None => []
  | Some l => filter (fun n => present (Some n)) (map nameOf l)
  end.

Definition extractCompanies (fullInfo : KinopoiskFullInfo.t)
  : list jsstring * list jsstring * list jsstring :=
  (namesOf KinopoiskSimpleItem.name
     (match KinopoiskFullInfo.networks fullInfo with
      | Some n => KinopoiskNetworks.items n
      | None => None
      end),
   namesOf KinopoiskProductionCompany.name
     (KinopoiskFullInfo.productionCompanies fullInfo),
   namesOf KinopoiskRelatedMovie.name
     (KinopoiskFullInfo.sequelsAndPrequels fullInfo)).

(** [/<[^>]*>/] *)
Definition htmlTag : matcher :=
  fun s =>
    match s with
    | c :: r =>
        if (c =? 60)%N then
          let inside := takeWhile (fun x => negb (x =? 62)%N) r in
          match skipn (length inside) r with
          | _ :: _ => Some (S (S (length inside)))
          | [] => None
          end
        else None
    | [] => None
    end.

(** [/&#?\w+;/] *)
Definition htmlEntity : matcher :=
  fun s =>
    match s with
    | c :: r =>
        if (c =? 38)%N then
          let afterHash :=
            match r with
            | d :: r' => if (d =? 35)%N then r' else r
            | [] => r
            end in
          let word := takeWhile isWordChar afterHash in
          match word, skipn (length word) afterHash with
          | _ :: _, e :: _ =>
              if (e =? 59)%N
              then Some (S (length r - length afterHash + length word + 1))
              else None
          | _, _ => None
          end
        else None
    | [] => None
    end.

Definition stripHtmlTags (text : jsstring) : jsstring :=
  let cleanText := replaceAll htmlTag [] text in
  let cleanText :=
    fold_left (fun acc ec => replaceAll (literal (fst ec)) (snd ec) acc)
              HTML_ENTITIES cleanText in
  trim (replaceAll htmlEntity [] cleanText).

Definition falsy (b : option bool) : bool :=
  match b with Some true => false | _ => true end.

Definition processFacts (facts : list KinopoiskFact.t) : list jsstring :=
  map (fun fact => stripHtmlTags (KinopoiskFact.value fact))
    (slice0 MAX_FACTS_COUNT
       (filter (fun fact => falsy (KinopoiskFact.spoiler fact)
                            && present (Some (KinopoiskFact.value fact)))
               facts)).

Definition processNames (fullInfo : KinopoiskFullInfo.t) : list jsstring :=
  namesOf KinopoiskName.name (KinopoiskFullInfo.names fullInfo).

(** [Local path uses ![[path]] format; web link uses ![](url) format] *)
Definition createImageLink (imagePath : jsstring) : list jsstring :=
  if isEmpty imagePath || isEmpty (trim imagePath) then []
  else if negb (startsWith (js "http") imagePath)
  then [js "![[" ++ imagePath ++ js "]]"]
  else [js "![](" ++ imagePath ++ js ")"].

(** [TYPE_TRANSLATIONS[type] || type]: a string, or ([None]) one of the
    objects inherited from [Object.prototype]. *)
Definition translateType (type : jsstring) : option jsstring :=
  match TYPE_TRANSLATIONS type with
  | Own s => Some (if isEmpty s then type else s)
  | Inherited => None
  | Missing => Some type
  end.

(** An optional field or else the empty string, or else zero *)
Definition orEmpty (x : option jsstring) : jsstring :=
  match x with Some s => s | None => [] end.
Definition orZero (x : option Z) : Z :=
  match x with Some n => n | None => 0%Z end.

(** [o?.f] *)
Definition opt {A B} (o : option A) (f : A -> option B) : option B :=
  match o with Some a => f a | None => None end.

Section Host.

(** The built-ins of the host the formatter calls. *)
Variable toUpperCase : jsstring -> jsstring.
Variable Date_parse : jsstring -> option Z.
Variable LocalTZA : Z -> Z.

(** Utils/utils.ts, [capitalizeFirstLetter] *)
Definition capitalizeFirstLetter (input : jsstring) : jsstring :=
  match input with
  | [] => []
  | c :: rest => toUpperCase [c] ++ rest
  end.

(** [date.getFullYear()]: the year of the local time. *)
Definition getFullYear (t : Z) : Z := YearFromTime (t + LocalTZA t)%Z.

(** [new Date(dateString)] does not throw and [toISOString] is reached with
    a valid time value only, so the [catch] of the source stays unused. *)
Definition formatDate (dateString : option jsstring) : jsstring :=
  match dateString with
  | None => []
  | Some [] => []
  | Some s =>
      match Date_parse s with
      | None => []
      | Some t =>
          if ((getFullYear t <? 1800) || (2100 <? getFullYear t))%Z then []
          else beforeFirstT (toISOString t)
      end
  end.

Definition createMovieShowFrom (fullInfo : KinopoiskFullInfo.t)
  : result MovieShow :=
  let seasonsData :=
    calculateSeasonsData (KinopoiskFullInfo.seasonsInfo fullInfo) in
  let people := extractPeople (KinopoiskFullInfo.persons fullInfo) in
  let companies := extractCompanies fullInfo in
  let facts_ :=
    processFacts (match KinopoiskFullInfo.facts fullInfo with
                  | Some l => l
                  | None => []
                  end) in
  let names := processNames fullInfo in
  let firstReleaseYear :=
    opt (KinopoiskFullInfo.releaseYears fullInfo) (fun l => hd_error l) in
  let one (s : jsstring) (ft : FormatType) := formatArray [Some s] ft in
  let many (l : list jsstring) (ft : FormatType) :=
    formatArray (map Some l) ft in
  let posterUrl_ :=
    orEmpty (opt (KinopoiskFullInfo.poster fullInfo) KinopoiskImageUrl.url) in
  let backdropUrl :=
    orEmpty (opt (KinopoiskFullInfo.backdrop fullInfo) KinopoiskImageUrl.url) in
  let logoUrl_ :=
    orEmpty (opt (KinopoiskFullInfo.logo fullInfo) KinopoiskImageUrl.url) in
  let genreNames :=
    map (fun g => capitalizeFirstLetter (KinopoiskSimpleItem.name g))
        (KinopoiskFullInfo.genres fullInfo) in
  let countryNames :=
    map KinopoiskSimpleItem.name (KinopoiskFullInfo.countries fullInfo) in
  let rating_ := KinopoiskFullInfo.rating fullInfo in
  let votes_ := KinopoiskFullInfo.votes fullInfo in
  let externalId_ := KinopoiskFullInfo.externalId fullInfo in
  let budget_ := KinopoiskFullInfo.budget fullInfo in
  let fees_ := KinopoiskFullInfo.fees fullInfo in
  let premiere_ := KinopoiskFullInfo.premiere fullInfo in
  let distributors_ := KinopoiskFullInfo.distributors fullInfo in
  let release :=
    opt distributors_ KinopoiskDistributors.distributorRelease in
  match translateType (KinopoiskFullInfo.type fullInfo) with
  | None =>
      (* the entry of [type] is an object: [item.trim] is not a function *)
      raise TypeError
  | Some translated =>
  ret {|
    id := KinopoiskFullInfo.id fullInfo;
    name := one (KinopoiskFullInfo.name fullInfo) SHORT_VALUE;
    alternativeName :=
      one (KinopoiskFullInfo.alternativeName fullInfo) SHORT_VALUE;
    year := KinopoiskFullInfo.year fullInfo;
    description :=
      one (orEmpty (KinopoiskFullInfo.description fullInfo)) LONG_TEXT;
    shortDescription :=
      one (orEmpty (KinopoiskFullInfo.shortDescription fullInfo)) LONG_TEXT;
    nameForFile := cleanTextForMetadata (KinopoiskFullInfo.name fullInfo);
    alternativeNameForFile :=
      cleanTextForMetadata (KinopoiskFullInfo.alternativeName fullInfo);
    enNameForFile :=
      cleanTextForMetadata (orEmpty (KinopoiskFullInfo.enName fullInfo));
    posterUrl := one posterUrl_ URL;
    coverUrl := one backdropUrl URL;
    logoUrl := one logoUrl_ URL;
    posterImageLink := createImageLink posterUrl_;
    coverImageLink := createImageLink backdropUrl;
    logoImageLink := createImageLink logoUrl_;
    genres := many genreNames SHORT_VALUE;
    genresLinks := many genreNames LINK;
    countries := many countryNames SHORT_VALUE;
    countriesLinks := many countryNames LINK;
    type := one translated SHORT_VALUE;
    subType := one (orEmpty (KinopoiskFullInfo.subType fullInfo)) SHORT_VALUE;
    director := many (People.directors people) SHORT_VALUE;
    directorsLinks := many (People.directors people) LINK;
    actors := many (People.actors people) SHORT_VALUE;
    actorsLinks := many (People.actors people) LINK;
    writers := many (People.writers people) SHORT_VALUE;
    writersLinks := many (People.writers people) LINK;
    producers := many (People.producers people) SHORT_VALUE;
    producersLinks := many (People.producers people) LINK;
    movieLength := orZero (KinopoiskFullInfo.movieLength fullInfo);
    isSeries := KinopoiskFullInfo.isSeries fullInfo;
    seriesLength := orZero (KinopoiskFullInfo.seriesLength fullInfo);
    totalSeriesLength := orZero (KinopoiskFullInfo.totalSeriesLength fullInfo);
    isComplete :=
      strEq (orEmpty (KinopoiskFullInfo.status fullInfo)) (js "completed");
    seasonsCount := fst seasonsData;
    seriesInSeasonCount := snd seasonsData;
    ratingKp := orZero (opt rating_ KinopoiskRatings.kp);
    ratingImdb := orZero (opt rating_ KinopoiskRatings.imdb);
    ratingFilmCritics := orZero (opt rating_ KinopoiskRatings.filmCritics);
    ratingRussianFilmCritics :=
      orZero (opt rating_ KinopoiskRatings.russianFilmCritics);
    votesKp := orZero (opt votes_ KinopoiskVotes.kp);
    votesImdb := orZero (opt votes_ KinopoiskVotes.imdb);
    votesFilmCritics := orZero (opt votes_ KinopoiskVotes.filmCritics);
    votesRussianFilmCritics :=
      orZero (opt votes_ KinopoiskVotes.russianFilmCritics);
    kinopoiskUrl :=
      one (js "https://www.kinopoisk.ru/film/"
             ++ numberToString (KinopoiskFullInfo.id fullInfo) ++ js "/") URL;
    imdbId :=
      one (orEmpty (opt externalId_ KinopoiskExternalIds.imdb)) SHORT_VALUE;
    tmdbId := orZero (opt externalId_ KinopoiskExternalIds.tmdb);
    kpHDId :=
      one (orEmpty (opt externalId_ KinopoiskExternalIds.kpHD)) SHORT_VALUE;
    slogan := one (orEmpty (KinopoiskFullInfo.slogan fullInfo)) LONG_TEXT;
    ageRating := orZero (KinopoiskFullInfo.ageRating fullInfo);
    ratingMpaa :=
      one (orEmpty (KinopoiskFullInfo.ratingMpaa fullInfo)) SHORT_VALUE;
    budgetValue := orZero (opt budget_ KinopoiskMoney.value);
    budgetCurrency :=
      one (orEmpty (opt budget_ KinopoiskMoney.currency)) SHORT_VALUE;
    feesWorldValue :=
      orZero (opt (opt fees_ KinopoiskFees.world) KinopoiskMoney.value);
    feesWorldCurrency :=
      one (orEmpty (opt (opt fees_ KinopoiskFees.world)
                        KinopoiskMoney.currency)) SHORT_VALUE;
    feesRussiaValue :=
      orZero (opt (opt fees_ KinopoiskFees.russia) KinopoiskMoney.value);
    feesRussiaCurrency :=
      one (orEmpty (opt (opt fees_ KinopoiskFees.russia)
                        KinopoiskMoney.currency)) SHORT_VALUE;
    feesUsaValue :=
      orZero (opt (opt fees_ KinopoiskFees.usa) KinopoiskMoney.value);
    feesUsaCurrency :=
      one (orEmpty (opt (opt fees_ KinopoiskFees.usa)
                        KinopoiskMoney.currency)) SHORT_VALUE;
    premiereWorld :=
      one (formatDate (opt premiere_ KinopoiskPremiere.world)) SHORT_VALUE;
    premiereRussia :=
      one (formatDate (opt premiere_ KinopoiskPremiere.russia)) SHORT_VALUE;
    premiereDigital :=
      one (formatDate (opt premiere_ KinopoiskPremiere.digital)) SHORT_VALUE;
    premiereCinema :=
      one (formatDate (opt premiere_ KinopoiskPremiere.cinema)) SHORT_VALUE;
    releaseYearsStart :=
      orZero (opt firstReleaseYear KinopoiskReleaseYear.start);
    releaseYearsEnd :=
      orZero (opt firstReleaseYear KinopoiskReleaseYear.end_);
    top10 := orZero (KinopoiskFullInfo.top10 fullInfo);
    top250 := orZero (KinopoiskFullInfo.top250 fullInfo);
    facts := many facts_ LONG_TEXT;
    allNamesString := many names SHORT_VALUE;
    enName := one (orEmpty (KinopoiskFullInfo.enName fullInfo)) SHORT_VALUE;
    networks := many (fst (fst companies)) SHORT_VALUE;
    networksLinks := many (fst (fst companies)) LINK;
    productionCompanies := many (snd (fst companies)) SHORT_VALUE;
    productionCompaniesLinks := many (snd (fst companies)) LINK;
    distributor :=
      one (orEmpty (opt distributors_ KinopoiskDistributors.distributor))
          SHORT_VALUE;
    distributorRelease :=
      one (if isEmpty (formatDate release) then orEmpty release
           else formatDate release) SHORT_VALUE;
    sequelsAndPrequels := many (snd companies) SHORT_VALUE;
    sequelsAndPrequelsLinks := many (snd companies) LINK
  |}
  end.

End Host.

End DataFormatter.

(** A property value of a MovieShow, as [Object.entries] hands it to the
    substitution. *)
Inductive value : Type :=
| VNumber (n : Z)
| VBoolean (b : bool)
| VString (s : jsstring)
| VArray (xs : list jsstring).

(** [Object.entries(movieShow)] *)
Definition entries (m : MovieShow) : list (string * value) :=
  [ ("id"%string, VNumber (id m));
    ("name"%string, VArray (name m));
    ("alternativeName"%string, VArray (alternativeName m));
    ("year"%string, VNumber (year m));
    ("description"%string, VArray (description m));
    ("shortDescription"%string, VArray (shortDescription m));
    ("nameForFile"%string, VString (nameForFile m));
    ("alternativeNameForFile"%string, VString (alternativeNameForFile m));
    ("enNameForFile"%string, VString (enNameForFile m));
    ("posterUrl"%string, VArray (posterUrl m));
    ("coverUrl"%string, VArray (coverUrl m));
    ("logoUrl"%string, VArray (logoUrl m));
    ("posterImageLink"%string, VArray (posterImageLink m));
    ("coverImageLink"%string, VArray (coverImageLink m));
    ("logoImageLink"%string, VArray (logoImageLink m));
    ("genres"%string, VArray (genres m));
    ("genresLinks"%string, VArray (genresLinks m));
    ("countries"%string, VArray (countries m));
    ("countriesLinks"%string, VArray (countriesLinks m));
    ("type"%string, VArray (type m));
    ("subType"%string, VArray (subType m));
    ("director"%string, VArray (director m));
    ("directorsLinks"%string, VArray (directorsLinks m));
    ("actors"%string, VArray (actors m));
    ("actorsLinks"%string, VArray (actorsLinks m));
    ("writers"%string, VArray (writers m));
    ("writersLinks"%string, VArray (writersLinks m));
    ("producers"%string, VArray (producers m));
    ("producersLinks"%string, VArray (producersLinks m));
    ("movieLength"%string, VNumber (movieLength m));
    ("isSeries"%string, VBoolean (isSeries m));
    ("seriesLength"%string, VNumber (seriesLength m));
    ("totalSeriesLength"%string, VNumber (totalSeriesLength m));
    ("isComplete"%string, VBoolean (isComplete m));
    ("seasonsCount"%string, VNumber (seasonsCount m));
    ("seriesInSeasonCount"%string, VNumber (seriesInSeasonCount m));
    ("ratingKp"%string, VNumber (ratingKp m));
    ("ratingImdb"%string, VNumber (ratingImdb m));
    ("ratingFilmCritics"%string, VNumber (ratingFilmCritics m));
    ("ratingRussianFilmCritics"%string, VNumber (ratingRussianFilmCritics m));
    ("votesKp"%string, VNumber (votesKp m));
    ("votesImdb"%string, VNumber (votesImdb m));
    ("votesFilmCritics"%string, VNumber (votesFilmCritics m));
    ("votesRussianFilmCritics"%string, VNumber (votesRussianFilmCritics m));
    ("kinopoiskUrl"%string, VArray (kinopoiskUrl m));
    ("imdbId"%string, VArray (imdbId m));
    ("tmdbId"%string, VNumber (tmdbId m));
    ("kpHDId"%string, VArray (kpHDId m));
    ("slogan"%string, VArray (slogan m));
    ("ageRating"%string, VNumber (ageRating m));
    ("ratingMpaa"%string, VArray (ratingMpaa m));
    ("budgetValue"%string, VNumber (budgetValue m));
    ("budgetCurrency"%string, VArray (budgetCurrency m));
    ("feesWorldValue"%string, VNumber (feesWorldValue m));
    ("feesWorldCurrency"%string, VArray (feesWorldCurrency m));
    ("feesRussiaValue"%string, VNumber (feesRussiaValue m));
    ("feesRussiaCurrency"%string, VArray (feesRussiaCurrency m));
    ("feesUsaValue"%string, VNumber (feesUsaValue m));
    ("feesUsaCurrency"%string, VArray (feesUsaCurrency m));
    ("premiereWorld"%string, VArray (premiereWorld m));
    ("premiereRussia"%string, VArray (premiereRussia m));
    ("premiereDigital"%string, VArray (premiereDigital m));
    ("premiereCinema"%string, VArray (premiereCinema m));
    ("releaseYearsStart"%string, VNumber (releaseYearsStart m));
    ("releaseYearsEnd"%string, VNumber (releaseYearsEnd m));
    ("top10"%string, VNumber (top10 m));
    ("top250"%string, VNumber (top250 m));
    ("facts"%string, VArray (facts m));
    ("allNamesString"%string, VArray (allNamesString m));
    ("enName"%string, VArray (enName m));
    ("networks"%string, VArray (networks m));
    ("networksLinks"%string, VArray (networksLinks m));
    ("productionCompanies"%string, VArray (productionCompanies m));
    ("productionCompaniesLinks"%string, VArray (productionCompaniesLinks m));
    ("distributor"%string, VArray (distributor m));
    ("distributorRelease"%string, VArray (distributorRelease m));
    ("sequelsAndPrequels"%string, VArray (sequelsAndPrequels m));
    ("sequelsAndPrequelsLinks"%string, VArray (sequelsAndPrequelsLinks m)) ].

(** [updated.f = v] for the three properties that image processing
    assigns. *)
Definition set_posterImageLink (v : list jsstring) (m : MovieShow) : MovieShow :=
  {|
    id := id m; name := name m; alternativeName := alternativeName m;
    year := year m; description := description m;
    shortDescription := shortDescription m; nameForFile := nameForFile m;
    alternativeNameForFile := alternativeNameForFile m;
    enNameForFile := enNameForFile m; posterUrl := posterUrl m;
    coverUrl := coverUrl m; logoUrl := logoUrl m; posterImageLink := v;
    coverImageLink := coverImageLink m; logoImageLink := logoImageLink m;
    genres := genres m; genresLinks := genresLinks m;
    countries := countries m; countriesLinks := countriesLinks m;
    type := type m; subType := subType m; director := director m;
    directorsLinks := directorsLinks m; actors := actors m;
    actorsLinks := actorsLinks m; writers := writers m;
    writersLinks := writersLinks m; producers := producers m;
    producersLinks := producersLinks m; movieLength := movieLength m;
    isSeries := isSeries m; seriesLength := seriesLength m;
    totalSeriesLength := totalSeriesLength m; isComplete := isComplete m;
    seasonsCount := seasonsCount m;
    seriesInSeasonCount := seriesInSeasonCount m; ratingKp := ratingKp m;
    ratingImdb := ratingImdb m; ratingFilmCritics := ratingFilmCritics m;
    ratingRussianFilmCritics := ratingRussianFilmCritics m;
    votesKp := votesKp m; votesImdb := votesImdb m;
    votesFilmCritics := votesFilmCritics m;
    votesRussianFilmCritics := votesRussianFilmCritics m;
    kinopoiskUrl := kinopoiskUrl m; imdbId := imdbId m; tmdbId := tmdbId m;
    kpHDId := kpHDId m; slogan := slogan m; ageRating := ageRating m;
    ratingMpaa := ratingMpaa m; budgetValue := budgetValue m;
    budgetCurrency := budgetCurrency m; feesWorldValue := feesWorldValue m;
    feesWorldCurrency := feesWorldCurrency m;
    feesRussiaValue := feesRussiaValue m;
    feesRussiaCurrency := feesRussiaCurrency m;
    feesUsaValue := feesUsaValue m; feesUsaCurrency := feesUsaCurrency m;
    premiereWorld := premiereWorld m; premiereRussia := premiereRussia m;
    premiereDigital := premiereDigital m; premiereCinema := premiereCinema m;
    releaseYearsStart := releaseYearsStart m;
    releaseYearsEnd := releaseYearsEnd m; top10 := top10 m;
    top250 := top250 m; facts := facts m; allNamesString := allNamesString m;
    enName := enName m; networks := networks m;
    networksLinks := networksLinks m;
    productionCompanies := productionCompanies m;
    productionCompaniesLinks := productionCompaniesLinks m;
    distributor := distributor m; distributorRelease := distributorRelease m;
    sequelsAndPrequels := sequelsAndPrequels m;
    sequelsAndPrequelsLinks := sequelsAndPrequelsLinks m
  |}.

Definition set_coverImageLink (v : list jsstring) (m : MovieShow) : MovieShow :=
  {|
    id := id m; name := name m; alternativeName := alternativeName m;
    year := year m; description := description m;
    shortDescription := shortDescription m; nameForFile := nameForFile m;
    alternativeNameForFile := alternativeNameForFile m;
    enNameForFile := enNameForFile m; posterUrl := posterUrl m;
    coverUrl := coverUrl m; logoUrl := logoUrl m;
    posterImageLink := posterImageLink m; coverImageLink := v;
    logoImageLink := logoImageLink m; genres := genres m;
    genresLinks := genresLinks m; countries := countries m;
    countriesLinks := countriesLinks m; type := type m; subType := subType m;
    director := director m; directorsLinks := directorsLinks m;
    actors := actors m; actorsLinks := actorsLinks m; writers := writers m;
    writersLinks := writersLinks m; producers := producers m;
    producersLinks := producersLinks m; movieLength := movieLength m;
    isSeries := isSeries m; seriesLength := seriesLength m;
    totalSeriesLength := totalSeriesLength m; isComplete := isComplete m;
    seasonsCount := seasonsCount m;
    seriesInSeasonCount := seriesInSeasonCount m; ratingKp := ratingKp m;
    ratingImdb := ratingImdb m; ratingFilmCritics := ratingFilmCritics m;
    ratingRussianFilmCritics := ratingRussianFilmCritics m;
    votesKp := votesKp m; votesImdb := votesImdb m;
    votesFilmCritics := votesFilmCritics m;
    votesRussianFilmCritics := votesRussianFilmCritics m;
    kinopoiskUrl := kinopoiskUrl m; imdbId := imdbId m; tmdbId := tmdbId m;
    kpHDId := kpHDId m; slogan := slogan m; ageRating := ageRating m;
    ratingMpaa := ratingMpaa m; budgetValue := budgetValue m;
    budgetCurrency := budgetCurrency m; feesWorldValue := feesWorldValue m;
    feesWorldCurrency := feesWorldCurrency m;
    feesRussiaValue := feesRussiaValue m;
    feesRussiaCurrency := feesRussiaCurrency m;
    feesUsaValue := feesUsaValue m; feesUsaCurrency := feesUsaCurrency m;
    premiereWorld := premiereWorld m; premiereRussia := premiereRussia m;
    premiereDigital := premiereDigital m; premiereCinema := premiereCinema m;
    releaseYearsStart := releaseYearsStart m;
    releaseYearsEnd := releaseYearsEnd m; top10 := top10 m;
    top250 := top250 m; facts := facts m; allNamesString := allNamesString m;
    enName := enName m; networks := networks m;
    networksLinks := networksLinks m;
    productionCompanies := productionCompanies m;
    productionCompaniesLinks := productionCompaniesLinks m;
    distributor := distributor m; distributorRelease := distributorRelease m;
    sequelsAndPrequels := sequelsAndPrequels m;
    sequelsAndPrequelsLinks := sequelsAndPrequelsLinks m
  |}.

Definition set_logoImageLink (v : list jsstring) (m : MovieShow) : MovieShow :=
  {|
    id := id m; name := name m; alternativeName := alternativeName m;
    year := year m; description := description m;
    shortDescription := shortDescription m; nameForFile := nameForFile m;
    alternativeNameForFile := alternativeNameForFile m;
    enNameForFile := enNameForFile m; posterUrl := posterUrl m;
    coverUrl := coverUrl m; logoUrl := logoUrl m;
    posterImageLink := posterImageLink m; coverImageLink := coverImageLink m;
    logoImageLink := v; genres := genres m; genresLinks := genresLinks m;
    countries := countries m; countriesLinks := countriesLinks m;
    type := type m; subType := subType m; director := director m;
    directorsLinks := directorsLinks m; actors := actors m;
    actorsLinks := actorsLinks m; writers := writers m;
    writersLinks := writersLinks m; producers := producers m;
    producersLinks := producersLinks m; movieLength := movieLength m;
    isSeries := isSeries m; seriesLength := seriesLength m;
    totalSeriesLength := totalSeriesLength m; isComplete := isComplete m;
    seasonsCount := seasonsCount m;
    seriesInSeasonCount := seriesInSeasonCount m; ratingKp := ratingKp m;
    ratingImdb := ratingImdb m; ratingFilmCritics := ratingFilmCritics m;
    ratingRussianFilmCritics := ratingRussianFilmCritics m;
    votesKp := votesKp m; votesImdb := votesImdb m;
    votesFilmCritics := votesFilmCritics m;
    votesRussianFilmCritics := votesRussianFilmCritics m;
    kinopoiskUrl := kinopoiskUrl m; imdbId := imdbId m; tmdbId := tmdbId m;
    kpHDId := kpHDId m; slogan := slogan m; ageRating := ageRating m;
    ratingMpaa := ratingMpaa m; budgetValue := budgetValue m;
    budgetCurrency := budgetCurrency m; feesWorldValue := feesWorldValue m;
    feesWorldCurrency := feesWorldCurrency m;
    feesRussiaValue := feesRussiaValue m;
    feesRussiaCurrency := feesRussiaCurrency m;
    feesUsaValue := feesUsaValue m; feesUsaCurrency := feesUsaCurrency m;
    premiereWorld := premiereWorld m; premiereRussia := premiereRussia m;
    premiereDigital := premiereDigital m; premiereCinema := premiereCinema m;
    releaseYearsStart := releaseYearsStart m;
    releaseYearsEnd := releaseYearsEnd m; top10 := top10 m;
    top250 := top250 m; facts := facts m; allNamesString := allNamesString m;
    enName := enName m; networks := networks m;
    networksLinks := networksLinks m;
    productionCompanies := productionCompanies m;
    productionCompaniesLinks := productionCompaniesLinks m;
    distributor := distributor m; distributorRelease := distributorRelease m;
    sequelsAndPrequels := sequelsAndPrequels m;
    sequelsAndPrequelsLinks := sequelsAndPrequelsLinks m
  |}.

(** ** i18n.ts: the two messages the file namer asks for *)

Inductive SupportedLanguage : Type :=
| ru
| en.

(** [t("utils.unknownMovie")] under the current language *)
Definition unknownMovie (currentLanguage : SupportedLanguage) : jsstring :=
  match currentLanguage with
  | en => js "Unknown Movie"
  | ru => [1053; 1077; 1080; 1079; 1074; 1077; 1089; 1090; 1085; 1099; 1081;
           32; 1092; 1080; 1083; 1100; 1084]%N
  end.

(** [t("utils.copyPrefix")] under the current language *)
Definition copyPrefix (currentLanguage : SupportedLanguage) : jsstring :=
  match currentLanguage with
  | en => js "Copy"
  | ru => [1050; 1086; 1087; 1080; 1103]%N
  end.

(** ** Utils/utils.ts *)

Module Utils.

(** The class of [replaceIllegalFileNameCharactersInString]: backslash,
    slash, colon, asterisk, question mark, double quote, angle brackets and
    the vertical bar. *)
Definition illegalFileNameCharacter (c : N) : bool :=
  existsb (N.eqb c) [92; 47; 58; 42; 63; 34; 60; 62; 124]%N.

Definition replaceIllegalFileNameCharactersInString (text : jsstring)
  : jsstring :=
  if isEmpty text then []
  else replaceAll (oneOf illegalFileNameCharacter) [] text.

(** The replace of [getPlainValueFromArray], whose pattern is a double
    quote at the start, any run without line terminators as group 1 and a
    double quote at the end: the text between the quotes when the
    whole string is one quoted run without line terminators, else the string
    itself. *)
Definition unquote (s : jsstring) : jsstring :=
  match s with
  | c :: r =>
      if (c =? DQ)%N && negb (isEmpty r) && (last r 0 =? DQ)%N
         && forallb (fun x => negb (isLineTerminator x)) (removelast r)
      then removelast r
      else s
  | [] => s
  end.

(** What [getPlainValueFromArray] returns: a string or a number. *)
Inductive plainValue : Type :=
| PString (s : jsstring)
| PNumber (n : Z).

(** [String] of the value, or of the empty string when the value is falsy;
    for a value that is not an array *)
Definition stringOrEmpty (v : value) : jsstring :=
  match v with
  | VNumber n => if (n =? 0)%Z then [] else numberToString n
  | VBoolean b => if b then js "true" else []
  | VString s => s
  | VArray xs => join (js ",") xs
  end.

Definition getPlainValueFromArray (v : value) : plainValue :=
  match v with
  | VArray [] => PString []
  | VArray [firstValue] => PString (unquote firstValue)
  | VArray xs => PString (join (js ", ") (map unquote xs))
  | VNumber n => PNumber n
  | _ => PString (stringOrEmpty v)
  end.

(** [String(plainValue)] *)
Definition String_ (p : plainValue) : jsstring :=
  match p with
  | PString s => s
  | PNumber n => numberToString n
  end.

(** [slice(1, -1)], every double quote preceded by a backslash, and fresh
    outer quotes *)
Definition escapeQuoted (s : jsstring) : jsstring :=
  [DQ] ++ replaceAll (oneOf (fun c => (c =? DQ)%N)) [92%N; DQ] (sliceInner s)
       ++ [DQ].

Definition looksQuoted (s : jsstring) : bool :=
  startsWith [DQ] s && endsWith [DQ] s.

(** The body of the [map] callback of [getQuotedValueFromArray], which is
    also what it does to the element of a one-element array. *)
Definition quoteItem (itemStr : jsstring) : jsstring :=
  if (startsWith (js "![[") itemStr || startsWith (js "![](") itemStr)
     && (negb (startsWith [DQ] itemStr) && negb (endsWith [DQ] itemStr))
  then [DQ] ++ itemStr ++ [DQ]
  else if looksQuoted itemStr then escapeQuoted itemStr
  else itemStr.

Definition getQuotedValueFromArray (v : value) : jsstring :=
  match v with
  | VArray [] => []
  | VArray [firstValue] => quoteItem firstValue
  | VArray xs => join (js ", ") (map quoteItem xs)
  | _ =>
      let stringValue := stringOrEmpty v in
      if looksQuoted stringValue then escapeQuoted stringValue
      else stringValue
  end.

(** *** The header block

    [frontmatterRegex] reads: at the start of the text three hyphens, [\s*]
    and [\n]; group 1, a lazy run of any code units; [\n], three hyphens,
    [\s*] and [\n]; group 2, all the rest up to the end of the text.

    [afterSpacesLF s] lists what can follow a match of [\s*\n] at the head of
    [s], in the order the greedy star tries them: the longest run of
    whitespace first. *)
Fixpoint afterSpacesLF (s : jsstring) : list jsstring :=
  match s with
  | [] => []
  | c :: r =>
      (if isWhiteSpace c then afterSpacesLF r else [])
        ++ (if (c =? LF)%N then [r] else [])
  end.

Definition stripPrefix (p s : jsstring) : option jsstring :=
  if startsWith p s then Some (skipn (length p) s) else None.

(** The part of the pattern after group 1, at the head of [s]: the body
    that group 2 captures. *)
Definition closingDelimiter (s : jsstring) : option jsstring :=
  match stripPrefix (LF :: js "---") s with
  | Some r => hd_error (afterSpacesLF r)
  | None => None
  end.

(** Group 1, lazy: the shortest text after which the closing
    delimiter matches; the pair is (header, body). *)
Fixpoint findClosing (s : jsstring) : option (jsstring * jsstring) :=
  match closingDelimiter s with
  | Some body => Some ([], body)
  | None =>
      match s with
      | [] => None
      | c :: r =>
          match findClosing r with
          | Some (frontmatter, body) => Some (c :: frontmatter, body)
          | None => None
          end
      end
  end.

Fixpoint firstSome {A B} (f : A -> option B) (xs : list A) : option B :=
  match xs with
  | [] => None
  | x :: r => match f x with Some b => Some b | None => firstSome f r end
  end.

(** [text.match(frontmatterRegex)] *)
Definition matchFrontmatter (text : jsstring) : option (jsstring * jsstring) :=
  match stripPrefix (js "---") text with
  | Some r => firstSome findClosing (afterSpacesLF r)
  | None => None
  end.

(** [new RegExp(`{{${key}}}`, "ig")] *)
Definition placeholder (key : string) : matcher :=
  literalIgnoreCase (js "{{" ++ js key ++ js "}}").

(** [/{{\w+}}/gi] *)
Definition unusedVariable : matcher :=
  fun s =>
    match s with
    | a :: b :: r =>
        if (a =? 123)%N && (b =? 123)%N then
          let word := takeWhile isWordChar r in
          match word, skipn (length word) r with
          | _ :: _, c :: d :: _ =>
              if (c =? 125)%N && (d =? 125)%N
              then Some (length word + 4)%nat
              else None
          | _, _ => None
          end
        else None
    | _ => None
    end.

Definition removeUnusedVariables (s : jsstring) : jsstring :=
  replaceAll unusedVariable [] s.

Section Substitution.

(** The two encoders, as computations that may throw. *)
Variable quoted : value -> result jsstring.
Variable plain : value -> result jsstring.

(** One step of the [reduce]: [try { return result.replace(...) }
    catch (error) { console.error(...); return result }]. *)
Definition substitute (encode : value -> result jsstring)
    (result_ : jsstring) (entry : string * value) : jsstring :=
  match encode (snd entry) with
  | inr encoded => replaceAll (placeholder (fst entry)) encoded result_
  | inl _ => result_
  end.

(** [Object.entries] throws on a record that is null or undefined. *)
Definition Object_entries (movieShow : option MovieShow)
  : result (list (string * value)) :=
  match movieShow with
  | Some m => ret (entries m)
  | None => raise TypeError
  end.

Definition replaceVariableSyntaxWith (movieShow : option MovieShow)
    (text : jsstring) : result jsstring :=
  if isEmpty (trim text) then ret []
  else
    tryCatch
      (match matchFrontmatter text with
       | Some (frontmatter, body) =>
           es <- Object_entries movieShow ;;
           let processedFrontmatter :=
             fold_left (substitute quoted) es frontmatter in
           es' <- Object_entries movieShow ;;
           let processedBody := fold_left (substitute plain) es' body in
           let result_ :=
             js "---" ++ [LF] ++ processedFrontmatter ++ [LF] ++ js "---"
               ++ [LF] ++ processedBody in
           ret (trim (removeUnusedVariables result_))
       | None =>
           es <- Object_entries movieShow ;;
           ret (trim (removeUnusedVariables
                        (fold_left (substitute plain) es text)))
       end)
      (fun _ => ret text).

End Substitution.

(** The function of the source: the encoders are [getQuotedValueFromArray]
    and [String(getPlainValueFromArray(val))], which return on every
    value. *)
Definition replaceVariableSyntax (movieShow : option MovieShow)
    (text : jsstring) : result jsstring :=
  replaceVariableSyntaxWith
    (fun val => ret (getQuotedValueFromArray val))
    (fun val => ret (String_ (getPlainValueFromArray val)))
    movieShow text.

(** The text in which the stray tokens are then deleted, for a record that
    is there: the header and the body after all fields are substituted. *)
Definition substitutedWith (quoted plain : value -> result jsstring)
    (movieShow : MovieShow) (text : jsstring) : jsstring :=
  match matchFrontmatter text with
  | Some (frontmatter, body) =>
      js "---" ++ [LF]
        ++ fold_left (substitute quoted) (entries movieShow) frontmatter
        ++ [LF] ++ js "---" ++ [LF]
        ++ fold_left (substitute plain) (entries movieShow) body
  | None => fold_left (substitute plain) (entries movieShow) text
  end.

Definition substituted (movieShow : MovieShow) (text : jsstring) : jsstring :=
  substitutedWith
    (fun val => ret (getQuotedValueFromArray val))
    (fun val => ret (String_ (getPlainValueFromArray val)))
    movieShow text.

Section FileName.

(** The host: the current language of the message catalogue, the vault's
    [getAbstractFileByPath] (whether it finds a file) and Obsidian's
    [normalizePath]. *)
Variable currentLanguage : SupportedLanguage.
Variable getAbstractFileByPath : jsstring -> bool.
Variable normalizePath : jsstring -> jsstring.

Definition truthy (s : option jsstring) : bool :=
  match s with Some (_ :: _) => true | _ => false end.

(** [folderPath ? `${folderPath}/${fileName}` : fileName] *)
Definition fullPath (folderPath : option jsstring) (fileName : jsstring)
  : jsstring :=
  match folderPath with
  | Some (c :: r) => (c :: r) ++ js "/" ++ fileName
  | _ => fileName
  end.

(** The existence check on a file name. *)
Definition exists_ (folderPath : option jsstring) (fileName : jsstring)
  : bool :=
  getAbstractFileByPath (normalizePath (fullPath folderPath fileName)).

Definition copyFileName (cleanedBaseName : jsstring) (copyNumber : Z)
  : jsstring :=
  cleanedBaseName ++ js " (" ++ copyPrefix currentLanguage ++ js "["
    ++ numberToString copyNumber ++ js "]).md".

(** The [do ... while] loop; [fuel] bounds the number of rounds and [None]
    is a loop that has not ended within it. *)
Fixpoint copyLoop (fuel : nat) (folderPath : option jsstring)
    (cleanedBaseName : jsstring) (copyNumber : Z) : option jsstring :=
  match fuel with
  | O => None
  | S fuel' =>
      let candidate := copyFileName cleanedBaseName copyNumber in
      if exists_ folderPath candidate
      then copyLoop fuel' folderPath cleanedBaseName (copyNumber + 1)%Z
      else Some candidate
  end.

(** The base name before the illegal characters are removed. *)
Definition baseName (movieShow : MovieShow) (fileNameFormat : option jsstring)
  : result jsstring :=
  match fileNameFormat with
  | Some (c :: r) => replaceVariableSyntax (Some movieShow) (c :: r)
  | _ =>
      ret ((if isEmpty (nameForFile movieShow)
            then unknownMovie currentLanguage
            else nameForFile movieShow)
           ++ js " ("
           ++ (if (year movieShow =? 0)%Z then unknownMovie currentLanguage
               else numberToString (year movieShow))
           ++ js ")")
  end.

(** [makeFileName]; the outer [option] is the fuel of the copy loop, the
    [catch] of the source answers every exception with the fallback name. *)
Definition makeFileName (fuel : nat) (movieShow : MovieShow)
    (fileNameFormat folderPath : option jsstring) : option jsstring :=
  match baseName movieShow fileNameFormat with
  | inl _ => Some (unknownMovie currentLanguage ++ js ".md")
  | inr base =>
      let cleanedBaseName := replaceIllegalFileNameCharactersInString base in
      if isEmpty (trim cleanedBaseName)
      then Some (unknownMovie currentLanguage ++ js ".md")
      else
        let fileName := cleanedBaseName ++ js ".md" in
        if negb (exists_ folderPath fileName) then Some fileName
        else copyLoop fuel folderPath cleanedBaseName 1
  end.

End FileName.

End Utils.

(** ** Utils/imageUtils.ts *)

Module ImageUtils.

(** The settings [processImages] picks. *)
Record Settings : Type := mkSettings {
  saveImagesLocally : bool;
  imagesFolder : jsstring;
  savePosterImage : bool;
  saveCoverImage : bool;
  saveLogoImage : bool }.

(** [imagePath.split("/").pop()]: the text after the last slash. *)
Definition lastSegment (imagePath : jsstring) : jsstring :=
  rev (takeWhile (fun c => negb (c =? 47)%N) (rev imagePath)).

(** A local path gives a wiki link without the path (the file name only), a
    web link the form [![](url)]. *)
Definition createImageLink (imagePath : jsstring) : list jsstring :=
  if isEmpty imagePath || isEmpty (trim imagePath) then []
  else if negb (startsWith (js "http") imagePath) then
    let fileName :=
      if isEmpty (lastSegment imagePath) then imagePath
      else lastSegment imagePath in
    [js "![[" ++ fileName ++ js "]]"]
  else [js "![](" ++ imagePath ++ js ")"].

Section Host.

(** Whether [new URL(url)] returns rather than throws. *)
Variable URL_parses : jsstring -> bool.

(** The download collaborator [downloadAndSaveImage(app, url, movieShow,
    imageType, folderPath)]: the local path of the saved file, or an
    exception. *)
Variable downloadAndSaveImage :
  jsstring -> MovieShow -> string -> jsstring -> result jsstring.

Definition isValidImageUrl (url : jsstring) : bool :=
  if isEmpty url || isEmpty (trim url) then false
  else if URL_parses url
  then startsWith (js "http://") url || startsWith (js "https://") url
  else false.

(** [xs.length > 0 && xs[0]], the first entry when it is there and truthy *)
Definition firstTruthy (xs : list jsstring) : option jsstring :=
  match xs with
  | (c :: r) :: _ => Some (c :: r)
  | _ => None
  end.

Definition wanted (enabled : bool) (urls : list jsstring) : option jsstring :=
  if enabled then firstTruthy urls else None.

Definition countOne (enabled : bool) (urls : list jsstring) : Z :=
  match wanted enabled urls with
  | Some u => if isValidImageUrl u then 1%Z else 0%Z
  | None => 0%Z
  end.

Definition countImagesToDownload (movieShow : MovieShow) (settings : Settings)
  : Z :=
  (countOne (savePosterImage settings) (posterUrl movieShow)
   + countOne (saveCoverImage settings) (coverUrl movieShow)
   + countOne (saveLogoImage settings) (logoUrl movieShow))%Z.

(** The link one block of [processImages] assigns for the image at [url]:
    from the local path after a download that succeeded, from the URL itself
    after one that threw or when the URL is not a valid web address. *)
Definition linkFor (movieShow : MovieShow) (settings : Settings)
    (imageType : string) (url : jsstring) : list jsstring :=
  if isValidImageUrl url then
    match downloadAndSaveImage url movieShow imageType (imagesFolder settings)
    with
    | inr localPath => createImageLink localPath
    | inl _ => createImageLink url
    end
  else createImageLink url.

(** [processImages], without the progress callback and the notices, which
    do not touch the record. *)
Definition processImages (movieShow : MovieShow) (settings : Settings)
  : MovieShow :=
  if negb (saveImagesLocally settings) then movieShow
  else
    let updatedMovieShow := movieShow in
    let totalImages := countImagesToDownload movieShow settings in
    if (totalImages =? 0)%Z then movieShow
    else
      let updatedMovieShow :=
        match wanted (savePosterImage settings) (posterUrl movieShow) with
        | Some posterUrl_ =>
            set_posterImageLink
              (linkFor movieShow settings "poster" posterUrl_)
              updatedMovieShow
        | None => updatedMovieShow
        end in
      let updatedMovieShow :=
        match wanted (saveCoverImage settings) (coverUrl movieShow) with
        | Some coverUrl_ =>
            set_coverImageLink
              (linkFor movieShow settings "cover" coverUrl_)
              updatedMovieShow
        | None => updatedMovieShow
        end in
      let updatedMovieShow :=
        match wanted (saveLogoImage settings) (logoUrl movieShow) with
        | Some logoUrl_ =>
            set_logoImageLink
              (linkFor movieShow settings "logo" logoUrl_)
              updatedMovieShow
        | None => updatedMovieShow
        end in
      updatedMovieShow.

End Host.

End ImageUtils.

(** A raw record with every optional field absent and empty lists. *)
Definition withoutOptionalFields (id : Z) (name alternativeName type : jsstring) (year : Z)
    (isSeries : bool) : KinopoiskFullInfo.t :=
  KinopoiskFullInfo.mk id name alternativeName type year
    None None [] [] [] None None None isSeries
    None None None None None None None None None None None None None None
    None None None None None None None None None None None None.

(** ** A sample host and sample records, for the worked examples *)

Module Sample.

(** [toUpperCase] on the ASCII and the basic Cyrillic letters. *)
Definition toUpperCase (s : jsstring) : jsstring :=
  map (fun c => if inRange 97 122 c || inRange 1072 1103 c then (c - 32)%N
                else if (c =? 1105)%N then 1025%N
                else c) s.

(** Days since the epoch of a date of the proleptic Gregorian calendar. *)
Definition daysFromCivil (y m d : Z) : Z :=
  let y' := (if m <=? 2 then y - 1 else y)%Z in
  let era := (y' / 400)%Z in
  let yoe := (y' - era * 400)%Z in
  let doy := ((153 * (if m >? 2 then m - 3 else m + 9) + 2) / 5 + d - 1)%Z in
  let doe := (yoe * 365 + yoe / 4 - yoe / 100 + doy)%Z in
  (era * 146097 + doe - 719468)%Z.

Definition digit (c : N) : option Z :=
  if inRange 48 57 c then Some (Z.of_N c - 48)%Z else None.

Fixpoint digits (acc : Z) (s : jsstring) : option Z :=
  match s with
  | [] => Some acc
  | c :: r => match digit c with
              | Some d => digits (10 * acc + d)%Z r
              | None => None
              end
  end.

(** [Date.parse] on the date-only form YYYY-MM-DD, which is read as UTC
    midnight, and on nothing else. *)
Definition Date_parse (s : jsstring) : option Z :=
  match s with
  | [y1; y2; y3; y4; h1; m1; m2; h2; d1; d2] =>
      if (h1 =? 45)%N && (h2 =? 45)%N then
        match digits 0 [y1; y2; y3; y4], digits 0 [m1; m2], digits 0 [d1; d2]
        with
        | Some y, Some m, Some d =>
            if ((1 <=? m) && (m <=? 12) && (1 <=? d) && (d <=? 31))%Z
            then Some (daysFromCivil y m d * msPerDay)%Z
            else None
        | _, _, _ => None
        end
      else None
  | _ => None
  end.

(** Two time zones without daylight saving: UTC and five hours behind it. *)
Definition UTC (t : Z) : Z := 0%Z.
Definition fiveHoursBehind (t : Z) : Z := (-18000000)%Z.

Definition inception : KinopoiskFullInfo.t :=
  withoutOptionalFields 447301 (js "Inception") (js "Inception") (js "movie") 2010 false.

(** The record of [inception] with two genres. *)
Definition inceptionWithGenres : KinopoiskFullInfo.t :=
  KinopoiskFullInfo.mk 447301 (js "Inception") (js "Inception") (js "movie")
    2010 None None
    [KinopoiskSimpleItem.mk (js "action"); KinopoiskSimpleItem.mk (js "drama")]
    [KinopoiskSimpleItem.mk (js "usa")] [] None None None false
    None None None None None None None None None None None None None None
    None None None None None None None None None None None None.

(** A normalised record, written out. *)
Definition movie : MovieShow :=
  {| id := 447301; name := [js "Inception"]; alternativeName := [js "Inception"];
     year := 2010; description := []; shortDescription := [];
     nameForFile := js "Inception"; alternativeNameForFile := js "Inception";
     enNameForFile := [];
     posterUrl := [js "https://img.example/x.jpg"]; coverUrl := [];
     logoUrl := [];
     posterImageLink := [js "![](https://img.example/x.jpg)"];
     coverImageLink := []; logoImageLink := [];
     genres := [js "Action"; js "Drama"];
     genresLinks := [[DQ] ++ js "[[Action]]" ++ [DQ];
                     [DQ] ++ js "[[Drama]]" ++ [DQ]];
     countries := []; countriesLinks := [];
     type := [[1060; 1080; 1083; 1100; 1084]%N]; subType := [];
     director := []; directorsLinks := []; actors := []; actorsLinks := [];
     writers := []; writersLinks := []; producers := []; producersLinks := [];
     movieLength := 148; isSeries := false; seriesLength := 0;
     totalSeriesLength := 0; isComplete := false; seasonsCount := 0;
     seriesInSeasonCount := 0; ratingKp := 9; ratingImdb := 9;
     ratingFilmCritics := 0; ratingRussianFilmCritics := 0; votesKp := 0;
     votesImdb := 0; votesFilmCritics := 0; votesRussianFilmCritics := 0;
     kinopoiskUrl := [js "https://www.kinopoisk.ru/film/447301/"];
     imdbId := []; tmdbId := 0; kpHDId := []; slogan := []; ageRating := 0;
     ratingMpaa := []; budgetValue := 0; budgetCurrency := [];
     feesWorldValue := 0; feesWorldCurrency := []; feesRussiaValue := 0;
     feesRussiaCurrency := []; feesUsaValue := 0; feesUsaCurrency := [];
     premiereWorld := []; premiereRussia := []; premiereDigital := [];
     premiereCinema := []; releaseYearsStart := 0; releaseYearsEnd := 0;
     top10 := 0; top250 := 0; facts := []; allNamesString := [];
     enName := []; networks := []; networksLinks := [];
     productionCompanies := []; productionCompaniesLinks := [];
     distributor := []; distributorRelease := []; sequelsAndPrequels := [];
     sequelsAndPrequelsLinks := [] |}.


(** Settings with local saving off, and on for the poster only. *)
Definition settingsOff : ImageUtils.Settings :=
  ImageUtils.mkSettings false (js "attachments/kinopoisk") true false false.
Definition settingsOn : ImageUtils.Settings :=
  ImageUtils.mkSettings true (js "attachments/kinopoisk") true false false.

(** A URL parser that accepts what starts with http, a download that saves
    under the folder, and one that throws. *)
Definition URL_parses (u : jsstring) : bool := startsWith (js "http") u.
Definition downloadSaves (u : jsstring) (m : MovieShow) (imageType : string)
    (folder : jsstring) : result jsstring :=
  ret (folder ++ js "/Inception_2010_" ++ js imageType ++ js ".jpg").
Definition downloadThrows (u : jsstring) (m : MovieShow) (imageType : string)
    (folder : jsstring) : result jsstring :=
  raise Thrown.

(** A vault that holds the one note [Inception (2010).md]. *)
Definition vault (path : jsstring) : bool :=
  strEq path (js "Inception (2010).md").
Definition normalizePath (path : jsstring) : jsstring := path.

(** An encoder that throws on arrays of two entries and or else is the plain
    encoder. *)
Definition throwsOnPairs (v : value) : result jsstring :=
  match v with
  | VArray [_; _] => raise Thrown
  | _ => ret (Utils.String_ (Utils.getPlainValueFromArray v))
  end.

End Sample.

(** ** Definitions the statements use *)

(** The entries the filter keeps, said without the filter: the strings that
    are not null and not made of whitespace only. *)
Definition kept (items : list (option jsstring)) : list jsstring :=
  flat_map (fun i => match i with
                     | Some s => if forallb isWhiteSpace s then [] else [s]
                     | None => []
                     end) items.


(** A property is at its empty value: a sequence is empty, a number is 0, a
    boolean is false (a string property is not constrained). *)
Definition emptyOrZero (v : value) : Prop :=
  match v with
  | VArray xs => xs = []
  | VNumber n => n = 0%Z
  | VBoolean b => b = false
  | VString _ => True
  end.

(** The properties that [createMovieShowFrom] fills from required fields of
    the raw record. *)
Definition fromRequiredFields : list string :=
  [ "id"; "name"; "alternativeName"; "year"; "type"; "isSeries";
    "kinopoiskUrl" ]%string.


(** The UTC date of a time value, as the text before the T of
    [toISOString]. *)
Definition isoDate (t : Z) : jsstring :=
  isoYear (YearFromTime t) ++ js "-" ++ padZero 2 (MonthFromTime t)
    ++ js "-" ++ padZero 2 (DateFromTime t).

Definition isDigit (c : N) : bool := inRange 48 57 c.

Definition allDigits (n : nat) (s : jsstring) : bool :=
  (length s =? n)%nat && forallb isDigit s.

(** The shape YYYY-MM-DD: ten code units, digits but for the two hyphens. *)
Definition isYMD (s : jsstring) : bool :=
  allDigits 4 (firstn 4 s)
  && startsWith (js "-") (skipn 4 s)
  && allDigits 2 (firstn 2 (skipn 5 s))
  && startsWith (js "-") (skipn 7 s)
  && allDigits 2 (skipn 8 s).

(** Two entries with one key, and with one value unless the key is that of
    one of the three image links. *)
Definition sameUnlessLinks (kv kv' : string * value) : Prop :=
  fst kv = fst kv'
  /\ (fst kv <> "posterImageLink"%string ->
      fst kv <> "coverImageLink"%string ->
      fst kv <> "logoImageLink"%string ->
      snd kv = snd kv').

(** A text without a left brace. *)
Definition noBrace (s : jsstring) : bool :=
  forallb (fun c => negb (c =? 123)%N) s.

(** The token [{{word}}]. *)
Definition token (word : jsstring) : jsstring :=
  js "{{" ++ word ++ js "}}".

(** Whether a computation returns. *)
Definition returns {A} (c : result A) : bool :=
  match c with inr _ => true | inl _ => false end.


(** ** Utils/imageUtils.ts: the names of the saved images *)

Module ImageFile.

Definition SUPPORTED_EXTENSIONS : list jsstring :=
  map js [ "jpg"; "jpeg"; "png"; "gif"; "webp"; "svg"; "bmp" ]%string.

(** [MIME_TO_EXTENSION_MAP[key]]: the table is an object literal, so the
    lookup also finds the members inherited from [Object.prototype]. *)
Definition MIME_TO_EXTENSION_MAP (key : jsstring) : DataFormatter.property :=
  if strEq key (js "image/jpeg") then DataFormatter.Own (js "jpg")
  else if strEq key (js "image/jpg") then DataFormatter.Own (js "jpg")
  else if strEq key (js "image/png") then DataFormatter.Own (js "png")
  else if strEq key (js "image/gif") then DataFormatter.Own (js "gif")
  else if strEq key (js "image/webp") then DataFormatter.Own (js "webp")
  else if strEq key (js "image/svg+xml") then DataFormatter.Own (js "svg")
  else if strEq key (js "image/bmp") then DataFormatter.Own (js "bmp")
  else if DataFormatter.inheritedMember key then DataFormatter.Inherited
  else DataFormatter.Missing.

(** What [getImageExtension] returns: a string, or the member of
    [Object.prototype] that the MIME type names, which is truthy and no
    string. *)
Inductive extension : Type :=
| Extension (s : jsstring)
| PrototypeMember.

(** [url.split(".").pop()]: the text after the last dot. *)
Definition afterLastDot (url : jsstring) : jsstring :=
  rev (takeWhile (fun c => negb (c =? 46)%N) (rev url)).

Section Host.

Variable toLowerCase : jsstring -> jsstring.

Definition getImageExtension (url : jsstring) (mimeType : option jsstring)
  : extension :=
  let fromUrl :=
    let urlExtension := toLowerCase (afterLastDot url) in
    if negb (isEmpty urlExtension)
       && existsb (strEq urlExtension) SUPPORTED_EXTENSIONS
    then Extension urlExtension
    else Extension (js "jpg") in
  match mimeType with
  | Some (c :: r) =>
      match MIME_TO_EXTENSION_MAP (c :: r) with
      | DataFormatter.Own e => if isEmpty e then fromUrl else Extension e
      | DataFormatter.Inherited => PrototypeMember
      | DataFormatter.Missing => fromUrl
      end
  | _ => fromUrl
  end.

End Host.

Definition createImageFileName (movieShow : MovieShow)
    (imageType extension_ : jsstring) : jsstring :=
  let baseName :=
    nameForFile movieShow ++ js "_" ++ numberToString (year movieShow)
      ++ js "_" ++ imageType in
  let cleanedBaseName :=
    Utils.replaceIllegalFileNameCharactersInString baseName in
  cleanedBaseName ++ js "." ++ extension_.

End ImageFile.

(** The three images of a record, with what [processImages] reads and
    writes for each. *)
Inductive imageKind : Type :=
| Poster
| Cover
| Logo.

Definition enabled (kind : imageKind) (settings : ImageUtils.Settings)
  : bool :=
  match kind with
  | Poster => ImageUtils.savePosterImage settings
  | Cover => ImageUtils.saveCoverImage settings
  | Logo => ImageUtils.saveLogoImage settings
  end.

Definition urlsOf (kind : imageKind) (m : MovieShow) : list jsstring :=
  match kind with
  | Poster => posterUrl m
  | Cover => coverUrl m
  | Logo => logoUrl m
  end.

Definition linkOf (kind : imageKind) (m : MovieShow) : list jsstring :=
  match kind with
  | Poster => posterImageLink m
  | Cover => coverImageLink m
  | Logo => logoImageLink m
  end.

Definition typeName (kind : imageKind) : string :=
  match kind with
  | Poster => "poster"
  | Cover => "cover"
  | Logo => "logo"
  end.

(** ** APIProvider/ApiValidator.ts: tokens and queries *)

Module ApiValidator.

Definition MAX_QUERY_LENGTH : nat := 200.
Definition MIN_TOKEN_LENGTH : nat := 10.
Definition MAX_TOKEN_LENGTH : nat := 100.

(** An argument of type [unknown]: a string or something else. *)
Inductive unknown : Type :=
| UString (s : jsstring)
| UOther.

(** The class of [tokenPattern]: ASCII letters, digits, the hyphen and the
    underscore. *)
Definition tokenChar (c : N) : bool :=
  inRange 65 90 c || inRange 97 122 c || inRange 48 57 c
  || (c =? 45)%N || (c =? 95)%N.

(** [tokenPattern.test(s)]: the class one or more times, from the start of
    the text to its end. *)
Definition tokenPattern (s : jsstring) : bool :=
  negb (isEmpty s) && forallb tokenChar s.

Definition isValidToken (token : unknown) : bool :=
  match token with
  | UOther => false
  | UString token_ =>
      let trimmedToken := trim token_ in
      if isEmpty trimmedToken then false
      else if (length trimmedToken <? MIN_TOKEN_LENGTH)%nat
              || (MAX_TOKEN_LENGTH <? length trimmedToken)%nat
      then false
      else if negb (tokenPattern trimmedToken) then false
      else true
  end.

(** [s.substring(0, n)] *)
Definition substring0 (n : nat) (s : jsstring) : jsstring := firstn n s.

Definition sanitizeQuery (query : jsstring) : jsstring :=
  substring0 MAX_QUERY_LENGTH
    (replaceAll (oneOf (fun c => (c =? 60)%N || (c =? 62)%N)) []
       (replaceAll whitespaceRun (js " ") (trim query))).

Definition sanitizeToken (token : jsstring) : jsstring :=
  substring0 MAX_TOKEN_LENGTH
    (replaceAll (oneOf (fun c => negb (tokenChar c))) [] (trim token)).

End ApiValidator.

(** A text without an angle bracket. *)
Definition noAngle (s : jsstring) : bool :=
  forallb (fun c => negb ((c =? 60)%N || (c =? 62)%N)) s.

(** The record of [Sample.inception] with a distributor release that is no
    date. *)
Definition inceptionDistributed : KinopoiskFullInfo.t :=
  KinopoiskFullInfo.mk 447301 (js "Inception") (js "Inception") (js "movie")
    2010 None None [] [] [] None None None false
    None None None None None None None None None None None None None None
    None None None None None None None None None None None
    (Some (KinopoiskDistributors.mk None (Some (js "autumn 2010: ")))).

(** ** More definitions the statements use *)

(** The episodes of all seasons together. *)
Definition totalEpisodes (seasons : list KinopoiskSeasonInfo.t) : Z :=
  fold_right (fun season total =>
                (KinopoiskSeasonInfo.episodesCount season + total)%Z)
             0%Z seasons.

(** The names, in the order of the source, of the persons that have a name
    and the given profession tag. *)
Definition credited (profession : string) (persons : list KinopoiskPerson.t)
  : list jsstring :=
  map KinopoiskPerson.name
    (filter (fun p => negb (isEmpty (KinopoiskPerson.name p))
                      && strEq (KinopoiskPerson.enProfession p) (js profession))
            persons).

(** A text without a colon. *)
Definition noColon (s : jsstring) : bool :=
  forallb (fun c => negb (c =? 58)%N) s.

(** A text that neither starts nor ends with whitespace. *)
Definition trimmed (s : jsstring) : Prop :=
  match s with
  | [] => True
  | c :: r => isWhiteSpace c = false /\ isWhiteSpace (last (c :: r) 0%N) = false
  end.

(** A text whose whitespace is single spaces: every whitespace code unit is
    U+0020 and is followed by a code unit that is not whitespace, or by the
    end. *)
Fixpoint singleSpaced (s : jsstring) : bool :=
  match s with
  | [] => true
  | c :: r =>
      (negb (isWhiteSpace c)
       || ((c =? 32)%N
           && match r with
              | d :: _ => negb (isWhiteSpace d)
              | [] => true
              end))
      && singleSpaced r
  end.

(** The sequences of a record have at most [n] entries. *)
Definition sequencesAtMost (n : nat) (m : MovieShow) : Prop :=
  Forall (fun kv => match snd kv with
                    | VArray xs => (length xs <= n)%nat
                    | _ => True
                    end) (entries m).

(** A text without a dollar sign. *)
Fixpoint noDollar (s : jsstring) : bool :=
  match s with
  | [] => true
  | c :: r => negb (c =? 36)%N && noDollar r
  end.

(** The replace of the long format that turns every run of whitespace into
    one space. *)
Definition collapse (s : jsstring) : jsstring :=
  replaceAll whitespaceRun (js " ") s.


(** Every double quote of the text stands after a backslash; [prev] is the
    code unit before the text. *)
Fixpoint quotesEscaped (prev : N) (s : jsstring) : bool :=
  match s with
  | [] => true
  | c :: r => (negb (c =? DQ)%N || (prev =? 92)%N) && quotesEscaped c r
  end.

(** A text without a less-than sign and without an ampersand. *)
Definition noMarkup (s : jsstring) : bool :=
  forallb (fun c => negb (c =? 60)%N && negb (c =? 38)%N) s.

(** A text without any of the characters a file name may not hold. *)
Definition legalFileName (s : jsstring) : bool :=
  forallb (fun c => negb (Utils.illegalFileNameCharacter c)) s.

(** Two texts of one length that differ in the case of ASCII letters
    only. *)
Definition sameIgnoringCase (a b : jsstring) : bool :=
  (length a =? length b)%nat && prefixBy eqIgnoreCase a b.

(** A text that starts with a code unit that is not whitespace. *)
Definition startsWithText (s : jsstring) : bool :=
  match s with
  | c :: _ => negb (isWhiteSpace c)
  | [] => false
  end.

(** A text in which no line starts with three hyphens, the first line
    apart. *)
Fixpoint noDelimiter (s : jsstring) : bool :=
  match s with
  | [] => true
  | _ :: r => negb (startsWith (LF :: js "---") s) && noDelimiter r
  end.

(** A template with its header block between the two delimiter lines. *)
Definition assembled (frontmatter body : jsstring) : jsstring :=
  js "---" ++ [LF] ++ frontmatter ++ [LF] ++ js "---" ++ [LF] ++ body.

(** An entry as a quoted wiki link. *)
Definition quotedWikiLink (s : jsstring) : jsstring :=
  [DQ] ++ js "[[" ++ s ++ js "]]" ++ [DQ].

(** The plain sequences of a record that have a sequence of links, each
    with its links. *)
Definition linkedSequences (m : MovieShow)
  : list (list jsstring * list jsstring) :=
  [ (genres m, genresLinks m); (countries m, countriesLinks m);
    (director m, directorsLinks m); (actors m, actorsLinks m);
    (writers m, writersLinks m); (producers m, producersLinks m);
    (networks m, networksLinks m);
    (productionCompanies m, productionCompaniesLinks m);
    (sequelsAndPrequels m, sequelsAndPrequelsLinks m) ].

(* ================================================================== *)
(** * Part II: properties *)
(* ================================================================== *)

(** ** Helper facts on strings and scans *)

Lemma dropWhile_nil_iff {A} (p : A -> bool) (l : list A) :
  dropWhile p l = [] <-> forallb p l = true.
Proof.
  induction l as [|x r IH]; simpl.
  - tauto.
  - destruct (p x); simpl; [exact IH | split; discriminate].
Qed.

Lemma dropWhile_app_stop {A} (p : A -> bool) (l : list A) (x : A) :
  p x = false -> dropWhile p (l ++ [x]) <> [].
Proof.
  intros Hx. induction l as [|y r IH]; simpl.
  - rewrite Hx. discriminate.
  - destruct (p y); [exact IH | discriminate].
Qed.

(** A string trims to the empty string exactly when it is all whitespace. *)
Lemma trim_empty_iff (s : jsstring) :
  isEmpty (trim s) = true <-> forallb isWhiteSpace s = true.
Proof.
  unfold trim, trimEnd, trimStart.
  destruct (dropWhile isWhiteSpace s) as [|c r] eqn:E.
  - simpl. split; [intros _; now apply dropWhile_nil_iff | reflexivity].
  - assert (Hc : isWhiteSpace c = false).
    { clear -E. induction s as [|x s IH]; simpl in E; [discriminate|].
      destruct (isWhiteSpace x) eqn:Hx; [now apply IH|].
      now injection E as -> _. }
    split.
    + intros H. exfalso.
      destruct (rev (dropWhile isWhiteSpace (rev (c :: r)))) eqn:E2;
        [|discriminate].
      apply (f_equal (@rev N)) in E2. rewrite rev_involutive in E2.
      simpl in E2.
      revert E2. revert Hc. clear.
      intros Hc.
      induction (rev r) as [|y l IH]; simpl.
      * rewrite Hc. discriminate.
      * destruct (isWhiteSpace y); [exact IH | discriminate].
    + intros H. apply dropWhile_nil_iff in H. congruence.
Qed.

Lemma present_false_iff (i : option jsstring) :
  DataFormatter.present i = false <->
  i = None \/ exists s, i = Some s /\ forallb isWhiteSpace s = true.
Proof.
  destruct i as [s|]; simpl.
  - split.
    + intros H. right. exists s. split; [reflexivity|].
      destruct s as [|c r]; [reflexivity|]. simpl in H.
      apply negb_false_iff in H. now apply trim_empty_iff.
    + intros [H|[s' [[= <-] H]]]; [discriminate|].
      apply trim_empty_iff in H. rewrite H. apply andb_false_r.
  - split; [now left | reflexivity].
Qed.

Lemma slice0_length {A} (n : Z) (xs : list A) :
  (0 <= n)%Z -> (Z.of_nat (length (slice0 n xs)) <= n)%Z.
Proof.
  intros Hn. unfold slice0.
  destruct (0 <=? n)%Z eqn:E; [|lia].
  rewrite length_firstn. lia.
Qed.

(** ** Array formatting *)

Section FormatArray.

Import DataFormatter.

Lemma strings_filter_present (items : list (option jsstring)) :
  strings (filter present items) = kept items.
Proof.
  induction items as [|i r IH]; [reflexivity|].
  simpl. destruct (present i) eqn:E.
  - destruct i as [s|]; [|discriminate]. simpl.
    destruct (forallb isWhiteSpace s) eqn:W.
    + exfalso. assert (present (Some s) = false); [|congruence].
      apply present_false_iff. right. now exists s.
    + simpl. now rewrite <- IH.
  - apply present_false_iff in E. destruct E as [->|[s [-> W]]].
    + exact IH.
    + simpl. rewrite W. exact IH.
Qed.

Lemma kept_blank (items : list (option jsstring)) :
  (forall i, In i items ->
     i = None \/ exists s, i = Some s /\ forallb isWhiteSpace s = true) ->
  kept items = [].
Proof.
  induction items as [|i r IH]; intros H; [reflexivity|].
  simpl. rewrite IH by (intros j Hj; apply H; now right).
  destruct (H i (or_introl eq_refl)) as [->|[s [-> W]]]; simpl.
  - reflexivity.
  - now rewrite W.
Qed.

Lemma formatArrayMax_kept items formatType maxItems :
  formatArrayMax items formatType maxItems
  = map (formatItem formatType) (slice0 maxItems (kept items)).
Proof. unfold formatArrayMax. now rewrite strings_filter_present. Qed.

Lemma slice0_nil {A} (n : Z) : slice0 n (@nil A) = [].
Proof. unfold slice0. destruct (0 <=? n)%Z; apply firstn_nil. Qed.

Lemma processFacts_length (fs : list KinopoiskFact.t) :
  (length (processFacts fs) <= 5)%nat.
Proof.
  unfold processFacts. rewrite length_map.
  match goal with
  | |- (length (slice0 ?n ?l) <= _)%nat =>
      pose proof (slice0_length n l) as H
  end.
  unfold MAX_FACTS_COUNT in *. specialize (H ltac:(lia)). lia.
Qed.

Lemma kept_length (items : list (option jsstring)) :
  (length (kept items) <= length items)%nat.
Proof.
  induction items as [|i r IH]; simpl; [lia|].
  rewrite length_app.
  destruct i as [s|]; simpl; [destruct (forallb isWhiteSpace s)|]; simpl; lia.
Qed.

Lemma slice0_length_le {A} (n : Z) (xs : list A) :
  (length (slice0 n xs) <= length xs)%nat.
Proof.
  unfold slice0. destruct (0 <=? n)%Z; rewrite length_firstn; lia.
Qed.

(** C4.  [formatArray] maps the format over the entries that are neither
    null nor blank, cut to the first [maxItems] of them.  Hence its output
    has at most [maxItems] entries: at most 15 under the default, and at most
    5 for the facts, which [processFacts] has cut to 5 before they are
    formatted; and the output is empty when every entry is null, empty or
    whitespace. *)
Theorem formatArray_at_most_maxItems
    (items : list (option jsstring)) (formatType : FormatType)
    (maxItems : Z) :
  (0 <= maxItems)%Z ->
  formatArrayMax items formatType maxItems
    = map (formatItem formatType) (slice0 maxItems (kept items))
  /\ (Z.of_nat (length (formatArrayMax items formatType maxItems))
      <= maxItems)%Z
  /\ (length (formatArray items formatType) <= 15)%nat
  /\ (forall fs : list KinopoiskFact.t,
        length (formatArray (map Some (processFacts fs)) LONG_TEXT) <= 5)%nat
  /\ ((forall i, In i items ->
         i = None \/ exists s, i = Some s /\ forallb isWhiteSpace s = true) ->
      formatArrayMax items formatType maxItems = []).
Proof.
  intros Hmax. split; [apply formatArrayMax_kept|].
  split.
  { rewrite formatArrayMax_kept, length_map. now apply slice0_length. }
  split.
  { unfold formatArray. rewrite formatArrayMax_kept, length_map.
    pose proof (slice0_length MAX_ARRAY_ITEMS (kept items)) as H.
    unfold MAX_ARRAY_ITEMS in *. specialize (H ltac:(lia)). lia. }
  split.
  { intros fs. unfold formatArray.
    rewrite formatArrayMax_kept, length_map.
    pose proof (slice0_length_le MAX_ARRAY_ITEMS (kept (map Some (processFacts fs)))).
    pose proof (kept_length (map Some (processFacts fs))) as H1.
    rewrite length_map in H1.
    pose proof (processFacts_length fs). lia. }
  intros Hblank. rewrite formatArrayMax_kept, kept_blank by exact Hblank.
  now rewrite slice0_nil.
Qed.

Lemma formatArray_at_most_maxItems_witness :
  (0 <= 2)%Z
  /\ (Z.of_nat (length (formatArrayMax
                          [Some (js "a:b"); None; Some (js "  "); Some (js "c");
                           Some (js "d")] LINK 2)) <= 2)%Z.
Proof.
  split; [lia|].
  apply (formatArray_at_most_maxItems
           [Some (js "a:b"); None; Some (js "  "); Some (js "c"); Some (js "d")]
           LINK 2).
  lia.
Defined.

End FormatArray.

(** ** Image links *)

Section ImageLinks.

Lemma takeWhile_app_stop {A} (p : A -> bool) (l r : list A) (x : A) :
  forallb p l = true -> p x = false -> takeWhile p (l ++ x :: r) = l.
Proof.
  intros Hl Hx. induction l as [|y l IH]; simpl in *.
  - now rewrite Hx.
  - apply andb_true_iff in Hl as [Hy Hl]. rewrite Hy. f_equal. now apply IH.
Qed.


Lemma forallb_rev {A} (p : A -> bool) (l : list A) :
  forallb p (rev l) = forallb p l.
Proof.
  induction l as [|y l IH]; simpl; [reflexivity|].
  rewrite forallb_app, IH. simpl. rewrite andb_true_r. apply andb_comm.
Qed.



Lemma blank_cases (s : jsstring) :
  isEmpty s || isEmpty (trim s) = forallb isWhiteSpace s.
Proof.
  destruct (forallb isWhiteSpace s) eqn:W.
  - apply trim_empty_iff in W. rewrite W. apply orb_true_r.
  - destruct s as [|c r]; [discriminate|]. simpl.
    destruct (isEmpty (trim (c :: r))) eqn:E; [|reflexivity].
    apply trim_empty_iff in E. congruence.
Qed.




End ImageLinks.

(** ** Normalisation of a record without optional fields *)

Lemma trim_fixed (c d : N) (s : jsstring) :
  isWhiteSpace c = false -> isWhiteSpace d = false ->
  trim (c :: s ++ [d]) = c :: s ++ [d].
Proof.
  intros Hc Hd. unfold trim, trimStart, trimEnd.
  cbn [dropWhile]. rewrite Hc.
  change (c :: s ++ [d]) with ((c :: s) ++ [d]).
  rewrite rev_unit. cbn [dropWhile]. rewrite Hd.
  change (rev (d :: rev (c :: s))) with (rev (rev (c :: s)) ++ [d]).
  now rewrite rev_involutive.
Qed.

Lemma formatArray_url (c d : N) (s : jsstring) :
  isWhiteSpace c = false -> isWhiteSpace d = false ->
  DataFormatter.formatArray [Some (c :: s ++ [d])] DataFormatter.URL
  = [c :: s ++ [d]].
Proof.
  intros Hc Hd.
  unfold DataFormatter.formatArray, DataFormatter.formatArrayMax.
  simpl filter. unfold DataFormatter.present.
  rewrite (trim_fixed c d s Hc Hd). simpl. now rewrite (trim_fixed c d s Hc Hd).
Qed.

Lemma translateType_returns (type : jsstring) :
  DataFormatter.inheritedMember type = false ->
  exists translated, DataFormatter.translateType type = Some translated.
Proof.
  intros H. unfold DataFormatter.translateType, DataFormatter.TYPE_TRANSLATIONS.
  rewrite H.
  repeat match goal with
         | |- context [if strEq ?a ?b then _ else _] => destruct (strEq a b)
         end; eexists; reflexivity.
Qed.

Section Minimal.

Variable toUpperCase : jsstring -> jsstring.
Variable Date_parse : jsstring -> option Z.
Variable LocalTZA : Z -> Z.

Let createMovieShowFrom :=
  DataFormatter.createMovieShowFrom toUpperCase Date_parse LocalTZA.

(** C1, as the code has it.  On a raw record without any optional field and
    with empty lists, whose type does not name a member that objects inherit,
    [createMovieShowFrom] returns a record in which every sequence is empty,
    every number 0 and every boolean false, but for the seven properties
    filled from required fields: [id], [year] and [isSeries] are those of the
    raw record, [name], [alternativeName] and [type] are the formatted name,
    alternative name and translated type, and [kinopoiskUrl] is the one
    address built from the id. *)
Theorem createMovieShowFrom_minimal
    (id_ : Z) (name_ alternativeName_ type_ : jsstring) (year_ : Z)
    (isSeries_ : bool) :
  DataFormatter.inheritedMember type_ = false ->
  exists (m : MovieShow) (translated : jsstring),
    createMovieShowFrom
      (withoutOptionalFields id_ name_ alternativeName_ type_ year_ isSeries_)
      = inr m
    /\ DataFormatter.translateType type_ = Some translated
    /\ Forall (fun kv => In (fst kv) fromRequiredFields
                         \/ emptyOrZero (snd kv)) (entries m)
    /\ id m = id_ /\ year m = year_ /\ isSeries m = isSeries_
    /\ name m = DataFormatter.formatArray [Some name_] DataFormatter.SHORT_VALUE
    /\ alternativeName m
       = DataFormatter.formatArray [Some alternativeName_]
           DataFormatter.SHORT_VALUE
    /\ type m
       = DataFormatter.formatArray [Some translated] DataFormatter.SHORT_VALUE
    /\ kinopoiskUrl m
       = [js "https://www.kinopoisk.ru/film/" ++ numberToString id_ ++ js "/"].
Proof.
  intros Hty. destruct (translateType_returns type_ Hty) as [translated Htr].
  unfold createMovieShowFrom, DataFormatter.createMovieShowFrom.
  cbn [KinopoiskFullInfo.type withoutOptionalFields]. rewrite Htr.
  eexists. exists translated. split; [reflexivity|].
  split; [reflexivity|].
  split.
  { unfold entries.
    repeat (apply Forall_cons;
            [first [right; reflexivity | left; simpl; tauto]|]).
    apply Forall_nil. }
  repeat (split; [reflexivity|]).
  cbn -[DataFormatter.formatArray numberToString js app].
  change (js "https://www.kinopoisk.ru/film/" ++ numberToString id_ ++ js "/")
    with (104%N :: (js "ttps://www.kinopoisk.ru/film/" ++ numberToString id_)
                     ++ [47%N]).
  apply formatArray_url; reflexivity.
Qed.

End Minimal.

Lemma createMovieShowFrom_minimal_witness :
  DataFormatter.inheritedMember (js "movie") = false
  /\ exists m translated,
       DataFormatter.createMovieShowFrom Sample.toUpperCase Sample.Date_parse
         Sample.UTC Sample.inception = inr m
       /\ DataFormatter.translateType (js "movie") = Some translated
       /\ Forall (fun kv => In (fst kv) fromRequiredFields
                            \/ emptyOrZero (snd kv)) (entries m)
       /\ id m = 447301%Z /\ year m = 2010%Z /\ isSeries m = false
       /\ name m = DataFormatter.formatArray [Some (js "Inception")]
                     DataFormatter.SHORT_VALUE
       /\ alternativeName m
          = DataFormatter.formatArray [Some (js "Inception")]
              DataFormatter.SHORT_VALUE
       /\ type m = DataFormatter.formatArray [Some translated]
                     DataFormatter.SHORT_VALUE
       /\ kinopoiskUrl m
          = [js "https://www.kinopoisk.ru/film/" ++ numberToString 447301
               ++ js "/"].
Proof.
  split; [reflexivity|].
  apply (createMovieShowFrom_minimal Sample.toUpperCase Sample.Date_parse
           Sample.UTC 447301 (js "Inception") (js "Inception") (js "movie")
           2010 false).
  reflexivity.
Defined.

(** C1 as stated fails: the record of a film without optional fields has a
    name, a type, an address, an id and a year. *)
Lemma createMovieShowFrom_minimal_not_all_empty :
  exists m,
    DataFormatter.createMovieShowFrom Sample.toUpperCase Sample.Date_parse
      Sample.UTC Sample.inception = inr m
    /\ name m = [js "Inception"]
    /\ kinopoiskUrl m = [js "https://www.kinopoisk.ru/film/447301/"]
    /\ id m = 447301%Z
    /\ ~ Forall (fun kv => emptyOrZero (snd kv)) (entries m).
Proof.
  eexists. split; [reflexivity|].
  split; [reflexivity|]. split; [reflexivity|]. split; [reflexivity|].
  intros H. inversion H as [|kv l Hid _]. simpl in Hid. discriminate.
Qed.

(** A type that names an inherited member makes the formatter throw. *)
Remark createMovieShowFrom_inherited_type :
  DataFormatter.createMovieShowFrom Sample.toUpperCase Sample.Date_parse
    Sample.UTC
    (withoutOptionalFields 1 (js "A") (js "A") (js "constructor") 2000 false)
  = inl TypeError.
Proof. reflexivity. Qed.

(** ** Capitalisation of the genres *)

Lemma In_firstn {A} (n : nat) (xs : list A) (x : A) :
  In x (firstn n xs) -> In x xs.
Proof.
  revert xs. induction n as [|n IH]; intros [|y xs]; simpl; try tauto.
  intros [->|H]; [now left | right; now apply IH].
Qed.

Lemma In_slice0 {A} (n : Z) (xs : list A) (x : A) :
  In x (slice0 n xs) -> In x xs.
Proof. unfold slice0. destruct (0 <=? n)%Z; apply In_firstn. Qed.




Section Genres.

Variable toUpperCase : jsstring -> jsstring.
Variable Date_parse : jsstring -> option Z.
Variable LocalTZA : Z -> Z.




End Genres.


(** ** Dates *)

Section Calendar.

Local Open Scope Z_scope.

(** Month and day of the calendar are in range, and the year lies in the
    four centuries of its era. *)
Lemma civilFromDays_bounds (days : Z) :
  let '(y, m, d) := civilFromDays days in
  let era := (days + 719468) / 146097 in
  1 <= m <= 12 /\ 1 <= d <= 31 /\ 400 * era <= y <= 400 * era + 400.
Proof.
  unfold civilFromDays.
  set (z := days + 719468).
  set (era := z / 146097).
  set (doe := z - era * 146097).
  assert (Hdoe : 0 <= doe <= 146096).
  { unfold doe, era. pose proof (Z.div_mod z 146097 ltac:(lia)).
    pose proof (Z.mod_pos_bound z 146097 ltac:(lia)). lia. }
  clearbody doe. clearbody era. clear z.
  set (yoe := (doe - doe / 1460 + doe / 36524 - doe / 146096) / 365).
  assert (Hyoe : 0 <= yoe <= 399).
  { unfold yoe. Z.div_mod_to_equations; lia. }
  set (doy := doe - (365 * yoe + yoe / 4 - yoe / 100)).
  assert (Hdoy : 0 <= doy <= 365).
  { unfold doy, yoe. Z.div_mod_to_equations; lia. }
  clearbody doy. clearbody yoe.
  set (mp := (5 * doy + 2) / 153).
  assert (Hmp : 0 <= mp <= 11).
  { unfold mp. Z.div_mod_to_equations; lia. }
  assert (Hd : 1 <= doy - (153 * mp + 2) / 5 + 1 <= 31).
  { unfold mp. Z.div_mod_to_equations; lia. }
  clearbody mp.
  destruct (mp <? 10) eqn:E1.
  - apply Z.ltb_lt in E1. destruct (mp + 3 <=? 2) eqn:E2.
    + apply Z.leb_le in E2. lia.
    + lia.
  - apply Z.ltb_ge in E1. destruct (mp - 9 <=? 2) eqn:E2.
    + lia.
    + apply Z.leb_gt in E2. lia.
Qed.

Lemma month_date_bounds (t : Z) :
  1 <= MonthFromTime t <= 12 /\ 1 <= DateFromTime t <= 31.
Proof.
  unfold MonthFromTime, DateFromTime.
  pose proof (civilFromDays_bounds (Day t)) as H.
  destruct (civilFromDays (Day t)) as [[y m] d]. cbn [fst snd] in *. tauto.
Qed.

(** A year 1800..2100 of the local time leaves the UTC year in four
    digits when local time and UTC are less than a day apart. *)
Lemma utc_year_four_digits (t offset : Z) :
  - msPerDay < offset < msPerDay ->
  1800 <= YearFromTime (t + offset) <= 2100 ->
  0 <= YearFromTime t <= 9999.
Proof.
  unfold YearFromTime, Day, msPerDay. intros Hoff Hy.
  pose proof (civilFromDays_bounds ((t + offset) / 86400000)) as HL.
  pose proof (civilFromDays_bounds (t / 86400000)) as HU.
  destruct (civilFromDays ((t + offset) / 86400000)) as [[yl ml] dl].
  destruct (civilFromDays (t / 86400000)) as [[yu mu] du].
  cbn [fst snd] in *.
  destruct HL as [_ [_ HL]]. destruct HU as [_ [_ HU]].
  assert (D : t / 86400000 - 1 <= (t + offset) / 86400000
              <= t / 86400000 + 1).
  { Z.div_mod_to_equations. lia. }
  set (a := t / 86400000) in *. set (b := (t + offset) / 86400000) in *.
  clearbody a b.
  assert (E : 4 <= (b + 719468) / 146097 <= 5) by lia.
  assert (F : 3 <= (a + 719468) / 146097 <= 6).
  { Z.div_mod_to_equations. lia. }
  lia.
Qed.

Lemma range_check (P : Z -> bool) (n : Z) :
  forallb P (map Z.of_nat (seq 0 (Z.to_nat n))) = true ->
  forall z, 0 <= z < n -> P z = true.
Proof.
  intros H z Hz. rewrite forallb_forall in H. apply H.
  apply in_map_iff. exists (Z.to_nat z). split; [lia|].
  apply in_seq. lia.
Qed.

Lemma padZero_four (y : Z) :
  0 <= y <= 9999 -> allDigits 4 (padZero 4 y) = true.
Proof.
  intros H.
  apply (range_check (fun y => allDigits 4 (padZero 4 y)) 10000); [|lia].
  vm_compute. reflexivity.
Qed.

Lemma padZero_two (n : Z) :
  0 <= n <= 99 -> allDigits 2 (padZero 2 n) = true.
Proof.
  intros H.
  apply (range_check (fun n => allDigits 2 (padZero 2 n)) 100); [|lia].
  vm_compute. reflexivity.
Qed.

End Calendar.

Lemma allDigits_length (n : nat) (s : jsstring) :
  allDigits n s = true -> length s = n /\ forallb isDigit s = true.
Proof.
  unfold allDigits. intros H. apply andb_true_iff in H as [H1 H2].
  apply Nat.eqb_eq in H1. now split.
Qed.

Lemma beforeFirstT_digits (s rest : jsstring) :
  forallb (fun c => isDigit c || (c =? 45)%N) s = true ->
  beforeFirstT (s ++ 84%N :: rest) = s.
Proof.
  intros H. unfold beforeFirstT. apply takeWhile_app_stop; [|reflexivity].
  rewrite forallb_forall in *. intros c Hc. specialize (H c Hc).
  unfold isDigit, inRange in H.
  destruct (c =? 84)%N eqn:E; [|reflexivity].
  apply N.eqb_eq in E. subst c. discriminate H.
Qed.

Lemma isoDate_shape (t : Z) :
  (0 <= YearFromTime t <= 9999)%Z ->
  isYMD (isoDate t) = true
  /\ forallb (fun c => isDigit c || (c =? 45)%N) (isoDate t) = true.
Proof.
  intros Hy. unfold isoDate, isoYear.
  replace ((0 <=? YearFromTime t)%Z && (YearFromTime t <=? 9999)%Z) with true
    by (symmetry; apply andb_true_iff; split; apply Z.leb_le; lia).
  destruct (month_date_bounds t) as [Hm Hd].
  pose proof (padZero_four _ Hy) as H4.
  pose proof (padZero_two (MonthFromTime t) ltac:(lia)) as Hm2.
  pose proof (padZero_two (DateFromTime t) ltac:(lia)) as Hd2.
  destruct (padZero 4 (YearFromTime t)) as [|y1 [|y2 [|y3 [|y4 [|? ?]]]]];
    try discriminate H4.
  destruct (padZero 2 (MonthFromTime t)) as [|m1 [|m2 [|? ?]]];
    try discriminate Hm2.
  destruct (padZero 2 (DateFromTime t)) as [|d1 [|d2 [|? ?]]];
    try discriminate Hd2.
  unfold allDigits in *. simpl in *.
  repeat match goal with
         | H : (_ && _)%bool = true |- _ => apply andb_true_iff in H as [? ?]
         end.
  unfold isYMD, allDigits. simpl.
  repeat match goal with
         | H : isDigit ?c = true |- _ => rewrite H; clear H
         end.
  split; reflexivity.
Qed.

Lemma toISOString_split (t : Z) :
  exists rest, toISOString t = isoDate t ++ 84%N :: rest.
Proof.
  unfold toISOString, isoDate. eexists.
  repeat rewrite <- app_assoc. reflexivity.
Qed.

Section FormatDate.

Variable Date_parse : jsstring -> option Z.
Variable LocalTZA : Z -> Z.

(** Local time and UTC are less than a day apart. *)
Hypothesis LocalTZA_bound :
  forall t, (- msPerDay < LocalTZA t < msPerDay)%Z.

Let formatDate := DataFormatter.formatDate Date_parse LocalTZA.
Let getFullYear := DataFormatter.getFullYear LocalTZA.

(** What [formatDate] computes, on every host: the empty string for an
    absent or empty input, for a string that does not parse, and for a time
    whose local year ([getFullYear]) is below 1800 or above 2100; otherwise
    the UTC date of [toISOString], of the shape YYYY-MM-DD.  The year that is
    tested and the date that is returned are read in two different zones. *)
Theorem formatDate_year_bounds (dateString : option jsstring) :
  (dateString = None \/ dateString = Some [] -> formatDate dateString = [])
  /\ (forall s, dateString = Some s -> Date_parse s = None ->
        formatDate dateString = [])
  /\ (forall s t, dateString = Some s -> Date_parse s = Some t ->
        (getFullYear t < 1800 \/ 2100 < getFullYear t)%Z ->
        formatDate dateString = [])
  /\ (forall s t, dateString = Some s -> s <> [] -> Date_parse s = Some t ->
        (1800 <= getFullYear t <= 2100)%Z ->
        formatDate dateString = isoDate t /\ isYMD (isoDate t) = true)
  /\ (forall s t, dateString = Some s -> s <> [] -> Date_parse s = Some t ->
        getFullYear t = 1800%Z -> formatDate dateString <> [])
  /\ (forall s t, dateString = Some s -> Date_parse s = Some t ->
        getFullYear t = 1799%Z -> formatDate dateString = []).
Proof.
  assert (Hout : forall s t, dateString = Some s -> Date_parse s = Some t ->
            (getFullYear t < 1800 \/ 2100 < getFullYear t)%Z ->
            formatDate dateString = []).
  { intros s t -> Hp Hy. unfold formatDate, DataFormatter.formatDate.
    destruct s as [|c r]; [reflexivity|]. rewrite Hp.
    fold (getFullYear t).
    destruct Hy as [Hy|Hy].
    - apply Z.ltb_lt in Hy. now rewrite Hy.
    - apply Z.ltb_lt in Hy. rewrite Hy. now rewrite orb_true_r. }
  assert (Hin : forall s t, dateString = Some s -> s <> [] ->
            Date_parse s = Some t -> (1800 <= getFullYear t <= 2100)%Z ->
            formatDate dateString = isoDate t /\ isYMD (isoDate t) = true).
  { intros s t -> Hs Hp Hy. unfold formatDate, DataFormatter.formatDate.
    destruct s as [|c r]; [congruence|]. rewrite Hp.
    fold (getFullYear t).
    replace (getFullYear t <? 1800)%Z with false by (symmetry; apply Z.ltb_ge; lia).
    replace (2100 <? getFullYear t)%Z with false by (symmetry; apply Z.ltb_ge; lia).
    simpl orb. cbv iota.
    assert (Hutc : (0 <= YearFromTime t <= 9999)%Z).
    { apply (utc_year_four_digits t (LocalTZA t)); [apply LocalTZA_bound|].
      exact Hy. }
    destruct (isoDate_shape t Hutc) as [Hshape Hchars].
    destruct (toISOString_split t) as [rest ->].
    split; [|exact Hshape].
    now apply beforeFirstT_digits. }
  split.
  { intros [->| ->]; reflexivity. }
  split.
  { intros s -> Hp. unfold formatDate, DataFormatter.formatDate.
    destruct s; [reflexivity|]. now rewrite Hp. }
  split; [exact Hout|]. split; [exact Hin|]. split.
  - intros s t Hs Hne Hp Hy.
    destruct (Hin s t Hs Hne Hp ltac:(lia)) as [-> Hshape].
    intros E. rewrite E in Hshape. discriminate Hshape.
  - intros s t Hs Hp Hy. apply (Hout s t Hs Hp). lia.
Qed.

End FormatDate.

Lemma formatDate_year_bounds_witness :
  (forall t, (- msPerDay < Sample.UTC t < msPerDay)%Z)
  /\ DataFormatter.formatDate Sample.Date_parse Sample.UTC
       (Some (js "1800-01-01")) = js "1800-01-01"
  /\ DataFormatter.formatDate Sample.Date_parse Sample.UTC
       (Some (js "1799-12-31")) = [].
Proof.
  assert (B : forall t, (- msPerDay < Sample.UTC t < msPerDay)%Z).
  { intros t. unfold Sample.UTC, msPerDay. lia. }
  split; [exact B|]. split.
  - destruct (formatDate_year_bounds Sample.Date_parse Sample.UTC B
                (Some (js "1800-01-01"))) as [_ [_ [_ [H _]]]].
    destruct (H (js "1800-01-01") (-5364662400000)%Z eq_refl
                ltac:(discriminate) eq_refl)
      as [-> _]; [vm_compute; split; discriminate | reflexivity].
  - destruct (formatDate_year_bounds Sample.Date_parse Sample.UTC B
                (Some (js "1799-12-31"))) as [_ [_ [_ [_ [_ H]]]]].
    apply (H (js "1799-12-31") (-5364748800000)%Z eq_refl eq_refl).
    reflexivity.
Defined.

(** C8.  [formatDate] does not keep the bounds 1800 and 2100 on the year of
    the date it returns: the year it tests is the one of the local time, the
    date it returns is the one of UTC.  On a host five hours behind UTC the
    first day of 1800 gives the empty string, although a date of the year
    1800 is to be accepted, and the first day of 2101 is returned, although
    a date of a year above 2100 is to give the empty string.  On a host at
    UTC the same two inputs are accepted and refused as the bounds say. *)
Theorem formatDate_zone_slip :
  DataFormatter.formatDate Sample.Date_parse Sample.fiveHoursBehind
    (Some (js "1800-01-01")) = []
  /\ DataFormatter.formatDate Sample.Date_parse Sample.fiveHoursBehind
       (Some (js "2101-01-01")) = js "2101-01-01"
  /\ DataFormatter.getFullYear Sample.fiveHoursBehind (-5364662400000)
     = 1799%Z
  /\ YearFromTime (-5364662400000) = 1800%Z
  /\ Sample.Date_parse (js "1800-01-01") = Some (-5364662400000)%Z
  /\ DataFormatter.formatDate Sample.Date_parse Sample.UTC
       (Some (js "1800-01-01")) = js "1800-01-01"
  /\ DataFormatter.formatDate Sample.Date_parse Sample.UTC
       (Some (js "2101-01-01")) = [].
Proof. repeat split; vm_compute; reflexivity. Qed.

(** ** Image processing *)

Lemma In_sameUnlessLinks (l l' : list (string * value)) key val :
  Forall2 sameUnlessLinks l l' ->
  In (key, val) l ->
  key <> "posterImageLink"%string ->
  key <> "coverImageLink"%string ->
  key <> "logoImageLink"%string ->
  In (key, val) l'.
Proof.
  intros F. induction F as [|[k v] [k' v'] l l' [Hk Hv] F IH]; simpl.
  - tauto.
  - intros [[= -> ->]|Hin] Hp Hc Hl.
    + left. simpl in Hk, Hv. now rewrite <- Hk, <- (Hv Hp Hc Hl).
    + right. now apply IH.
Qed.

Section ProcessImages.

Variable URL_parses : jsstring -> bool.
Variable downloadAndSaveImage :
  jsstring -> MovieShow -> string -> jsstring -> result jsstring.

Let processImages :=
  ImageUtils.processImages URL_parses downloadAndSaveImage.

Lemma set_links_same (m : MovieShow) :
  set_posterImageLink (posterImageLink m)
    (set_coverImageLink (coverImageLink m)
       (set_logoImageLink (logoImageLink m) m)) = m.
Proof. destruct m. reflexivity. Qed.

(** C9.  The record [processImages] returns is its input with at most the
    three image links assigned anew; with local saving disabled it is the
    input itself. *)
Theorem processImages_frame (movieShow : MovieShow)
    (settings : ImageUtils.Settings) :
  (exists poster cover logo,
     processImages movieShow settings
     = set_posterImageLink poster
         (set_coverImageLink cover (set_logoImageLink logo movieShow)))
  /\ (forall key val,
        In (key, val) (entries movieShow) ->
        key <> "posterImageLink"%string ->
        key <> "coverImageLink"%string ->
        key <> "logoImageLink"%string ->
        In (key, val) (entries (processImages movieShow settings)))
  /\ (ImageUtils.saveImagesLocally settings = false ->
      processImages movieShow settings = movieShow).
Proof.
  assert (Hex : exists poster cover logo,
     processImages movieShow settings
     = set_posterImageLink poster
         (set_coverImageLink cover (set_logoImageLink logo movieShow))).
  { unfold processImages, ImageUtils.processImages.
    destruct (negb (ImageUtils.saveImagesLocally settings)).
    { do 3 eexists. symmetry. apply set_links_same. }
    destruct (ImageUtils.countImagesToDownload URL_parses movieShow settings
              =? 0)%Z.
    { do 3 eexists. symmetry. apply set_links_same. }
    exists (match ImageUtils.wanted (ImageUtils.savePosterImage settings)
                    (posterUrl movieShow) with
            | Some u => ImageUtils.linkFor URL_parses downloadAndSaveImage
                          movieShow settings "poster" u
            | None => posterImageLink movieShow
            end).
    exists (match ImageUtils.wanted (ImageUtils.saveCoverImage settings)
                    (coverUrl movieShow) with
            | Some u => ImageUtils.linkFor URL_parses downloadAndSaveImage
                          movieShow settings "cover" u
            | None => coverImageLink movieShow
            end).
    exists (match ImageUtils.wanted (ImageUtils.saveLogoImage settings)
                    (logoUrl movieShow) with
            | Some u => ImageUtils.linkFor URL_parses downloadAndSaveImage
                          movieShow settings "logo" u
            | None => logoImageLink movieShow
            end).
    destruct (ImageUtils.wanted (ImageUtils.savePosterImage settings)
                (posterUrl movieShow)) as [pu|];
    destruct (ImageUtils.wanted (ImageUtils.saveCoverImage settings)
                (coverUrl movieShow)) as [cu|];
    destruct (ImageUtils.wanted (ImageUtils.saveLogoImage settings)
                (logoUrl movieShow)) as [lu|];
    destruct movieShow; reflexivity. }
  split; [exact Hex|]. split.
  - destruct Hex as [p [c [l ->]]]. intros key val Hin Hp Hc Hl.
    destruct movieShow. unfold entries in *.
    cbn [set_posterImageLink set_coverImageLink set_logoImageLink
         id name alternativeName year description
    shortDescription nameForFile alternativeNameForFile enNameForFile
    posterUrl coverUrl logoUrl posterImageLink coverImageLink logoImageLink
    genres genresLinks countries countriesLinks type subType director
    directorsLinks actors actorsLinks writers writersLinks producers
    producersLinks movieLength isSeries seriesLength totalSeriesLength
    isComplete seasonsCount seriesInSeasonCount ratingKp ratingImdb
    ratingFilmCritics ratingRussianFilmCritics votesKp votesImdb
    votesFilmCritics votesRussianFilmCritics kinopoiskUrl imdbId tmdbId
    kpHDId slogan ageRating ratingMpaa budgetValue budgetCurrency
    feesWorldValue feesWorldCurrency feesRussiaValue feesRussiaCurrency
    feesUsaValue feesUsaCurrency premiereWorld premiereRussia premiereDigital
    premiereCinema releaseYearsStart releaseYearsEnd top10 top250 facts
    allNamesString enName networks networksLinks productionCompanies
    productionCompaniesLinks distributor distributorRelease
    sequelsAndPrequels sequelsAndPrequelsLinks] in *.
    refine (In_sameUnlessLinks _ _ key val _ Hin Hp Hc Hl).
    repeat (apply Forall2_cons;
            [split; [reflexivity|];
             intros Hp' Hc' Hl';
             first [ exfalso; apply Hp'; reflexivity
                   | exfalso; apply Hc'; reflexivity
                   | exfalso; apply Hl'; reflexivity
                   | reflexivity ]|]).
    apply Forall2_nil.
  - intros H. unfold processImages, ImageUtils.processImages.
    now rewrite H.
Qed.

End ProcessImages.

Lemma processImages_frame_witness :
  ImageUtils.saveImagesLocally Sample.settingsOff = false
  /\ ImageUtils.processImages Sample.URL_parses Sample.downloadSaves
       Sample.movie Sample.settingsOff = Sample.movie.
Proof.
  split; [reflexivity|].
  apply (processImages_frame Sample.URL_parses Sample.downloadSaves
           Sample.movie Sample.settingsOff).
  reflexivity.
Defined.

(** With local saving on, a download that succeeds puts the local link in
    place of the web link, one that throws leaves the web link. *)
Example processImages_poster :
  posterImageLink (ImageUtils.processImages Sample.URL_parses
                     Sample.downloadSaves Sample.movie Sample.settingsOn)
    = [js "![[Inception_2010_poster.jpg]]"]
  /\ posterImageLink (ImageUtils.processImages Sample.URL_parses
                        Sample.downloadThrows Sample.movie Sample.settingsOn)
    = [js "![](https://img.example/x.jpg)"].
Proof. split; reflexivity. Qed.

(** ** Removal of the unused variables *)

Section Scan.

Variable m : matcher.

(** With an empty replacement the text already passed plays no part. *)
Lemma replaceScan_empty_before (rb rb' : jsstring) (k : nat) (s : jsstring) :
  replaceScan m [] rb k s = replaceScan m [] rb' k s.
Proof.
  revert rb rb' k. induction s as [|c s IH]; intros rb rb' k; [reflexivity|].
  simpl. destruct k as [|k].
  - destruct (m (c :: s)) as [[|n]|]; simpl;
      now rewrite (IH (c :: rb) (c :: rb')).
  - apply IH.
Qed.

Lemma replaceScan_skip (rb : jsstring) (l rest : jsstring) :
  replaceScan m [] rb (length l) (l ++ rest) = replaceScan m [] [] 0 rest.
Proof.
  revert rb. induction l as [|c l IH]; intros rb; simpl.
  - apply replaceScan_empty_before.
  - apply IH.
Qed.

(** A match at the head of the text is deleted and the scan goes on after
    it. *)
Lemma replaceAll_match (l rest : jsstring) :
  l <> [] -> m (l ++ rest) = Some (length l) ->
  replaceAll m [] (l ++ rest) = replaceAll m [] rest.
Proof.
  intros Hl Hm. unfold replaceAll. destruct l as [|c l]; [congruence|].
  simpl app. simpl replaceScan. simpl app in Hm. rewrite Hm. simpl length.
  simpl. apply replaceScan_skip.
Qed.

(** Where the pattern does not match the code unit is copied. *)
Lemma replaceAll_copy (c : N) (s : jsstring) :
  m (c :: s) = None -> replaceAll m [] (c :: s) = c :: replaceAll m [] s.
Proof.
  intros Hm. unfold replaceAll. simpl. rewrite Hm. f_equal.
  apply replaceScan_empty_before.
Qed.

End Scan.

Lemma unusedVariable_token (word after : jsstring) :
  word <> [] -> forallb isWordChar word = true ->
  Utils.unusedVariable (token word ++ after) = Some (length (token word)).
Proof.
  intros Hw Hall. unfold token, Utils.unusedVariable.
  change (js "{{" ++ word ++ js "}}") with (123%N :: 123%N :: word ++ js "}}").
  simpl app. rewrite <- app_assoc. simpl N.eqb. simpl andb. cbv iota.
  change (js "}}" ++ after) with (125%N :: 125%N :: after).
  rewrite takeWhile_app_stop by (exact Hall || reflexivity).
  destruct word as [|w word]; [congruence|].
  rewrite skipn_app, skipn_all, Nat.sub_diag. simpl.
  f_equal. rewrite !length_app. simpl. lia.
Qed.

Lemma unusedVariable_no_brace (c : N) (s : jsstring) :
  (c =? 123)%N = false -> Utils.unusedVariable (c :: s) = None.
Proof.
  intros H. unfold Utils.unusedVariable. destruct s; [reflexivity|].
  now rewrite H.
Qed.

(** A token that follows a text without a left brace is deleted. *)
Lemma removeUnusedVariables_token (before word after : jsstring) :
  noBrace before = true -> word <> [] -> forallb isWordChar word = true ->
  Utils.removeUnusedVariables (before ++ token word ++ after)
  = before ++ Utils.removeUnusedVariables after.
Proof.
  intros Hb Hw Hall. unfold Utils.removeUnusedVariables.
  induction before as [|c before IH]; cbn [app].
  - apply (replaceAll_match _ (token word) after).
    + unfold token. simpl. discriminate.
    + now apply unusedVariable_token.
  - simpl in Hb. apply andb_true_iff in Hb as [Hc Hb].
    apply negb_true_iff in Hc.
    rewrite replaceAll_copy by now apply unusedVariable_no_brace.
    f_equal. now apply IH.
Qed.

Lemma removeUnusedVariables_no_brace (s : jsstring) :
  noBrace s = true -> Utils.removeUnusedVariables s = s.
Proof.
  intros Hb. unfold Utils.removeUnusedVariables.
  induction s as [|c s IH]; [reflexivity|].
  simpl in Hb. apply andb_true_iff in Hb as [Hc Hb].
  apply negb_true_iff in Hc.
  rewrite replaceAll_copy by now apply unusedVariable_no_brace.
  f_equal. now apply IH.
Qed.

Lemma takeWhile_app_false {A} (p : A -> bool) (l r : list A) (x : A) :
  p x = false -> takeWhile p (l ++ x :: r) = takeWhile p l.
Proof.
  intros Hx. induction l as [|y l IH]; simpl.
  - now rewrite Hx.
  - destruct (p y); [now rewrite IH | reflexivity].
Qed.

Lemma takeWhile_prefix {A} (p : A -> bool) (l : list A) :
  l = takeWhile p l ++ skipn (length (takeWhile p l)) l.
Proof.
  induction l as [|y l IH]; simpl; [reflexivity|].
  destruct (p y); simpl; [now rewrite <- IH | reflexivity].
Qed.

(** Two left braces after a text do not change what matches at its head. *)
Lemma unusedVariable_local (a rest : jsstring) :
  a <> [] ->
  Utils.unusedVariable (a ++ 123%N :: 123%N :: rest) = Utils.unusedVariable a.
Proof.
  intros Ha. destruct a as [|x [|y r]]; [congruence| |].
  - simpl. destruct (x =? 123)%N; reflexivity.
  - simpl app. unfold Utils.unusedVariable.
    destruct ((x =? 123)%N && (y =? 123)%N); [|reflexivity].
    rewrite takeWhile_app_false by reflexivity.
    set (word := takeWhile isWordChar r).
    destruct word as [|w word'] eqn:E; [reflexivity|].
    rewrite <- E. 
    rewrite (takeWhile_prefix isWordChar r) at 1. fold word.
    rewrite <- app_assoc, skipn_app, skipn_all, Nat.sub_diag. simpl skipn. simpl app.
    destruct (skipn (length word) r) as [|c [|d u]]; simpl; try reflexivity.
    destruct (c =? 125)%N; reflexivity.
Qed.

Lemma unusedVariable_length (a : jsstring) (k : nat) :
  Utils.unusedVariable a = Some k -> (0 < k <= length a)%nat.
Proof.
  unfold Utils.unusedVariable. destruct a as [|x [|y r]]; try discriminate.
  destruct ((x =? 123)%N && (y =? 123)%N); [|discriminate].
  pose proof (takeWhile_prefix isWordChar r) as P.
  destruct (takeWhile isWordChar r) as [|w word]; [discriminate|].
  destruct (skipn (length (w :: word)) r) as [|c [|d u]]; try discriminate.
  destruct ((c =? 125)%N && (d =? 125)%N); [|discriminate].
  intros [= <-]. apply (f_equal (@length N)) in P.
  rewrite length_app in P. simpl in *. lia.
Qed.

Lemma replaceScan_app_local (T a : jsstring) :
  (forall b, b <> [] ->
     Utils.unusedVariable (b ++ T) = Utils.unusedVariable b) ->
  forall (k : nat) (rb : jsstring),
    (k <= length a)%nat ->
    replaceScan Utils.unusedVariable [] rb k (a ++ T)
    = replaceScan Utils.unusedVariable [] rb k a
        ++ replaceScan Utils.unusedVariable [] [] 0 T.
Proof.
  intros HT. induction a as [|c a IH]; intros k rb Hk.
  - simpl in Hk. assert (k = 0)%nat as -> by lia.
    cbn [app replaceScan]. apply replaceScan_empty_before.
  - cbn [app]. cbn [replaceScan]. destruct k as [|k].
    + change (c :: a ++ T) with ((c :: a) ++ T).
      rewrite HT by discriminate.
      destruct (Utils.unusedVariable (c :: a)) as [[|n]|] eqn:E.
      * cbn [app]. f_equal. apply IH. lia.
      * apply unusedVariable_length in E. simpl in E.
        cbn [getSubstitution app]. apply IH. lia.
      * cbn [app]. f_equal. apply IH. lia.
    + apply IH. simpl in Hk. lia.
Qed.

(** Every token is deleted, wherever it stands. *)
Lemma removeUnusedVariables_app_token (before word after : jsstring) :
  word <> [] -> forallb isWordChar word = true ->
  Utils.removeUnusedVariables (before ++ token word ++ after)
  = Utils.removeUnusedVariables before ++ Utils.removeUnusedVariables after.
Proof.
  intros Hw Hall. unfold Utils.removeUnusedVariables, replaceAll.
  rewrite replaceScan_app_local; [| |lia].
  2:{ intros b Hb.
      change (token word ++ after)
        with (123%N :: 123%N :: (word ++ js "}}") ++ after).
      now apply unusedVariable_local. }
  f_equal. apply (replaceAll_match _ (token word) after).
  - unfold token. simpl. discriminate.
  - now apply unusedVariable_token.
Qed.

(** The result of [trim] neither starts nor ends with whitespace. *)
Lemma dropWhile_head {A} (p : A -> bool) (l : list A) (x : A) (r : list A) :
  dropWhile p l = x :: r -> p x = false.
Proof.
  induction l as [|y l IH]; simpl; [discriminate|].
  destruct (p y) eqn:E; [exact IH|]. now intros [= <- _].
Qed.

Lemma dropWhile_last {A} (p : A -> bool) (l : list A) (d : A) :
  p (last l d) = false -> p (last (dropWhile p l) d) = false.
Proof.
  induction l as [|y l IH]; simpl; [auto|].
  destruct l as [|z l].
  - simpl. destruct (p y) eqn:E; simpl; congruence.
  - intros H. destruct (p y); [now apply IH | exact H].
Qed.

Lemma trim_edges (s : jsstring) :
  match trim s with
  | [] => True
  | c :: r => isWhiteSpace c = false /\ isWhiteSpace (last (c :: r) 0%N) = false
  end.
Proof.
  unfold trim, trimEnd, trimStart.
  destruct (dropWhile isWhiteSpace s) as [|a u] eqn:E1.
  - exact I.
  - pose proof (dropWhile_head _ _ _ _ E1) as Ha.
    destruct (dropWhile isWhiteSpace (rev (a :: u))) as [|b v] eqn:E2.
    + exact I.
    + pose proof (dropWhile_head _ _ _ _ E2) as Hb.
      assert (Hl : isWhiteSpace (last (b :: v) 0%N) = false).
      { rewrite <- E2. apply dropWhile_last.
        simpl rev. rewrite last_last. exact Ha. }
      destruct (rev (b :: v)) as [|c r] eqn:E3.
      * exact I.
      * assert (Hc : c = last (b :: v) 0%N).
        { apply (f_equal (@rev N)) in E3. rewrite rev_involutive in E3.
          rewrite E3. simpl. now rewrite last_last. }
        assert (Hr : last (c :: r) 0%N = b).
        { rewrite <- E3. simpl rev. now rewrite last_last. }
        rewrite Hr. subst c. now split.
Qed.

(** ** Template substitution *)

(** C6.  On a template that is not blank the result is the text with all
    fields substituted, in which every remaining token is replaced by the
    empty string, trimmed.  A token, wherever it stands, is deleted, with
    the deletion done on the text before it and on the text after it; a text
    without a left brace is kept; and the result neither starts nor ends
    with whitespace.  A
    template with the token of a field that does not exist is rendered
    without it, whatever the record. *)
Theorem replaceVariableSyntax_removes_unused (movieShow : MovieShow)
    (text : jsstring) :
  isEmpty (trim text) = false ->
  Utils.replaceVariableSyntax (Some movieShow) text
    = inr (trim (Utils.removeUnusedVariables
                   (Utils.substituted movieShow text)))
  /\ (forall before word after,
        word <> [] -> forallb isWordChar word = true ->
        Utils.removeUnusedVariables (before ++ token word ++ after)
        = Utils.removeUnusedVariables before
            ++ Utils.removeUnusedVariables after)
  /\ (forall s, noBrace s = true -> Utils.removeUnusedVariables s = s)
  /\ (forall c r,
        Utils.replaceVariableSyntax (Some movieShow) text = inr (c :: r) ->
        isWhiteSpace c = false /\ isWhiteSpace (last (c :: r) 0%N) = false)
  /\ Utils.replaceVariableSyntax (Some movieShow)
       (js "Rating: {{nonexistentField}}.")
     = inr (js "Rating: .").
Proof.
  intros Htext.
  assert (Heq : Utils.replaceVariableSyntax (Some movieShow) text
    = inr (trim (Utils.removeUnusedVariables
                   (Utils.substituted movieShow text)))).
  { unfold Utils.replaceVariableSyntax, Utils.replaceVariableSyntaxWith,
      Utils.substituted, Utils.substitutedWith.
    rewrite Htext. destruct (Utils.matchFrontmatter text) as [[fm body]|];
      reflexivity. }
  split; [exact Heq|].
  split; [exact removeUnusedVariables_app_token|].
  split; [exact removeUnusedVariables_no_brace|].
  split.
  - rewrite Heq. intros c r [= E].
    pose proof (trim_edges (Utils.removeUnusedVariables
                              (Utils.substituted movieShow text))) as H.
    now rewrite E in H.
  - vm_compute. reflexivity.
Qed.

Lemma replaceVariableSyntax_removes_unused_witness :
  isEmpty (trim (js " Title: {{name}} {{nonexistentField}} ")) = false
  /\ Utils.replaceVariableSyntax (Some Sample.movie)
       (js " Title: {{name}} {{nonexistentField}} ")
     = inr (js "Title: Inception").
Proof.
  split; [reflexivity|].
  destruct (replaceVariableSyntax_removes_unused Sample.movie
              (js " Title: {{name}} {{nonexistentField}} ") eq_refl)
    as [H _].
  rewrite H. reflexivity.
Defined.

(** A token that only the deletion of another one puts together stays. *)
Remark removeUnusedVariables_one_pass :
  Utils.removeUnusedVariables (js "{{{{a}}b}}") = js "{{b}}".
Proof. reflexivity. Qed.

Lemma replaceVariableSyntaxWith_returns
    (quoted plain : value -> result jsstring) (movieShow : option MovieShow)
    (text : jsstring) :
  exists r,
    Utils.replaceVariableSyntaxWith quoted plain movieShow text = inr r.
Proof.
  unfold Utils.replaceVariableSyntaxWith.
  destruct (isEmpty (trim text)); [eexists; reflexivity|].
  destruct movieShow as [m|];
    destruct (Utils.matchFrontmatter text) as [[fm body]|];
    eexists; reflexivity.
Qed.

Section Isolation.

Variable quoted : value -> result jsstring.
Variable plain : value -> result jsstring.

(** The fields whose encoding throws are passed over and all the others
    are substituted. *)
Lemma fold_substitute_skips (encode : value -> result jsstring)
    (es : list (string * value)) (result_ : jsstring) :
  fold_left (Utils.substitute encode) es result_
  = fold_left (Utils.substitute encode)
      (filter (fun kv => returns (encode (snd kv))) es) result_.
Proof.
  revert result_. induction es as [|[k v] es IH]; intros r; [reflexivity|].
  cbn [fold_left filter snd].
  destruct (encode v) as [e|encoded] eqn:E; cbn [returns fold_left].
  - unfold Utils.substitute at 2. cbn [snd]. rewrite E. apply IH.
  - apply IH.
Qed.

(** C5.  [replaceVariableSyntax] returns, whatever the encoders do.  A field
    whose encoding throws leaves the text as it is, its placeholder
    included, and the fields after it are substituted as without it; the
    text so reached then has its stray tokens deleted.  When the
    substitution as a whole throws (the record is absent) the original text
    is returned. *)
Theorem replaceVariableSyntax_never_raises (movieShow : option MovieShow)
    (text : jsstring) :
  (exists r, Utils.replaceVariableSyntaxWith quoted plain movieShow text
             = inr r)
  /\ (exists r, Utils.replaceVariableSyntax movieShow text = inr r)
  /\ (forall encode result_ key val e,
        encode val = inl e ->
        Utils.substitute encode result_ (key, val) = result_)
  /\ (forall encode es result_,
        fold_left (Utils.substitute encode) es result_
        = fold_left (Utils.substitute encode)
            (filter (fun kv => returns (encode (snd kv))) es) result_)
  /\ (forall m, movieShow = Some m -> isEmpty (trim text) = false ->
        Utils.replaceVariableSyntaxWith quoted plain movieShow text
        = inr (trim (Utils.removeUnusedVariables
                       (Utils.substitutedWith quoted plain m text))))
  /\ (movieShow = None -> isEmpty (trim text) = false ->
        Utils.replaceVariableSyntaxWith quoted plain movieShow text
        = inr text).
Proof.
  split; [apply replaceVariableSyntaxWith_returns|].
  split; [apply replaceVariableSyntaxWith_returns|].
  split.
  { intros encode r key val e He. unfold Utils.substitute. simpl.
    now rewrite He. }
  split; [exact fold_substitute_skips|].
  split.
  - intros m -> Ht.
    unfold Utils.replaceVariableSyntaxWith, Utils.substitutedWith.
    rewrite Ht. destruct (Utils.matchFrontmatter text) as [[fm body]|];
      reflexivity.
  - intros -> Ht. unfold Utils.replaceVariableSyntaxWith. rewrite Ht.
    destruct (Utils.matchFrontmatter text) as [[fm body]|]; reflexivity.
Qed.

End Isolation.

Lemma replaceVariableSyntax_never_raises_witness :
  isEmpty (trim (js "G: {{genres}} Y: {{year}}")) = false
  /\ Utils.replaceVariableSyntaxWith Sample.throwsOnPairs Sample.throwsOnPairs
       None (js "G: {{genres}} Y: {{year}}")
     = inr (js "G: {{genres}} Y: {{year}}")
  /\ Utils.replaceVariableSyntaxWith Sample.throwsOnPairs Sample.throwsOnPairs
       (Some Sample.movie) (js "G: {{genres}} Y: {{year}}")
     = inr (js "G:  Y: 2010").
Proof.
  split; [reflexivity|].
  destruct (replaceVariableSyntax_never_raises Sample.throwsOnPairs
              Sample.throwsOnPairs None (js "G: {{genres}} Y: {{year}}"))
    as [_ [_ [_ [_ [_ Hnone]]]]].
  destruct (replaceVariableSyntax_never_raises Sample.throwsOnPairs
              Sample.throwsOnPairs (Some Sample.movie)
              (js "G: {{genres}} Y: {{year}}"))
    as [_ [_ [_ [_ [Hsome _]]]]].
  split.
  - apply Hnone; reflexivity.
  - rewrite (Hsome Sample.movie eq_refl eq_refl). reflexivity.
Defined.

(** ** One field in the header and in the body *)







(** ** File names *)

Section FileNames.

Variable currentLanguage : SupportedLanguage.
Variable getAbstractFileByPath : jsstring -> bool.
Variable normalizePath : jsstring -> jsstring.

Let exists_ := Utils.exists_ getAbstractFileByPath normalizePath.
Let copyFileName := Utils.copyFileName currentLanguage.
Let copyLoop :=
  Utils.copyLoop currentLanguage getAbstractFileByPath normalizePath.
Let makeFileName :=
  Utils.makeFileName currentLanguage getAbstractFileByPath normalizePath.




End FileNames.


(** In Russian the copy word is the one of the Russian catalogue. *)
Example makeFileName_russian :
  Utils.makeFileName ru Sample.vault Sample.normalizePath 1 Sample.movie
    None None
  = Some (js "Inception (2010) (" ++ copyPrefix ru ++ js "[1]).md").
Proof. reflexivity. Qed.

(** A blank cleaned base name is answered with the fallback name, without
    an existence check. *)
Example makeFileName_blank :
  Utils.makeFileName en (fun _ => true) Sample.normalizePath 0 Sample.movie
    (Some (js "???")) None
  = Some (js "Unknown Movie.md").
Proof. reflexivity. Qed.

(* ================================================================== *)
(** * Part III: further properties of the code *)

(** ** Further properties of the formatter *)

Section Seasons.

Import DataFormatter.

Lemma fold_left_episodes (seasons : list KinopoiskSeasonInfo.t) (start : Z) :
  fold_left (fun total season =>
               (total + KinopoiskSeasonInfo.episodesCount season)%Z)
            seasons start
  = (start + totalEpisodes seasons)%Z.
Proof.
  revert start. induction seasons as [|s l IH]; intros start; simpl.
  - lia.
  - rewrite IH. lia.
Qed.

(** X1.  For a season list that is not empty the count is its length and
    the average is the total number of episodes divided by the count and
    rounded up: it is the least integer whose product with the count reaches
    the total. *)
Theorem calculateSeasonsData_ceiling (seasons : list KinopoiskSeasonInfo.t) :
  seasons <> [] ->
  fst (calculateSeasonsData (Some seasons)) = Z.of_nat (length seasons)
  /\ (Z.of_nat (length seasons)
        * (snd (calculateSeasonsData (Some seasons)) - 1)
      < totalEpisodes seasons
      <= Z.of_nat (length seasons)
         * snd (calculateSeasonsData (Some seasons)))%Z.
Proof.
  intros Hne. destruct seasons as [|s l]; [congruence|].
  unfold calculateSeasonsData. cbn [fst snd].
  split; [reflexivity|].
  rewrite fold_left_episodes. unfold ceilDiv.
  set (n := Z.of_nat (length (s :: l))).
  assert (Hn : (0 < n)%Z) by (unfold n; simpl length; lia).
  set (T := (0 + totalEpisodes (s :: l))%Z).
  replace (totalEpisodes (s :: l)) with T by (unfold T; lia).
  clearbody n T.
  pose proof (Z.div_mod (- T) n ltac:(lia)).
  pose proof (Z.mod_pos_bound (- T) n Hn). nia.
Qed.

Lemma calculateSeasonsData_ceiling_witness :
  let seasons := [KinopoiskSeasonInfo.mk 1 10; KinopoiskSeasonInfo.mk 2 10;
                  KinopoiskSeasonInfo.mk 3 11] in
  seasons <> []
  /\ fst (calculateSeasonsData (Some seasons)) = 3%Z
  /\ (3 * (snd (calculateSeasonsData (Some seasons)) - 1) < 31
      <= 3 * snd (calculateSeasonsData (Some seasons)))%Z.
Proof.
  intros seasons. split; [discriminate|].
  apply (calculateSeasonsData_ceiling seasons). discriminate.
Defined.

End Seasons.

Lemma startsWith_length_eq (a b : jsstring) :
  startsWith a b = true -> length a = length b -> a = b.
Proof.
  revert b. induction a as [|x a IH]; intros [|y b]; simpl; try discriminate;
    try reflexivity.
  intros H L. apply andb_true_iff in H as [Hxy H].
  apply N.eqb_eq in Hxy. subst y. f_equal. apply IH; [exact H | lia].
Qed.

Lemma startsWith_refl (a : jsstring) : startsWith a a = true.
Proof.
  induction a as [|x a IH]; simpl; [reflexivity|].
  now rewrite N.eqb_refl, IH.
Qed.

Lemma strEq_eq (a b : jsstring) : strEq a b = true <-> a = b.
Proof.
  unfold strEq. split.
  - intros H. apply andb_true_iff in H as [L H]. apply Nat.eqb_eq in L.
    now apply startsWith_length_eq.
  - intros ->. now rewrite Nat.eqb_refl, startsWith_refl.
Qed.

(** Evaluate the tests on literal texts that a goal holds. *)
Ltac literal_tests :=
  repeat match goal with
         | |- context [strEq (js ?a) (js ?b)] =>
             let v := eval vm_compute in (strEq (js a) (js b)) in
             change (strEq (js a) (js b)) with v
         | |- context [isEmpty (js ?a)] =>
             let v := eval vm_compute in (isEmpty (js a)) in
             change (isEmpty (js a)) with v
         end.

Section People.

Import DataFormatter.

Let step (result : People.t) (person : KinopoiskPerson.t) : People.t :=
  let n := KinopoiskPerson.name person in
  let p := KinopoiskPerson.enProfession person in
  if isEmpty n || isEmpty p then result
  else if strEq p (js "director") then
    People.mk (People.directors result ++ [n]) (People.actors result)
              (People.writers result) (People.producers result)
  else if strEq p (js "actor") then
    People.mk (People.directors result) (People.actors result ++ [n])
              (People.writers result) (People.producers result)
  else if strEq p (js "writer") then
    People.mk (People.directors result) (People.actors result)
              (People.writers result ++ [n]) (People.producers result)
  else if strEq p (js "producer") then
    People.mk (People.directors result) (People.actors result)
              (People.writers result) (People.producers result ++ [n])
  else result.

(** One round of the loop adds the person to the bucket of its tag. *)
Lemma step_credited (start : People.t) (person : KinopoiskPerson.t) :
  step start person
  = People.mk (People.directors start ++ credited "director" [person])
              (People.actors start ++ credited "actor" [person])
              (People.writers start ++ credited "writer" [person])
              (People.producers start ++ credited "producer" [person]).
Proof.
  unfold step, credited. cbn [filter map].
  destruct (isEmpty (KinopoiskPerson.name person)) eqn:En; cbn [negb andb orb].
  { cbn [map]. rewrite !app_nil_r. now destruct start. }
  destruct (strEq (KinopoiskPerson.enProfession person) (js "director"))
    eqn:Ed.
  { apply strEq_eq in Ed. rewrite Ed. literal_tests. reflexivity || (cbn [map]; now rewrite !app_nil_r). }
  destruct (strEq (KinopoiskPerson.enProfession person) (js "actor")) eqn:Ea.
  { apply strEq_eq in Ea. rewrite Ea. literal_tests. cbn [map]. now rewrite !app_nil_r. }
  destruct (strEq (KinopoiskPerson.enProfession person) (js "writer")) eqn:Ew.
  { apply strEq_eq in Ew. rewrite Ew. literal_tests. cbn [map]. now rewrite !app_nil_r. }
  destruct (strEq (KinopoiskPerson.enProfession person) (js "producer"))
    eqn:Ep.
  { apply strEq_eq in Ep. rewrite Ep. literal_tests. cbn [map]. now rewrite !app_nil_r. }
  cbn [map]. rewrite !app_nil_r.
  destruct (isEmpty (KinopoiskPerson.enProfession person)); now destruct start.
Qed.

Lemma credited_cons (tag : string) (person : KinopoiskPerson.t)
    (persons : list KinopoiskPerson.t) :
  credited tag (person :: persons)
  = credited tag [person] ++ credited tag persons.
Proof.
  unfold credited. cbn [filter].
  destruct (negb (isEmpty (KinopoiskPerson.name person))
            && strEq (KinopoiskPerson.enProfession person) (js tag));
    reflexivity.
Qed.

Lemma extractPeople_from (persons : list KinopoiskPerson.t) (start : People.t) :
  fold_left step persons start
  = People.mk (People.directors start ++ credited "director" persons)
              (People.actors start ++ credited "actor" persons)
              (People.writers start ++ credited "writer" persons)
              (People.producers start ++ credited "producer" persons).
Proof.
  revert start. induction persons as [|person persons IH]; intros start.
  - unfold credited. simpl. rewrite !app_nil_r. now destruct start.
  - cbn [fold_left]. rewrite IH, step_credited.
    cbn [People.directors People.actors People.writers People.producers].
    rewrite <- !app_assoc.
    now rewrite <- !credited_cons.
Qed.

(** At most one bucket takes a person. *)
Lemma credited_one (person : KinopoiskPerson.t) :
  (length (credited "director" [person]) + length (credited "actor" [person])
   + length (credited "writer" [person])
   + length (credited "producer" [person]) <= 1)%nat.
Proof.
  unfold credited. cbn [filter].
  destruct (isEmpty (KinopoiskPerson.name person)); cbn [negb andb];
    [simpl; lia|].
  destruct (strEq (KinopoiskPerson.enProfession person) (js "director"))
    eqn:Ed.
  { apply strEq_eq in Ed. rewrite Ed. literal_tests. simpl. lia. }
  destruct (strEq (KinopoiskPerson.enProfession person) (js "actor")) eqn:Ea.
  { apply strEq_eq in Ea. rewrite Ea. literal_tests. simpl. lia. }
  destruct (strEq (KinopoiskPerson.enProfession person) (js "writer")) eqn:Ew.
  { apply strEq_eq in Ew. rewrite Ew. literal_tests. simpl. lia. }
  destruct (strEq (KinopoiskPerson.enProfession person) (js "producer"));
    simpl; lia.
Qed.

(** X2.  Each bucket of [extractPeople] holds, in the order of the source,
    the names of the persons that have a name and exactly the profession tag
    of the bucket; a person is in at most one bucket, and one with any other
    tag or without a name is in none. *)
Theorem extractPeople_buckets (persons : list KinopoiskPerson.t) :
  People.directors (extractPeople persons) = credited "director" persons
  /\ People.actors (extractPeople persons) = credited "actor" persons
  /\ People.writers (extractPeople persons) = credited "writer" persons
  /\ People.producers (extractPeople persons) = credited "producer" persons
  /\ (length (credited "director" persons) + length (credited "actor" persons)
      + length (credited "writer" persons)
      + length (credited "producer" persons) <= length persons)%nat.
Proof.
  change (extractPeople persons)
    with (fold_left step persons (People.mk [] [] [] [])).
  rewrite extractPeople_from. cbn [People.directors People.actors
    People.writers People.producers app].
  repeat (split; [reflexivity|]).
  induction persons as [|p persons IH]; [simpl; lia|].
  rewrite !(credited_cons _ p persons), !length_app.
  pose proof (credited_one p). simpl length. lia.
Qed.

End People.

(** ** The shapes of formatted entries *)

Lemma replaceAll_oneOf_delete (p : N -> bool) (s : jsstring) :
  replaceAll (oneOf p) [] s = filter (fun c => negb (p c)) s.
Proof.
  induction s as [|c s IH]; [reflexivity|].
  simpl filter. destruct (p c) eqn:E; simpl negb; cbv iota.
  - rewrite <- IH.
    apply (replaceAll_match (oneOf p) [c] s); [discriminate|].
    simpl. now rewrite E.
  - rewrite <- IH. apply replaceAll_copy. simpl. now rewrite E.
Qed.

Lemma In_dropWhile {A} (p : A -> bool) (l : list A) (x : A) :
  In x (dropWhile p l) -> In x l.
Proof.
  induction l as [|y l IH]; simpl; [tauto|].
  destruct (p y); [intros H; right; now apply IH | tauto].
Qed.

Lemma In_trim (s : jsstring) (c : N) : In c (trim s) -> In c s.
Proof.
  unfold trim, trimEnd, trimStart. intros H.
  apply in_rev, In_dropWhile in H. apply in_rev in H.
  now apply In_dropWhile in H.
Qed.

Lemma forallb_trim (p : N -> bool) (s : jsstring) :
  forallb p s = true -> forallb p (trim s) = true.
Proof.
  rewrite !forallb_forall. intros H c Hc. apply H. now apply In_trim.
Qed.

Lemma trimmed_trim (s : jsstring) : trimmed (trim s).
Proof. exact (trim_edges s). Qed.

Lemma cleanTextForMetadata_shape (text : jsstring) :
  noColon (DataFormatter.cleanTextForMetadata text) = true
  /\ trimmed (DataFormatter.cleanTextForMetadata text).
Proof.
  unfold DataFormatter.cleanTextForMetadata.
  destruct (isEmpty text); [split; [reflexivity | exact I]|].
  split; [|apply trimmed_trim].
  apply forallb_trim. unfold DataFormatter.colon.
  rewrite replaceAll_oneOf_delete. unfold noColon.
  apply forallb_forall. intros c Hc. apply filter_In in Hc. tauto.
Qed.

Lemma Forall_formatArray (P : jsstring -> Prop)
    (items : list (option jsstring)) (formatType : DataFormatter.FormatType) :
  (forall s, P (DataFormatter.formatItem formatType s)) ->
  Forall P (DataFormatter.formatArray items formatType).
Proof.
  intros H. unfold DataFormatter.formatArray, DataFormatter.formatArrayMax.
  apply Forall_forall. intros e He. apply in_map_iff in He as [s [<- _]].
  apply H.
Qed.

(** X3.  No entry of a sequence in the short format holds a colon, and none
    starts or ends with whitespace. *)
Theorem formatArray_short_no_colon (items : list (option jsstring)) :
  Forall (fun e => noColon e = true /\ trimmed e)
         (DataFormatter.formatArray items DataFormatter.SHORT_VALUE).
Proof.
  apply Forall_formatArray. intros s. apply cleanTextForMetadata_shape.
Qed.

(** X4.  Every entry of a sequence in the link format is a wiki link in
    double quotes, around a name without a colon and without whitespace at
    its ends. *)
Theorem formatArray_link_quoted (items : list (option jsstring)) :
  Forall (fun e => exists x,
                     e = [DQ] ++ js "[[" ++ x ++ js "]]" ++ [DQ]
                     /\ noColon x = true /\ trimmed x)
         (DataFormatter.formatArray items DataFormatter.LINK).
Proof.
  apply Forall_formatArray. intros s.
  exists (DataFormatter.cleanTextForMetadata s).
  split; [reflexivity | apply cleanTextForMetadata_shape].
Qed.

(** *** Whitespace runs *)

Lemma getSubstitution_no_dollar (tpl before matched after : jsstring) :
  noDollar tpl = true -> getSubstitution tpl before matched after = tpl.
Proof.
  induction tpl as [|c r IH]; [reflexivity|].
  simpl. intros H. apply andb_true_iff in H as [Hc Hr].
  apply negb_true_iff in Hc. rewrite Hc. f_equal. now apply IH.
Qed.

Section ScanLiteral.

Variable m : matcher.
Variable tpl : jsstring.
Hypothesis tpl_literal : noDollar tpl = true.

(** A replacement without a dollar sign is inserted as it is, so the text
    already passed plays no part. *)
Lemma replaceScan_literal_before (rb rb' : jsstring) (k : nat) (s : jsstring) :
  replaceScan m tpl rb k s = replaceScan m tpl rb' k s.
Proof.
  revert rb rb' k. induction s as [|c s IH]; intros rb rb' k; [reflexivity|].
  simpl. destruct k as [|k].
  - destruct (m (c :: s)) as [[|n]|];
      rewrite ?getSubstitution_no_dollar by exact tpl_literal;
      now rewrite (IH (c :: rb) (c :: rb')).
  - apply IH.
Qed.

Lemma replaceScan_literal_skip (rb : jsstring) (l rest : jsstring) :
  replaceScan m tpl rb (length l) (l ++ rest) = replaceScan m tpl [] 0 rest.
Proof.
  revert rb. induction l as [|c l IH]; intros rb; simpl.
  - apply replaceScan_literal_before.
  - apply IH.
Qed.

(** A match at the head of the text is replaced and the scan goes on after
    it. *)
Lemma replaceAll_literal_match (l rest : jsstring) :
  l <> [] -> m (l ++ rest) = Some (length l) ->
  replaceAll m tpl (l ++ rest) = tpl ++ replaceAll m tpl rest.
Proof.
  intros Hl Hm. unfold replaceAll. destruct l as [|c l]; [congruence|].
  cbn [app replaceScan]. change (c :: l ++ rest) with ((c :: l) ++ rest).
  rewrite Hm. cbn [length].
  rewrite getSubstitution_no_dollar by exact tpl_literal. f_equal.
  apply replaceScan_literal_skip.
Qed.

Lemma replaceAll_literal_copy (c : N) (s : jsstring) :
  m (c :: s) = None -> replaceAll m tpl (c :: s) = c :: replaceAll m tpl s.
Proof.
  intros Hm. unfold replaceAll. simpl. rewrite Hm. f_equal.
  apply replaceScan_literal_before.
Qed.

End ScanLiteral.

Lemma takeWhile_dropWhile {A} (p : A -> bool) (l : list A) :
  l = takeWhile p l ++ dropWhile p l.
Proof.
  induction l as [|y l IH]; simpl; [reflexivity|].
  destruct (p y); simpl; [now rewrite <- IH | reflexivity].
Qed.

Lemma dropWhile_length {A} (p : A -> bool) (l : list A) :
  (length (dropWhile p l) <= length l)%nat.
Proof.
  induction l as [|y l IH]; simpl; [lia|]. destruct (p y); simpl; lia.
Qed.

Lemma collapse_cons (c : N) (s : jsstring) :
  collapse (c :: s)
  = if isWhiteSpace c then 32%N :: collapse (dropWhile isWhiteSpace s)
    else c :: collapse s.
Proof.
  unfold collapse. destruct (isWhiteSpace c) eqn:E.
  - rewrite (takeWhile_dropWhile isWhiteSpace s) at 1.
    change (c :: takeWhile isWhiteSpace s ++ dropWhile isWhiteSpace s)
      with ((c :: takeWhile isWhiteSpace s) ++ dropWhile isWhiteSpace s).
    rewrite replaceAll_literal_match; [reflexivity|reflexivity|discriminate|].
    unfold whitespaceRun.
    rewrite <- app_comm_cons, <- takeWhile_dropWhile.
    simpl takeWhile. rewrite E. reflexivity.
  - apply replaceAll_literal_copy; [reflexivity|].
    unfold whitespaceRun. simpl. now rewrite E.
Qed.

Lemma dropWhile_head_false {A} (p : A -> bool) (l : list A) :
  match dropWhile p l with
  | [] => True
  | x :: _ => p x = false
  end.
Proof.
  induction l as [|y l IH]; simpl; [exact I|].
  destruct (p y) eqn:E; [exact IH | exact E].
Qed.

Lemma collapse_head (s : jsstring) :
  match s with
  | c :: _ => isWhiteSpace c = false ->
              match collapse s with
              | d :: _ => isWhiteSpace d = false
              | [] => True
              end
  | [] => collapse s = []
  end.
Proof.
  destruct s as [|c s]; [reflexivity|].
  intros H. rewrite collapse_cons, H. exact H.
Qed.

(** After the runs are collapsed the whitespace is single spaces. *)
Lemma collapse_singleSpaced (s : jsstring) : singleSpaced (collapse s) = true.
Proof.
  remember (length s) as n eqn:Hn.
  assert (Hle : (length s <= n)%nat) by lia. clear Hn.
  revert s Hle. induction n as [|n IH]; intros s Hle.
  - destruct s; [reflexivity | simpl in Hle; lia].
  - destruct s as [|c s]; [reflexivity|].
    rewrite collapse_cons. destruct (isWhiteSpace c) eqn:E.
    + cbn [singleSpaced]. rewrite IH.
      2:{ pose proof (dropWhile_length isWhiteSpace s). simpl in Hle. lia. }
      rewrite andb_true_r. change (isWhiteSpace 32) with true.
      cbn [negb orb]. rewrite N.eqb_refl. cbn [andb].
      pose proof (dropWhile_head_false isWhiteSpace s) as Hd.
      pose proof (collapse_head (dropWhile isWhiteSpace s)) as Hc.
      destruct (dropWhile isWhiteSpace s) as [|d r].
      * now rewrite Hc.
      * specialize (Hc Hd).
        destruct (collapse (d :: r)); [reflexivity|]. now rewrite Hc.
    + cbn [singleSpaced]. rewrite E. cbn [negb orb andb].
      apply IH. simpl in Hle. lia.
Qed.

Lemma singleSpaced_app_r (a b : jsstring) :
  singleSpaced (a ++ b) = true -> singleSpaced b = true.
Proof.
  induction a as [|c a IH]; [auto|].
  cbn [app singleSpaced]. intros H. apply andb_true_iff in H as [_ H]. auto.
Qed.

Lemma singleSpaced_app_l (a b : jsstring) :
  singleSpaced (a ++ b) = true -> singleSpaced a = true.
Proof.
  induction a as [|c a IH]; [reflexivity|].
  cbn [app singleSpaced]. intros H. apply andb_true_iff in H as [Hc H].
  rewrite (IH H), andb_true_r.
  destruct (isWhiteSpace c); [|reflexivity]. cbn [negb orb] in *.
  apply andb_true_iff in Hc as [Hc Hnext]. rewrite Hc.
  destruct a; [reflexivity|]. exact Hnext.
Qed.

Lemma trimEnd_prefix (s : jsstring) : exists w, s = trimEnd s ++ w.
Proof.
  unfold trimEnd. exists (rev (takeWhile isWhiteSpace (rev s))).
  rewrite <- rev_app_distr, <- takeWhile_dropWhile. symmetry.
  apply rev_involutive.
Qed.

Lemma singleSpaced_trim (s : jsstring) :
  singleSpaced s = true -> singleSpaced (trim s) = true.
Proof.
  intros H. unfold trim.
  destruct (trimEnd_prefix (trimStart s)) as [w Hw].
  apply (singleSpaced_app_l _ w). rewrite <- Hw.
  apply (singleSpaced_app_r (takeWhile isWhiteSpace s)).
  unfold trimStart. now rewrite <- takeWhile_dropWhile.
Qed.

Lemma lineTerminator_whitespace (c : N) :
  isLineTerminator c = true -> isWhiteSpace c = true /\ (c =? 32)%N = false.
Proof.
  unfold isLineTerminator. intros H.
  repeat (apply orb_true_iff in H as [H|H]);
    apply N.eqb_eq in H; subst c; split; reflexivity.
Qed.

Lemma singleSpaced_no_line_terminator (s : jsstring) :
  singleSpaced s = true ->
  forallb (fun x => negb (isLineTerminator x)) s = true.
Proof.
  induction s as [|c s IH]; [reflexivity|].
  cbn [singleSpaced forallb]. intros H. apply andb_true_iff in H as [Hc H].
  rewrite (IH H), andb_true_r.
  destruct (isLineTerminator c) eqn:E; [|reflexivity].
  apply lineTerminator_whitespace in E as [W S]. rewrite W, S in Hc.
  discriminate Hc.
Qed.

(** The text the long format puts between the quotes. *)
Lemma formatItem_long (s : jsstring) :
  exists t,
    DataFormatter.formatItem DataFormatter.LONG_TEXT s = [DQ] ++ t ++ [DQ]
    /\ singleSpaced t = true /\ trimmed t.
Proof.
  eexists. split; [reflexivity|]. split.
  - apply singleSpaced_trim. apply collapse_singleSpaced.
  - apply trimmed_trim.
Qed.

Lemma formatArray_long_shape (items : list (option jsstring)) :
  Forall (fun e => exists t,
                     e = [DQ] ++ t ++ [DQ]
                     /\ singleSpaced t = true /\ trimmed t)
         (DataFormatter.formatArray items DataFormatter.LONG_TEXT).
Proof. apply Forall_formatArray. exact formatItem_long. Qed.

(** X5.  Every entry of a sequence in the long format is a text in double
    quotes whose whitespace is single spaces (no line break, no tab, no run
    of spaces) and that neither starts nor ends with whitespace. *)
Theorem formatArray_long_text_normalised (items : list (option jsstring)) :
  Forall (fun e => exists t,
                     e = [DQ] ++ t ++ [DQ]
                     /\ singleSpaced t = true /\ trimmed t)
         (DataFormatter.formatArray items DataFormatter.LONG_TEXT).
Proof. exact (formatArray_long_shape items). Qed.

Lemma unquote_quoted (t : jsstring) :
  forallb (fun x => negb (isLineTerminator x)) t = true ->
  Utils.unquote ([DQ] ++ t ++ [DQ]) = t.
Proof.
  intros H. unfold Utils.unquote. cbn [app].
  rewrite last_last, removelast_last, H, !N.eqb_refl.
  now destruct t.
Qed.

Lemma sliceInner_quoted (t : jsstring) : sliceInner ([DQ] ++ t ++ [DQ]) = t.
Proof. unfold sliceInner. cbn [app tl]. apply removelast_last. Qed.

Lemma getPlainValueFromArray_join (xs : list jsstring) :
  Utils.getPlainValueFromArray (VArray xs)
  = Utils.PString (join (js ", ") (map Utils.unquote xs)).
Proof. destruct xs as [|x [|y xs]]; reflexivity. Qed.

Lemma getQuotedValueFromArray_join (xs : list jsstring) :
  Utils.getQuotedValueFromArray (VArray xs)
  = join (js ", ") (map Utils.quoteItem xs).
Proof. destruct xs as [|x [|y xs]]; reflexivity. Qed.

Lemma quoteItem_quoted (t : jsstring) :
  Utils.quoteItem ([DQ] ++ t ++ [DQ]) = Utils.escapeQuoted ([DQ] ++ t ++ [DQ]).
Proof.
  unfold Utils.quoteItem, Utils.looksQuoted, endsWith. cbn [app].
  change (rev (DQ :: t ++ [DQ])) with (rev ((DQ :: t) ++ [DQ])).
  rewrite rev_unit. cbn [startsWith rev app]. rewrite !N.eqb_refl.
  cbn [andb negb]. now rewrite andb_false_r.
Qed.

(** X6.  Of a sequence in the long format the body encoding is the entries
    without their outer quotes, joined by comma and space, and the header
    encoding is the entries with every inner quote escaped, joined the same
    way. *)
Theorem long_text_header_and_body (items : list (option jsstring)) :
  let entries_ := DataFormatter.formatArray items DataFormatter.LONG_TEXT in
  Utils.String_ (Utils.getPlainValueFromArray (VArray entries_))
    = join (js ", ") (map sliceInner entries_)
  /\ Utils.getQuotedValueFromArray (VArray entries_)
     = join (js ", ") (map Utils.escapeQuoted entries_).
Proof.
  intros entries_.
  pose proof (formatArray_long_shape items) as F. fold entries_ in F.
  rewrite getPlainValueFromArray_join, getQuotedValueFromArray_join.
  cbn [Utils.String_]. split; f_equal; apply map_ext_in; intros e He;
    rewrite Forall_forall in F; destruct (F e He) as [t [-> [S _]]].
  - rewrite sliceInner_quoted. apply unquote_quoted.
    now apply singleSpaced_no_line_terminator.
  - apply quoteItem_quoted.
Qed.

(** ** Escaping in the header *)

Lemma escape_flat_map (t : jsstring) :
  replaceAll (oneOf (fun c => (c =? DQ)%N)) [92%N; DQ] t
  = flat_map (fun c => if (c =? DQ)%N then [92%N; DQ] else [c]) t.
Proof.
  induction t as [|c t IH]; [reflexivity|].
  cbn [flat_map]. destruct (c =? DQ)%N eqn:E.
  - rewrite <- IH.
    apply (replaceAll_literal_match (oneOf (fun c => (c =? DQ)%N))
             [92%N; DQ] eq_refl [c] t); [discriminate|].
    simpl. now rewrite E.
  - rewrite <- IH. cbn [app].
    apply replaceAll_literal_copy; [reflexivity|]. simpl. now rewrite E.
Qed.

Lemma quotesEscaped_flat_map (prev : N) (t : jsstring) :
  quotesEscaped prev
    (flat_map (fun c => if (c =? DQ)%N then [92%N; DQ] else [c]) t) = true.
Proof.
  revert prev. induction t as [|c t IH]; intros prev; [reflexivity|].
  cbn [flat_map]. destruct (c =? DQ)%N eqn:E.
  - cbn [app quotesEscaped]. rewrite IH. reflexivity.
  - cbn [app quotesEscaped]. rewrite E, IH. reflexivity.
Qed.

(** X7.  The header encoding of a quoted text puts a backslash before every
    double quote between the outer quotes and changes nothing else there, so
    in the result every inner double quote stands after a backslash. *)
Theorem escapeQuoted_escapes (t : jsstring) :
  Utils.escapeQuoted ([DQ] ++ t ++ [DQ])
    = [DQ] ++ flat_map (fun c => if (c =? DQ)%N then [92%N; DQ] else [c]) t
        ++ [DQ]
  /\ quotesEscaped 0
       (flat_map (fun c => if (c =? DQ)%N then [92%N; DQ] else [c]) t) = true
  /\ Utils.getQuotedValueFromArray (VString ([DQ] ++ t ++ [DQ]))
     = Utils.escapeQuoted ([DQ] ++ t ++ [DQ]).
Proof.
  split; [|split].
  - unfold Utils.escapeQuoted. now rewrite sliceInner_quoted, escape_flat_map.
  - apply quotesEscaped_flat_map.
  - unfold Utils.getQuotedValueFromArray, Utils.stringOrEmpty,
      Utils.looksQuoted, endsWith. cbn [app].
    change (rev (DQ :: t ++ [DQ])) with (rev ((DQ :: t) ++ [DQ])).
    rewrite rev_unit. cbn [startsWith rev app]. now rewrite !N.eqb_refl.
Qed.

(** ** Facts *)

Lemma replaceAll_no_match (m : matcher) (tpl : jsstring) (p : N -> bool)
    (s : jsstring) :
  (forall c r, p c = true -> m (c :: r) = None) ->
  forallb p s = true -> replaceAll m tpl s = s.
Proof.
  intros Hm. unfold replaceAll. generalize (@nil N).
  induction s as [|c s IH]; intros rb H; [reflexivity|].
  cbn [forallb] in H. apply andb_true_iff in H as [Hc Hs].
  cbn [replaceScan]. rewrite (Hm c s Hc). f_equal. now apply IH.
Qed.

Lemma replaceAll_entity_plain (entity char text : jsstring) :
  startsWith (js "&") entity = true ->
  forallb (fun c => negb (c =? 38)%N) text = true ->
  replaceAll (literal entity) char text = text.
Proof.
  intros He. apply replaceAll_no_match. intros c r Hc.
  apply negb_true_iff in Hc. destruct entity as [|a p]; [discriminate He|].
  change (js "&") with [38%N] in He. cbn [startsWith] in He.
  apply andb_true_iff in He as [Ha _]. apply N.eqb_eq in Ha. subst a.
  unfold literal. cbn [prefixBy]. now rewrite (N.eqb_sym 38 c), Hc.
Qed.

(** X8.  A text without a less-than sign and without an ampersand has no
    tag and no entity to lose: [stripHtmlTags] only trims it. *)
Theorem stripHtmlTags_plain (text : jsstring) :
  noMarkup text = true -> DataFormatter.stripHtmlTags text = trim text.
Proof.
  intros H. unfold DataFormatter.stripHtmlTags.
  assert (Hlt : forallb (fun c => negb (c =? 60)%N) text = true).
  { unfold noMarkup in H. rewrite forallb_forall in *. intros c Hc.
    specialize (H c Hc). now apply andb_true_iff in H as [H _]. }
  assert (Hamp : forallb (fun c => negb (c =? 38)%N) text = true).
  { unfold noMarkup in H. rewrite forallb_forall in *. intros c Hc.
    specialize (H c Hc). now apply andb_true_iff in H as [_ H]. }
  rewrite (replaceAll_no_match DataFormatter.htmlTag []
             (fun c => negb (c =? 60)%N) text);
    [|intros c r Hc; apply negb_true_iff in Hc; simpl; now rewrite Hc|exact Hlt].
  unfold DataFormatter.HTML_ENTITIES. cbn [fold_left fst snd].
  repeat (rewrite (replaceAll_entity_plain _ _ text);
          [|reflexivity|exact Hamp]).
  rewrite (replaceAll_no_match DataFormatter.htmlEntity []
             (fun c => negb (c =? 38)%N) text);
    [reflexivity| |exact Hamp].
  intros c r Hc. apply negb_true_iff in Hc. simpl. now rewrite Hc.
Qed.

Lemma stripHtmlTags_plain_witness :
  noMarkup (js " The film was shot in six countries. ") = true
  /\ DataFormatter.stripHtmlTags (js " The film was shot in six countries. ")
     = js "The film was shot in six countries.".
Proof.
  split; [reflexivity|].
  rewrite (stripHtmlTags_plain (js " The film was shot in six countries. ")
             eq_refl).
  reflexivity.
Defined.

(** X9.  Every fact [processFacts] keeps is the cleaned text of a fact of
    the source that is not marked as a spoiler and whose text is not blank;
    when every fact of the source is a spoiler, none is kept. *)
Theorem processFacts_no_spoiler (fs : list KinopoiskFact.t) :
  Forall (fun e => exists f,
                     In f fs
                     /\ KinopoiskFact.spoiler f <> Some true
                     /\ forallb isWhiteSpace (KinopoiskFact.value f) = false
                     /\ e = DataFormatter.stripHtmlTags (KinopoiskFact.value f))
         (DataFormatter.processFacts fs)
  /\ (forallb (fun f => match KinopoiskFact.spoiler f with
                        | Some true => true
                        | _ => false
                        end) fs = true ->
      DataFormatter.processFacts fs = []).
Proof.
  unfold DataFormatter.processFacts. split.
  - apply Forall_forall. intros e He. apply in_map_iff in He as [f [<- Hf]].
    apply In_slice0, filter_In in Hf as [Hin Hok].
    apply andb_true_iff in Hok as [Hs Hv].
    exists f. split; [exact Hin|]. split.
    + intros E. rewrite E in Hs. discriminate Hs.
    + split; [|reflexivity].
      destruct (forallb isWhiteSpace (KinopoiskFact.value f)) eqn:W;
        [|reflexivity].
      assert (DataFormatter.present (Some (KinopoiskFact.value f)) = false)
        by (apply present_false_iff; right; eexists; split; eauto).
      congruence.
  - intros H.
    replace (filter _ fs) with (@nil KinopoiskFact.t);
      [now rewrite slice0_nil|].
    symmetry. induction fs as [|f fs IH]; [reflexivity|].
    cbn [forallb] in H. apply andb_true_iff in H as [Hf Hfs].
    cbn [filter]. destruct (KinopoiskFact.spoiler f) as [[|]|];
      try discriminate Hf. cbn [DataFormatter.falsy andb]. now apply IH.
Qed.

Lemma processFacts_no_spoiler_witness :
  let fs := [KinopoiskFact.mk (js "The end is a dream.") (Some true);
             KinopoiskFact.mk (js "It ends badly.") (Some true)] in
  forallb (fun f => match KinopoiskFact.spoiler f with
                    | Some true => true
                    | _ => false
                    end) fs = true
  /\ DataFormatter.processFacts fs = [].
Proof.
  intros fs. split; [reflexivity|].
  apply (processFacts_no_spoiler fs). reflexivity.
Defined.

(** ** Bounds on the sequences of a record *)

Lemma formatArray_length_15 (items : list (option jsstring))
    (formatType : DataFormatter.FormatType) :
  (length (DataFormatter.formatArray items formatType) <= 15)%nat.
Proof.
  unfold DataFormatter.formatArray. rewrite formatArrayMax_kept, length_map.
  pose proof (slice0_length DataFormatter.MAX_ARRAY_ITEMS (kept items)) as H.
  unfold DataFormatter.MAX_ARRAY_ITEMS in *. specialize (H ltac:(lia)). lia.
Qed.

Lemma createImageLink_length (imagePath : jsstring) :
  (length (DataFormatter.createImageLink imagePath) <= 1)%nat.
Proof.
  unfold DataFormatter.createImageLink.
  destruct (isEmpty imagePath || isEmpty (trim imagePath)); [simpl; lia|].
  destruct (negb (startsWith (js "http") imagePath)); simpl; lia.
Qed.

Lemma formatArray_facts_length (fs : list KinopoiskFact.t)
    (formatType : DataFormatter.FormatType) :
  (length (DataFormatter.formatArray
             (map Some (DataFormatter.processFacts fs)) formatType) <= 5)%nat.
Proof.
  unfold DataFormatter.formatArray. rewrite formatArrayMax_kept, length_map.
  pose proof (slice0_length_le DataFormatter.MAX_ARRAY_ITEMS
                (kept (map Some (DataFormatter.processFacts fs)))).
  pose proof (kept_length (map Some (DataFormatter.processFacts fs))) as H1.
  rewrite length_map in H1.
  pose proof (processFacts_length fs). lia.
Qed.

Section Bounds.

Variable toUpperCase : jsstring -> jsstring.
Variable Date_parse : jsstring -> option Z.
Variable LocalTZA : Z -> Z.

(** X10.  In every record [createMovieShowFrom] returns, each sequence has
    at most 15 entries, the facts at most 5 and each image link at most
    one. *)
Theorem createMovieShowFrom_sequences_bounded
    (fullInfo : KinopoiskFullInfo.t) (m : MovieShow) :
  DataFormatter.createMovieShowFrom toUpperCase Date_parse LocalTZA fullInfo
    = inr m ->
  sequencesAtMost 15 m
  /\ (length (facts m) <= 5)%nat
  /\ (length (posterImageLink m) <= 1)%nat
  /\ (length (coverImageLink m) <= 1)%nat
  /\ (length (logoImageLink m) <= 1)%nat.
Proof.
  unfold DataFormatter.createMovieShowFrom.
  destruct (DataFormatter.translateType (KinopoiskFullInfo.type fullInfo));
    [|discriminate].
  intros [= <-]. split.
  { unfold sequencesAtMost, entries.
    repeat (apply Forall_cons;
            [cbn [snd];
             first [ exact I
                   | apply formatArray_length_15
                   | eapply Nat.le_trans;
                     [apply createImageLink_length | lia] ]|]).
    apply Forall_nil. }
  split; [apply formatArray_facts_length|].
  repeat split; apply createImageLink_length.
Qed.

End Bounds.

Lemma createMovieShowFrom_sequences_bounded_witness :
  exists m,
    DataFormatter.createMovieShowFrom Sample.toUpperCase Sample.Date_parse
      Sample.UTC Sample.inceptionWithGenres = inr m
    /\ sequencesAtMost 15 m.
Proof.
  eexists. split; [reflexivity|].
  eapply (createMovieShowFrom_sequences_bounded Sample.toUpperCase
            Sample.Date_parse Sample.UTC Sample.inceptionWithGenres).
  reflexivity.
Defined.

(** ** Image addresses and image links of a record *)

Lemma formatArray_one_url (u : jsstring) :
  DataFormatter.formatArray [Some u] DataFormatter.URL
  = if forallb isWhiteSpace u then [] else [trim u].
Proof.
  unfold DataFormatter.formatArray. rewrite formatArrayMax_kept.
  cbn [kept flat_map]. destruct (forallb isWhiteSpace u); reflexivity.
Qed.

Lemma createImageLink_blank (u : jsstring) :
  DataFormatter.createImageLink u
  = if forallb isWhiteSpace u then []
    else if negb (startsWith (js "http") u) then [js "![[" ++ u ++ js "]]"]
    else [js "![](" ++ u ++ js ")"].
Proof. unfold DataFormatter.createImageLink. now rewrite blank_cases. Qed.

Section UrlsAndLinks.

Variable toUpperCase : jsstring -> jsstring.
Variable Date_parse : jsstring -> option Z.
Variable LocalTZA : Z -> Z.

(** X11.  In every record [createMovieShowFrom] returns, an image has a
    link exactly when it has an address: the address sequence and the link
    sequence of the poster, of the cover and of the logo are empty
    together. *)
Theorem createMovieShowFrom_link_iff_url
    (fullInfo : KinopoiskFullInfo.t) (m : MovieShow) :
  DataFormatter.createMovieShowFrom toUpperCase Date_parse LocalTZA fullInfo
    = inr m ->
  (posterUrl m = [] <-> posterImageLink m = [])
  /\ (coverUrl m = [] <-> coverImageLink m = [])
  /\ (logoUrl m = [] <-> logoImageLink m = []).
Proof.
  unfold DataFormatter.createMovieShowFrom.
  destruct (DataFormatter.translateType (KinopoiskFullInfo.type fullInfo));
    [|discriminate].
  intros [= <-].
  cbn [posterUrl posterImageLink coverUrl coverImageLink logoUrl
       logoImageLink].
  rewrite !formatArray_one_url, !createImageLink_blank.
  repeat split;
    match goal with
    | |- context [forallb isWhiteSpace ?u] =>
        destruct (forallb isWhiteSpace u); try reflexivity;
        destruct (negb (startsWith (js "http") u)); discriminate
    end.
Qed.

End UrlsAndLinks.

Lemma createMovieShowFrom_link_iff_url_witness :
  exists m,
    DataFormatter.createMovieShowFrom Sample.toUpperCase Sample.Date_parse
      Sample.UTC Sample.inception = inr m
    /\ (posterUrl m = [] <-> posterImageLink m = []).
Proof.
  eexists. split; [reflexivity|].
  eapply (createMovieShowFrom_link_iff_url Sample.toUpperCase
            Sample.Date_parse Sample.UTC Sample.inception).
  reflexivity.
Defined.

(** ** File names *)

Lemma filter_legal (text : jsstring) :
  legalFileName
    (filter (fun c => negb (Utils.illegalFileNameCharacter c)) text) = true.
Proof.
  unfold legalFileName. apply forallb_forall. intros c Hc.
  apply filter_In in Hc. tauto.
Qed.

Lemma replaceIllegal_filter (text : jsstring) :
  Utils.replaceIllegalFileNameCharactersInString text
  = filter (fun c => negb (Utils.illegalFileNameCharacter c)) text.
Proof.
  unfold Utils.replaceIllegalFileNameCharactersInString.
  destruct text as [|c r]; [reflexivity|]. cbn [isEmpty].
  apply replaceAll_oneOf_delete.
Qed.

Lemma filter_all {A} (p : A -> bool) (l : list A) :
  forallb p l = true -> filter p l = l.
Proof.
  induction l as [|x l IH]; simpl; [reflexivity|].
  intros H. apply andb_true_iff in H as [Hx Hl]. rewrite Hx. f_equal. auto.
Qed.

(** X12.  [replaceIllegalFileNameCharactersInString] deletes the nine
    characters and only them: the result is the text without them, in its
    order; it holds none of them, and cleaning it again changes nothing. *)
Theorem replaceIllegalFileNameCharacters_legal (text : jsstring) :
  Utils.replaceIllegalFileNameCharactersInString text
    = filter (fun c => negb (Utils.illegalFileNameCharacter c)) text
  /\ legalFileName (Utils.replaceIllegalFileNameCharactersInString text)
     = true
  /\ Utils.replaceIllegalFileNameCharactersInString
       (Utils.replaceIllegalFileNameCharactersInString text)
     = Utils.replaceIllegalFileNameCharactersInString text.
Proof.
  split; [apply replaceIllegal_filter|]. split.
  - rewrite replaceIllegal_filter. apply filter_legal.
  - rewrite !replaceIllegal_filter. apply filter_all. apply filter_legal.
Qed.

(** *** Decimal digits *)

Lemma string_of_uint_digits (d : Decimal.uint) :
  forallb isDigit (js (NilEmpty.string_of_uint d)) = true.
Proof. induction d; simpl; auto. Qed.

Lemma numberToString_chars (n : Z) :
  forallb (fun c => isDigit c || (c =? 45)%N) (numberToString n) = true.
Proof.
  assert (D : forall d, forallb (fun c => isDigit c || (c =? 45)%N)
                          (js (NilZero.string_of_uint d)) = true).
  { intros d. apply forallb_forall. intros c Hc.
    assert (isDigit c = true); [|now rewrite H].
    destruct d; try (simpl in Hc; destruct Hc as [<-|[]]; reflexivity);
      pose proof (string_of_uint_digits d) as F;
      rewrite forallb_forall in F;
      simpl in Hc; destruct Hc as [<-|Hc]; try reflexivity; now apply F. }
  unfold numberToString. destruct (Z.to_int n) as [d|d].
  - apply D.
  - simpl. apply D.
Qed.

Lemma legalFileName_app (a b : jsstring) :
  legalFileName (a ++ b) = legalFileName a && legalFileName b.
Proof. apply forallb_app. Qed.

Lemma numberToString_legal (n : Z) : legalFileName (numberToString n) = true.
Proof.
  pose proof (numberToString_chars n) as H. unfold legalFileName.
  rewrite forallb_forall in *. intros c Hc. specialize (H c Hc).
  apply orb_true_iff in H as [H|H].
  - unfold isDigit, inRange in H. apply andb_true_iff in H as [H1 H2].
    apply N.leb_le in H1, H2. unfold Utils.illegalFileNameCharacter.
    cbn [existsb]. 
    repeat match goal with
           | |- context [(c =? ?k)%N] =>
               replace (c =? k)%N with false
                 by (symmetry; apply N.eqb_neq; lia)
           end.
    reflexivity.
  - apply N.eqb_eq in H. now subst c.
Qed.

Lemma endsWith_app (a p : jsstring) : endsWith p (a ++ p) = true.
Proof.
  unfold endsWith. rewrite rev_app_distr.
  induction (rev p) as [|x l IH]; simpl; [reflexivity|].
  now rewrite N.eqb_refl.
Qed.

Section MoreFileNames.

Variable currentLanguage : SupportedLanguage.
Variable getAbstractFileByPath : jsstring -> bool.
Variable normalizePath : jsstring -> jsstring.

Let exists_ := Utils.exists_ getAbstractFileByPath normalizePath.
Let copyLoop :=
  Utils.copyLoop currentLanguage getAbstractFileByPath normalizePath.
Let makeFileName :=
  Utils.makeFileName currentLanguage getAbstractFileByPath normalizePath.

(** What the loop returns is a copy name that no file has. *)
Lemma copyLoop_some (fuel : nat) (folderPath : option jsstring)
    (cleanedBaseName : jsstring) :
  forall (start : Z) (name_ : jsstring),
    copyLoop fuel folderPath cleanedBaseName start = Some name_ ->
    exists k, (start <= k)%Z
              /\ name_ = Utils.copyFileName currentLanguage cleanedBaseName k
              /\ exists_ folderPath name_ = false.
Proof.
  induction fuel as [|fuel IH]; intros start name_; [discriminate|].
  cbn [copyLoop Utils.copyLoop]. fold exists_.
  destruct (exists_ folderPath
              (Utils.copyFileName currentLanguage cleanedBaseName start))
    eqn:E.
  - intros H. apply IH in H as [k [Hk H]]. exists k. split; [lia | exact H].
  - intros [= <-]. exists start. split; [lia|]. now split.
Qed.

Lemma unknownMovie_legal :
  legalFileName (unknownMovie currentLanguage ++ js ".md") = true.
Proof. destruct currentLanguage; reflexivity. Qed.

Lemma copyFileName_legal (cleanedBaseName : jsstring) (k : Z) :
  legalFileName cleanedBaseName = true ->
  legalFileName (Utils.copyFileName currentLanguage cleanedBaseName k) = true.
Proof.
  intros H. unfold Utils.copyFileName.
  rewrite !legalFileName_app, H, numberToString_legal.
  destruct currentLanguage; reflexivity.
Qed.

Lemma copyFileName_md (cleanedBaseName : jsstring) (k : Z) :
  endsWith (js ".md") (Utils.copyFileName currentLanguage cleanedBaseName k)
  = true.
Proof.
  unfold Utils.copyFileName.
  change (js "]).md") with (js "])" ++ js ".md").
  rewrite !app_assoc. apply endsWith_app.
Qed.

(** X13.  Every name [makeFileName] returns ends in [.md] and holds none of
    the characters a file name may not hold. *)
Theorem makeFileName_legal (fuel : nat) (movieShow : MovieShow)
    (fileNameFormat folderPath : option jsstring) (name_ : jsstring) :
  makeFileName fuel movieShow fileNameFormat folderPath = Some name_ ->
  endsWith (js ".md") name_ = true /\ legalFileName name_ = true.
Proof.
  unfold makeFileName, Utils.makeFileName.
  destruct (Utils.baseName currentLanguage movieShow fileNameFormat)
    as [e|base].
  { intros [= <-]. split; [apply endsWith_app | apply unknownMovie_legal]. }
  destruct (isEmpty (trim (Utils.replaceIllegalFileNameCharactersInString
                             base))).
  { intros [= <-]. split; [apply endsWith_app | apply unknownMovie_legal]. }
  assert (L : legalFileName
                (Utils.replaceIllegalFileNameCharactersInString base) = true).
  { rewrite replaceIllegal_filter. apply filter_legal. }
  fold exists_.
  destruct (negb (exists_ folderPath
              (Utils.replaceIllegalFileNameCharactersInString base
                 ++ js ".md"))).
  - intros [= <-]. split; [apply endsWith_app|].
    now rewrite legalFileName_app, L.
  - fold copyLoop. intros H. apply copyLoop_some in H as [k [_ [-> _]]].
    split; [apply copyFileName_md | now apply copyFileName_legal].
Qed.

(** X14.  When the cleaned base name is not blank, no file has the name
    [makeFileName] returns. *)
Theorem makeFileName_free (fuel : nat) (movieShow : MovieShow)
    (fileNameFormat folderPath : option jsstring) (base name_ : jsstring) :
  Utils.baseName currentLanguage movieShow fileNameFormat = inr base ->
  isEmpty (trim (Utils.replaceIllegalFileNameCharactersInString base))
    = false ->
  makeFileName fuel movieShow fileNameFormat folderPath = Some name_ ->
  exists_ folderPath name_ = false.
Proof.
  intros Hbase Hclean. unfold makeFileName, Utils.makeFileName.
  rewrite Hbase, Hclean. fold exists_.
  destruct (exists_ folderPath
              (Utils.replaceIllegalFileNameCharactersInString base
                 ++ js ".md")) eqn:E; cbn [negb].
  - fold copyLoop. intros H. now apply copyLoop_some in H as [k [_ [_ H]]].
  - now intros [= <-].
Qed.

End MoreFileNames.

Lemma makeFileName_legal_witness :
  Utils.makeFileName en Sample.vault Sample.normalizePath 1 Sample.movie
    None None = Some (js "Inception (2010) (Copy[1]).md")
  /\ endsWith (js ".md") (js "Inception (2010) (Copy[1]).md") = true
  /\ legalFileName (js "Inception (2010) (Copy[1]).md") = true.
Proof.
  split; [reflexivity|].
  apply (makeFileName_legal en Sample.vault Sample.normalizePath 1
           Sample.movie None None).
  reflexivity.
Defined.

Lemma makeFileName_free_witness :
  Utils.baseName en Sample.movie None = inr (js "Inception (2010)")
  /\ isEmpty (trim (Utils.replaceIllegalFileNameCharactersInString
                      (js "Inception (2010)"))) = false
  /\ Utils.makeFileName en Sample.vault Sample.normalizePath 1 Sample.movie
       None None = Some (js "Inception (2010) (Copy[1]).md")
  /\ Utils.exists_ Sample.vault Sample.normalizePath None
       (js "Inception (2010) (Copy[1]).md") = false.
Proof.
  split; [reflexivity|]. split; [reflexivity|]. split; [reflexivity|].
  apply (makeFileName_free en Sample.vault Sample.normalizePath 1
           Sample.movie None None (js "Inception (2010)"));
    reflexivity.
Defined.

(** ** Placeholders *)

Lemma asciiUpper_brace (c : N) : (c =? 123)%N = false ->
  eqIgnoreCase 123 c = false.
Proof.
  intros H. apply N.eqb_neq in H. unfold eqIgnoreCase, asciiUpper.
  change (inRange 97 122 123) with false. cbv iota.
  unfold inRange. apply N.eqb_neq.
  destruct ((97 <=? c)%N && (c <=? 122)%N) eqn:E; [|lia].
  apply andb_true_iff in E as [E1 E2]. apply N.leb_le in E1, E2. lia.
Qed.

Lemma placeholder_no_brace (key : string) (c : N) (r : jsstring) :
  negb (c =? 123)%N = true -> Utils.placeholder key (c :: r) = None.
Proof.
  intros H. apply negb_true_iff in H.
  unfold Utils.placeholder, literalIgnoreCase.
  change (js "{{" ++ js key ++ js "}}")
    with (123%N :: 123%N :: js key ++ js "}}").
  cbn [prefixBy]. now rewrite asciiUpper_brace.
Qed.

Lemma prefixBy_app (eqc : N -> N -> bool) (p s rest : jsstring) :
  prefixBy eqc p s = true -> prefixBy eqc p (s ++ rest) = true.
Proof.
  revert s. induction p as [|a p IH]; intros [|b s]; simpl; try easy.
  intros H. apply andb_true_iff in H as [H1 H2]. rewrite H1. now apply IH.
Qed.

Section OnePlaceholder.

Variable encode : value -> result jsstring.

(** X15.  One step of the substitution for an entry of the record, on a
    text whose first left brace opens the placeholder of the entry, in any
    letter case: when the encoded value holds no dollar sign, the text before
    the placeholder is kept, the placeholder becomes the value as it is, and
    the step goes on in the text after it.  (The keys of a record are plain
    words, so the pattern built from a key matches the placeholder letter by
    letter.) *)
Theorem substitute_first_placeholder (movieShow : MovieShow) (key : string)
    (val : value) (encoded before occurrence after : jsstring) :
  In (key, val) (entries movieShow) ->
  encode val = inr encoded ->
  noDollar encoded = true ->
  noBrace before = true ->
  sameIgnoringCase (token (js key)) occurrence = true ->
  Utils.substitute encode (before ++ occurrence ++ after) (key, val)
  = before ++ encoded ++ Utils.substitute encode after (key, val).
Proof.
  intros _ He Hd Hb Ho. unfold Utils.substitute. cbn [fst snd]. rewrite He.
  induction before as [|c before IH].
  - cbn [app]. apply andb_true_iff in Ho as [Hlen Hpre].
    apply Nat.eqb_eq in Hlen.
    apply (replaceAll_literal_match _ _ Hd).
    + intros ->. unfold token in Hlen. simpl in Hlen. discriminate.
    + unfold Utils.placeholder, literalIgnoreCase.
      fold (token (js key)). rewrite (prefixBy_app _ _ _ _ Hpre).
      now rewrite Hlen.
  - cbn [noBrace forallb] in Hb. apply andb_true_iff in Hb as [Hc Hb].
    cbn [app]. rewrite (replaceAll_literal_copy _ _ Hd).
    + f_equal. now apply IH.
    + now apply placeholder_no_brace.
Qed.

End OnePlaceholder.

Lemma substitute_first_placeholder_witness :
  Utils.substitute (fun v => inr (Utils.getQuotedValueFromArray v))
    (js "year: " ++ js "{{YEAR}}" ++ js " ({{year}})")
    ("year"%string, VNumber 2010)
  = js "year: " ++ js "2010"
      ++ Utils.substitute (fun v => inr (Utils.getQuotedValueFromArray v))
           (js " ({{year}})") ("year"%string, VNumber 2010).
Proof.
  apply (substitute_first_placeholder
           (fun v => inr (Utils.getQuotedValueFromArray v))
           Sample.movie "year"%string (VNumber 2010) (js "2010")
           (js "year: ") (js "{{YEAR}}") (js " ({{year}})"));
    try reflexivity.
  do 3 right. left. reflexivity.
Defined.

(** A dollar sign in a value is read as a replacement pattern: a title that
    holds the two code units of the matched-text pattern comes out with the
    placeholder in their place. *)
Example substitute_dollar_pattern :
  Utils.substitute (fun v => inr (Utils.String_ (Utils.getPlainValueFromArray v)))
    (js "# {{name}}") ("name"%string, VString (js "Cash $& Carry"))
  = js "# Cash {{name}} Carry".
Proof. reflexivity. Qed.

(** ** Templates without placeholders *)

Lemma fold_substitute_no_brace (encode : value -> result jsstring)
    (es : list (string * value)) (s : jsstring) :
  noBrace s = true -> fold_left (Utils.substitute encode) es s = s.
Proof.
  intros H. induction es as [|[k v] es IH]; [reflexivity|].
  cbn [fold_left]. unfold Utils.substitute at 2. cbn [fst snd].
  destruct (encode v) as [e|encoded]; [exact IH|].
  rewrite (replaceAll_no_match _ _ (fun c => negb (c =? 123)%N)); auto.
  intros c r. apply placeholder_no_brace.
Qed.

Lemma afterSpacesLF_suffix (s r : jsstring) :
  In r (Utils.afterSpacesLF s) -> exists pre, s = pre ++ r.
Proof.
  induction s as [|c s IH]; [intros []|].
  cbn [Utils.afterSpacesLF]. intros H. apply in_app_or in H as [H|H].
  - destruct (isWhiteSpace c); [|destruct H].
    destruct (IH H) as [pre ->]. now exists (c :: pre).
  - destruct (c =? LF)%N; [|destruct H].
    destruct H as [<-|[]]. now exists [c].
Qed.

Lemma hd_error_In {A} (l : list A) (x : A) : hd_error l = Some x -> In x l.
Proof. destruct l; [discriminate|]. intros [= <-]. now left. Qed.

Lemma closingDelimiter_suffix (s body : jsstring) :
  Utils.closingDelimiter s = Some body -> exists pre, s = pre ++ body.
Proof.
  unfold Utils.closingDelimiter, Utils.stripPrefix.
  destruct (startsWith (LF :: js "---") s); [|discriminate].
  intros H. apply hd_error_In, afterSpacesLF_suffix in H as [pre H].
  exists (firstn (length (LF :: js "---")) s ++ pre).
  rewrite <- app_assoc, <- H. symmetry. apply firstn_skipn.
Qed.

Lemma findClosing_parts (s frontmatter body : jsstring) :
  Utils.findClosing s = Some (frontmatter, body) ->
  exists mid, s = frontmatter ++ mid ++ body.
Proof.
  revert frontmatter.
  induction s as [|c s IH]; intros frontmatter; cbn [Utils.findClosing].
  - destruct (Utils.closingDelimiter []) eqn:E; [|discriminate].
    intros [= <- <-]. apply closingDelimiter_suffix in E as [pre E].
    now exists pre.
  - destruct (Utils.closingDelimiter (c :: s)) eqn:E.
    + intros [= <- <-]. apply closingDelimiter_suffix in E as [pre E].
      now exists pre.
    + destruct (Utils.findClosing s) as [[f b]|]; [|discriminate].
      intros [= <- <-]. destruct (IH f eq_refl) as [mid ->].
      now exists mid.
Qed.

Lemma firstSome_In {A B} (f : A -> option B) (xs : list A) (b : B) :
  Utils.firstSome f xs = Some b -> exists x, In x xs /\ f x = Some b.
Proof.
  induction xs as [|x xs IH]; [discriminate|]. cbn [Utils.firstSome].
  destruct (f x) eqn:E.
  - intros [= <-]. exists x. split; [now left | exact E].
  - intros H. destruct (IH H) as [y [Hy Hf]]. exists y. split; [now right|].
    exact Hf.
Qed.

(** The two groups are parts of the text, in their order. *)
Lemma matchFrontmatter_parts (text frontmatter body : jsstring) :
  Utils.matchFrontmatter text = Some (frontmatter, body) ->
  exists pre mid, text = pre ++ frontmatter ++ mid ++ body.
Proof.
  unfold Utils.matchFrontmatter, Utils.stripPrefix.
  destruct (startsWith (js "---") text); [|discriminate].
  intros H. apply firstSome_In in H as [r [Hr Hf]].
  apply afterSpacesLF_suffix in Hr as [pre Hr].
  apply findClosing_parts in Hf as [mid ->].
  exists (firstn (length (js "---")) text ++ pre), mid.
  rewrite <- app_assoc, <- Hr. symmetry. apply firstn_skipn.
Qed.

Lemma matchFrontmatter_blank (text : jsstring) :
  isEmpty (trim text) = true -> Utils.matchFrontmatter text = None.
Proof.
  intros H. apply trim_empty_iff in H.
  unfold Utils.matchFrontmatter, Utils.stripPrefix.
  destruct text as [|c r]; [reflexivity|].
  cbn [forallb] in H. apply andb_true_iff in H as [Hc _].
  change (js "---") with [45%N; 45%N; 45%N]. cbn [startsWith].
  destruct (45 =? c)%N eqn:E; [|reflexivity].
  apply N.eqb_eq in E. subst c. discriminate.
Qed.

(** X16.  On a template without a left brace the record plays no part:
    the result is the template trimmed, with the two delimiter lines of its
    header block, when it has one, reduced to the three hyphens. *)
Theorem replaceVariableSyntax_no_placeholder (movieShow : MovieShow)
    (text : jsstring) :
  noBrace text = true ->
  Utils.replaceVariableSyntax (Some movieShow) text
  = inr (trim (match Utils.matchFrontmatter text with
               | Some (frontmatter, body) => assembled frontmatter body
               | None => text
               end)).
Proof.
  intros H. unfold Utils.replaceVariableSyntax, Utils.replaceVariableSyntaxWith.
  destruct (isEmpty (trim text)) eqn:E.
  { rewrite (matchFrontmatter_blank _ E).
    destruct (trim text); [reflexivity | discriminate]. }
  destruct (Utils.matchFrontmatter text) as [[frontmatter body]|] eqn:M.
  - apply matchFrontmatter_parts in M as [pre [mid ->]].
    unfold noBrace in H. rewrite !forallb_app in H.
    apply andb_true_iff in H as [_ H]. apply andb_true_iff in H as [Hf H].
    apply andb_true_iff in H as [_ Hb].
    cbn [Utils.Object_entries bind ret tryCatch].
    rewrite !fold_substitute_no_brace by assumption.
    rewrite removeUnusedVariables_no_brace; [reflexivity|].
    unfold noBrace. rewrite !forallb_app, Hf, Hb. reflexivity.
  - cbn [Utils.Object_entries bind ret tryCatch].
    rewrite fold_substitute_no_brace by assumption.
    now rewrite removeUnusedVariables_no_brace.
Qed.

Lemma replaceVariableSyntax_no_placeholder_witness :
  Utils.replaceVariableSyntax (Some Sample.movie)
    (js "---  " ++ [LF] ++ js "tag: film" ++ [LF] ++ js "--- " ++ [LF]
       ++ js "Notes ")
  = inr (js "---" ++ [LF] ++ js "tag: film" ++ [LF] ++ js "---" ++ [LF]
           ++ js "Notes").
Proof.
  apply (replaceVariableSyntax_no_placeholder Sample.movie
           (js "---  " ++ [LF] ++ js "tag: film" ++ [LF] ++ js "--- " ++ [LF]
              ++ js "Notes ")).
  reflexivity.
Defined.

(** ** The header block *)

Lemma afterSpacesLF_text (s : jsstring) :
  match s with c :: _ => isWhiteSpace c = false | [] => True end ->
  Utils.afterSpacesLF s = [].
Proof.
  destruct s as [|c r]; [reflexivity|]. cbn [Utils.afterSpacesLF]. intros H.
  rewrite H. destruct (c =? LF)%N eqn:E; [|reflexivity].
  apply N.eqb_eq in E. subst c. discriminate.
Qed.

Lemma closingDelimiter_inside (c : N) (r tail : jsstring) :
  startsWith (LF :: js "---") (c :: r) = false ->
  Utils.closingDelimiter ((c :: r) ++ LF :: tail) = None.
Proof.
  intros H. unfold Utils.closingDelimiter, Utils.stripPrefix.
  replace (startsWith (LF :: js "---") ((c :: r) ++ LF :: tail)) with false;
    [reflexivity|].
  symmetry. change (LF :: js "---") with [10%N; 45%N; 45%N; 45%N] in *.
  unfold LF.
  destruct r as [|d1 [|d2 [|d3 r]]]; cbn [app startsWith] in *;
    try exact H;
    repeat match goal with
           | |- context [(?a =? ?b)%N && _] =>
               destruct (a =? b)%N eqn:?; cbn [andb] in *; try reflexivity;
               try discriminate
           end.
Qed.

Lemma findClosing_assembled (frontmatter body : jsstring) :
  noDelimiter frontmatter = true ->
  match body with c :: _ => isWhiteSpace c = false | [] => True end ->
  Utils.findClosing (frontmatter ++ LF :: js "---" ++ LF :: body)
  = Some (frontmatter, body).
Proof.
  intros Hf Hb. induction frontmatter as [|c r IH].
  - cbn [app Utils.findClosing].
    assert (E : Utils.closingDelimiter (LF :: js "---" ++ LF :: body)
                = Some body).
    { unfold Utils.closingDelimiter, Utils.stripPrefix.
      change (startsWith (LF :: js "---") (LF :: js "---" ++ LF :: body))
        with true. cbv iota.
      change (skipn (length (LF :: js "---")) (LF :: js "---" ++ LF :: body))
        with (LF :: body).
      cbn [Utils.afterSpacesLF]. change (isWhiteSpace LF) with true.
      change (LF =? LF)%N with true. cbv iota.
      now rewrite (afterSpacesLF_text body Hb). }
    destruct body; cbn [Utils.findClosing]; now rewrite E.
  - cbn [noDelimiter] in Hf. apply andb_true_iff in Hf as [Hc Hr].
    apply negb_true_iff in Hc.
    change ((c :: r) ++ LF :: js "---" ++ LF :: body)
      with (c :: (r ++ LF :: js "---" ++ LF :: body)).
    cbn [Utils.findClosing].
    change (c :: (r ++ LF :: js "---" ++ LF :: body))
      with ((c :: r) ++ LF :: (js "---" ++ LF :: body)).
    rewrite (closingDelimiter_inside c r _ Hc).
    now rewrite (IH Hr).
Qed.

(** X17.  The header pattern takes an assembled template apart again:
    when the header starts with text and holds no line that starts with
    three hyphens, and the body is empty or starts with text, the two groups
    of the match are the header and the body. *)
Theorem matchFrontmatter_assembled (frontmatter body : jsstring) :
  startsWithText frontmatter = true ->
  noDelimiter frontmatter = true ->
  (isEmpty body || startsWithText body) = true ->
  Utils.matchFrontmatter (assembled frontmatter body)
  = Some (frontmatter, body).
Proof.
  intros Hs Hf Hb. unfold assembled, Utils.matchFrontmatter, Utils.stripPrefix.
  change (startsWith (js "---") (js "---" ++ [LF] ++ frontmatter ++ [LF]
            ++ js "---" ++ [LF] ++ body)) with true. cbv iota.
  change (skipn (length (js "---")) (js "---" ++ [LF] ++ frontmatter ++ [LF]
            ++ js "---" ++ [LF] ++ body))
    with (LF :: (frontmatter ++ LF :: js "---" ++ LF :: body)).
  cbn [Utils.afterSpacesLF]. change (isWhiteSpace LF) with true.
  change (LF =? LF)%N with true. cbv iota.
  rewrite afterSpacesLF_text.
  - cbn [app Utils.firstSome]. rewrite findClosing_assembled; auto.
    destruct body as [|c r]; [exact I|]. cbn in Hb.
    now apply negb_true_iff in Hb.
  - destruct frontmatter as [|c r]; [discriminate|]. cbn in Hs. cbn [app].
    now apply negb_true_iff in Hs.
Qed.

Lemma matchFrontmatter_assembled_witness :
  Utils.matchFrontmatter
    (assembled (js "tags:" ++ [LF] ++ js "- film") (js "# {{name}}"))
  = Some (js "tags:" ++ [LF] ++ js "- film", js "# {{name}}").
Proof.
  apply (matchFrontmatter_assembled (js "tags:" ++ [LF] ++ js "- film")
           (js "# {{name}}"));
    reflexivity.
Defined.

(** ** Plain sequences and their links *)

Lemma formatArray_link_of_short (items : list (option jsstring)) :
  DataFormatter.formatArray items DataFormatter.LINK
  = map quotedWikiLink
      (DataFormatter.formatArray items DataFormatter.SHORT_VALUE).
Proof.
  unfold DataFormatter.formatArray, DataFormatter.formatArrayMax.
  rewrite map_map. reflexivity.
Qed.

Section LinksAndDates.

Variable toUpperCase : jsstring -> jsstring.
Variable Date_parse : jsstring -> option Z.
Variable LocalTZA : Z -> Z.

(** X18.  In every record [createMovieShowFrom] returns, each of the nine
    sequences of links is its plain sequence with every entry wrapped as a
    quoted wiki link: the two go entry by entry, in one order and one
    length. *)
Theorem createMovieShowFrom_links_follow_plain
    (fullInfo : KinopoiskFullInfo.t) (m : MovieShow) :
  DataFormatter.createMovieShowFrom toUpperCase Date_parse LocalTZA fullInfo
    = inr m ->
  Forall (fun pl => snd pl = map quotedWikiLink (fst pl)) (linkedSequences m).
Proof.
  unfold DataFormatter.createMovieShowFrom.
  destruct (DataFormatter.translateType (KinopoiskFullInfo.type fullInfo));
    [|discriminate].
  intros [= <-]. unfold linkedSequences.
  cbn [genres genresLinks countries countriesLinks director directorsLinks
       actors actorsLinks writers writersLinks producers producersLinks
       networks networksLinks productionCompanies productionCompaniesLinks
       sequelsAndPrequels sequelsAndPrequelsLinks].
  repeat constructor; cbn [fst snd]; apply formatArray_link_of_short.
Qed.

(** X19.  A distributor release text that the host does not read as a date
    is kept as it was written, cleaned like a short value; a blank one is
    dropped. *)
Theorem distributorRelease_not_a_date (fullInfo : KinopoiskFullInfo.t)
    (distributors_ : KinopoiskDistributors.t) (d : jsstring) (m : MovieShow) :
  KinopoiskFullInfo.distributors fullInfo = Some distributors_ ->
  KinopoiskDistributors.distributorRelease distributors_ = Some d ->
  Date_parse d = None ->
  DataFormatter.createMovieShowFrom toUpperCase Date_parse LocalTZA fullInfo
    = inr m ->
  distributorRelease m
  = if forallb isWhiteSpace d then []
    else [DataFormatter.cleanTextForMetadata d].
Proof.
  intros Hd Hr Hp. unfold DataFormatter.createMovieShowFrom.
  destruct (DataFormatter.translateType (KinopoiskFullInfo.type fullInfo));
    [|discriminate].
  intros [= <-]. cbn [distributorRelease]. rewrite Hd.
  cbn [DataFormatter.opt]. rewrite Hr.
  assert (F : DataFormatter.formatDate Date_parse LocalTZA (Some d) = []).
  { unfold DataFormatter.formatDate. destruct d; [reflexivity|].
    now rewrite Hp. }
  rewrite F. cbn [isEmpty DataFormatter.orEmpty].
  unfold DataFormatter.formatArray. rewrite formatArrayMax_kept.
  cbn [kept flat_map]. destruct (forallb isWhiteSpace d); reflexivity.
Qed.

End LinksAndDates.

Lemma createMovieShowFrom_links_follow_plain_witness :
  exists m,
    DataFormatter.createMovieShowFrom Sample.toUpperCase Sample.Date_parse
      Sample.UTC Sample.inceptionWithGenres = inr m
    /\ Forall (fun pl => snd pl = map quotedWikiLink (fst pl))
         (linkedSequences m).
Proof.
  eexists. split; [reflexivity|].
  apply (createMovieShowFrom_links_follow_plain Sample.toUpperCase
           Sample.Date_parse Sample.UTC Sample.inceptionWithGenres).
  reflexivity.
Defined.

Lemma distributorRelease_not_a_date_witness :
  exists m,
    DataFormatter.createMovieShowFrom Sample.toUpperCase Sample.Date_parse
      Sample.UTC inceptionDistributed = inr m
    /\ distributorRelease m = [js "autumn 2010"].
Proof.
  eexists. split; [reflexivity|].
  exact (distributorRelease_not_a_date Sample.toUpperCase Sample.Date_parse
           Sample.UTC inceptionDistributed
           (KinopoiskDistributors.mk None (Some (js "autumn 2010: ")))
           (js "autumn 2010: ") _ eq_refl eq_refl eq_refl eq_refl).
Defined.

(** ** The names of the saved images *)

Section Extensions.

Variable toLowerCase : jsstring -> jsstring.

(** X20.  [getImageExtension] returns one of the seven supported
    extensions, whatever the address and the MIME type, unless the MIME type
    names a member of [Object.prototype]: then it returns that member. *)
Theorem getImageExtension_supported (url : jsstring)
    (mimeType : option jsstring) :
  match ImageFile.getImageExtension toLowerCase url mimeType with
  | ImageFile.Extension e => In e ImageFile.SUPPORTED_EXTENSIONS
  | ImageFile.PrototypeMember =>
      exists key, mimeType = Some key
                  /\ DataFormatter.inheritedMember key = true
  end.
Proof.
  assert (U : match
                (if negb (isEmpty (toLowerCase (ImageFile.afterLastDot url)))
                    && existsb (strEq (toLowerCase (ImageFile.afterLastDot url)))
                         ImageFile.SUPPORTED_EXTENSIONS
                 then ImageFile.Extension
                        (toLowerCase (ImageFile.afterLastDot url))
                 else ImageFile.Extension (js "jpg"))
              with
              | ImageFile.Extension e => In e ImageFile.SUPPORTED_EXTENSIONS
              | ImageFile.PrototypeMember => False
              end).
  { destruct (negb (isEmpty (toLowerCase (ImageFile.afterLastDot url))));
      cbn [andb]; [|now left].
    destruct (existsb _ _) eqn:E; [|now left].
    apply existsb_exists in E as [x [Hx E]]. apply strEq_eq in E.
    now rewrite E. }
  assert (F : forall x : ImageFile.extension,
             match x with
             | ImageFile.Extension e => In e ImageFile.SUPPORTED_EXTENSIONS
             | ImageFile.PrototypeMember => False
             end ->
             match x with
             | ImageFile.Extension e => In e ImageFile.SUPPORTED_EXTENSIONS
             | ImageFile.PrototypeMember =>
                 exists key, mimeType = Some key
                             /\ DataFormatter.inheritedMember key = true
             end).
  { intros [e|]; [auto | intros []]. }
  unfold ImageFile.getImageExtension. cbv zeta.
  destruct mimeType as [[|c r]|]; [now apply F | | now apply F].
  unfold ImageFile.MIME_TO_EXTENSION_MAP.
  repeat match goal with
         | |- context [if strEq (c :: r) ?k then _ else _] =>
             destruct (strEq (c :: r) k);
             [cbv; auto 10 |]
         end.
  destruct (DataFormatter.inheritedMember (c :: r)) eqn:E.
  - now exists (c :: r).
  - now apply F.
Qed.

End Extensions.

Lemma supported_legal (e : jsstring) :
  In e ImageFile.SUPPORTED_EXTENSIONS -> legalFileName e = true.
Proof.
  intros H. cbn in H.
  repeat (destruct H as [<-|H]; [reflexivity|]). destruct H.
Qed.

(** X21.  The name [createImageFileName] gives the file of an image with a
    supported extension holds none of the characters a file name may not
    hold, so no path separator, and ends in the dot and the extension. *)
Theorem createImageFileName_legal (movieShow : MovieShow)
    (imageType extension_ : jsstring) :
  In extension_ ImageFile.SUPPORTED_EXTENSIONS ->
  legalFileName (ImageFile.createImageFileName movieShow imageType extension_)
    = true
  /\ endsWith (js "." ++ extension_)
       (ImageFile.createImageFileName movieShow imageType extension_) = true.
Proof.
  intros H. unfold ImageFile.createImageFileName. split.
  - rewrite !legalFileName_app, (supported_legal _ H).
    rewrite replaceIllegal_filter, filter_legal. reflexivity.
  - apply endsWith_app.
Qed.

Lemma createImageFileName_legal_witness :
  In (js "png") ImageFile.SUPPORTED_EXTENSIONS
  /\ legalFileName
       (ImageFile.createImageFileName Sample.movie (js "poster") (js "png"))
     = true
  /\ endsWith (js "." ++ js "png")
       (ImageFile.createImageFileName Sample.movie (js "poster") (js "png"))
     = true.
Proof.
  assert (H : In (js "png") ImageFile.SUPPORTED_EXTENSIONS)
    by (cbn; tauto).
  split; [exact H|].
  apply (createImageFileName_legal Sample.movie (js "poster") (js "png") H).
Defined.

(** ** The images [processImages] leaves alone, and failed downloads *)

Section Kinds.

Variable URL_parses : jsstring -> bool.
Variable downloadAndSaveImage :
  jsstring -> MovieShow -> string -> jsstring -> result jsstring.

Let processImages :=
  ImageUtils.processImages URL_parses downloadAndSaveImage.
Let isValidImageUrl := ImageUtils.isValidImageUrl URL_parses.

(** X22.  The link of an image whose saving is switched off is the one
    the record came with, whatever happens to the other images. *)
Theorem processImages_disabled_kind (kind : imageKind)
    (movieShow : MovieShow) (settings : ImageUtils.Settings) :
  enabled kind settings = false ->
  linkOf kind (processImages movieShow settings) = linkOf kind movieShow.
Proof.
  intros H. unfold processImages, ImageUtils.processImages.
  destruct (negb (ImageUtils.saveImagesLocally settings)); [reflexivity|].
  destruct (ImageUtils.countImagesToDownload URL_parses movieShow settings
            =? 0)%Z; [reflexivity|].
  destruct kind; cbn [enabled] in H; rewrite H; cbn [ImageUtils.wanted];
    repeat match goal with
           | |- context [ImageUtils.wanted ?e ?u] =>
               destruct (ImageUtils.wanted e u)
           end; reflexivity.
Qed.

Lemma countOne_range (e : bool) (urls : list jsstring) :
  (0 <= ImageUtils.countOne URL_parses e urls <= 1)%Z.
Proof.
  unfold ImageUtils.countOne.
  destruct (ImageUtils.wanted e urls) as [u|]; [|lia].
  destruct (ImageUtils.isValidImageUrl URL_parses u); lia.
Qed.

Lemma startsWith_app_l (p q s : jsstring) :
  startsWith (p ++ q) s = true -> startsWith p s = true.
Proof.
  revert s. induction p as [|a p IH]; intros [|b s]; simpl; try easy.
  intros H. apply andb_true_iff in H as [H1 H2]. rewrite H1. now apply IH.
Qed.

Lemma isValidImageUrl_web (url : jsstring) :
  isValidImageUrl url = true ->
  ImageUtils.createImageLink url = [js "![](" ++ url ++ js ")"].
Proof.
  unfold isValidImageUrl, ImageUtils.isValidImageUrl,
    ImageUtils.createImageLink.
  destruct (isEmpty url || isEmpty (trim url)); [discriminate|].
  destruct (URL_parses url); [|discriminate].
  intros H.
  assert (S : startsWith (js "http") url = true).
  { apply orb_true_iff in H as [H|H].
    - now apply (startsWith_app_l (js "http") (js "://")).
    - now apply (startsWith_app_l (js "http") (js "s://")). }
  now rewrite S.
Qed.

(** X23.  When the download of an image throws, the record gets the web
    link to the address the image was to be fetched from. *)
Theorem processImages_failed_download (kind : imageKind)
    (movieShow : MovieShow) (settings : ImageUtils.Settings)
    (url : jsstring) (e : exn) :
  ImageUtils.saveImagesLocally settings = true ->
  enabled kind settings = true ->
  ImageUtils.firstTruthy (urlsOf kind movieShow) = Some url ->
  isValidImageUrl url = true ->
  downloadAndSaveImage url movieShow (typeName kind)
    (ImageUtils.imagesFolder settings) = inl e ->
  linkOf kind (processImages movieShow settings)
  = [js "![](" ++ url ++ js ")"].
Proof.
  intros Hs He Hu Hv Hd. unfold processImages, ImageUtils.processImages.
  rewrite Hs. cbn [negb].
  assert (L : ImageUtils.linkFor URL_parses downloadAndSaveImage movieShow
                settings (typeName kind) url
              = [js "![](" ++ url ++ js ")"]).
  { unfold ImageUtils.linkFor. fold isValidImageUrl. rewrite Hv, Hd.
    now apply isValidImageUrl_web. }
  assert (C : ImageUtils.countOne URL_parses (enabled kind settings)
                (urlsOf kind movieShow) = 1%Z).
  { unfold ImageUtils.countOne, ImageUtils.wanted. rewrite He, Hu.
    fold isValidImageUrl. now rewrite Hv. }
  assert (N : (ImageUtils.countImagesToDownload URL_parses movieShow settings
               =? 0)%Z = false).
  { apply Z.eqb_neq. unfold ImageUtils.countImagesToDownload.
    pose proof (countOne_range (ImageUtils.savePosterImage settings)
                  (posterUrl movieShow)).
    pose proof (countOne_range (ImageUtils.saveCoverImage settings)
                  (coverUrl movieShow)).
    pose proof (countOne_range (ImageUtils.saveLogoImage settings)
                  (logoUrl movieShow)).
    destruct kind; cbn [enabled urlsOf] in C; lia. }
  rewrite N.
  destruct kind; cbn [enabled urlsOf typeName] in *;
    unfold ImageUtils.wanted; rewrite He; cbv iota; rewrite Hu;
    repeat match goal with
           | |- context [if ?b then ImageUtils.firstTruthy ?u else None] =>
               destruct (if b then ImageUtils.firstTruthy u else None)
           end; cbn [linkOf]; exact L.
Qed.

End Kinds.

Lemma processImages_disabled_kind_witness :
  enabled Cover Sample.settingsOn = false
  /\ linkOf Cover
       (ImageUtils.processImages Sample.URL_parses Sample.downloadSaves
          Sample.movie Sample.settingsOn)
     = linkOf Cover Sample.movie.
Proof.
  split; [reflexivity|].
  apply (processImages_disabled_kind Sample.URL_parses Sample.downloadSaves
           Cover Sample.movie Sample.settingsOn).
  reflexivity.
Defined.

Lemma processImages_failed_download_witness :
  linkOf Poster
    (ImageUtils.processImages Sample.URL_parses Sample.downloadThrows
       Sample.movie Sample.settingsOn)
  = [js "![](" ++ js "https://img.example/x.jpg" ++ js ")"].
Proof.
  apply (processImages_failed_download Sample.URL_parses
           Sample.downloadThrows Poster Sample.movie Sample.settingsOn
           (js "https://img.example/x.jpg") Thrown);
    reflexivity.
Defined.

(** ** Tokens and queries *)

Lemma tokenChar_range (c : N) :
  ApiValidator.tokenChar c = true -> (45 <= c <= 122)%N.
Proof.
  unfold ApiValidator.tokenChar, inRange. intros H.
  repeat match type of H with
         | context [(?a <=? ?b)%N] => destruct (N.leb_spec a b)
         | context [(?a =? ?b)%N] => destruct (N.eqb_spec a b)
         end; try discriminate H; lia.
Qed.

Lemma tokenChar_not_whitespace (c : N) :
  ApiValidator.tokenChar c = true -> negb (isWhiteSpace c) = true.
Proof.
  intros H. apply tokenChar_range in H. apply negb_true_iff.
  unfold isWhiteSpace, inRange.
  repeat match goal with
         | |- context [(?a <=? ?b)%N] =>
             destruct (N.leb_spec a b); try lia
         | |- context [(?a =? ?b)%N] =>
             destruct (N.eqb_spec a b); try lia
         end; reflexivity.
Qed.

Lemma dropWhile_none {A} (p : A -> bool) (l : list A) :
  forallb (fun x => negb (p x)) l = true -> dropWhile p l = l.
Proof.
  destruct l as [|x l]; [reflexivity|]. simpl. intros H.
  apply andb_true_iff in H as [H _]. apply negb_true_iff in H.
  now rewrite H.
Qed.

Lemma trim_no_whitespace (s : jsstring) :
  forallb (fun c => negb (isWhiteSpace c)) s = true -> trim s = s.
Proof.
  intros H. unfold trim, trimEnd, trimStart.
  rewrite (dropWhile_none _ s H), dropWhile_none.
  - apply rev_involutive.
  - now rewrite forallb_rev.
Qed.

Lemma forallb_impl {A} (p q : A -> bool) (l : list A) :
  (forall x, p x = true -> q x = true) ->
  forallb p l = true -> forallb q l = true.
Proof.
  intros I H. rewrite forallb_forall in *. auto.
Qed.

Lemma forallb_firstn {A} (p : A -> bool) (n : nat) (l : list A) :
  forallb p l = true -> forallb p (firstn n l) = true.
Proof.
  intros H. rewrite forallb_forall in *. intros x Hx. apply H.
  now apply In_firstn in Hx.
Qed.

Lemma sanitizeToken_filter (token : jsstring) :
  ApiValidator.sanitizeToken token
  = firstn 100 (filter ApiValidator.tokenChar (trim token)).
Proof.
  unfold ApiValidator.sanitizeToken, ApiValidator.substring0,
    ApiValidator.MAX_TOKEN_LENGTH.
  rewrite replaceAll_oneOf_delete. f_equal. apply filter_ext.
  intros c. apply negb_involutive.
Qed.

Lemma sanitizeToken_chars (token : jsstring) :
  forallb ApiValidator.tokenChar (ApiValidator.sanitizeToken token) = true.
Proof.
  rewrite sanitizeToken_filter. apply forallb_firstn.
  apply forallb_forall. intros c Hc. apply filter_In in Hc. tauto.
Qed.

(** X24.  A token that [sanitizeToken] returns passes [isValidToken]
    exactly when it has at least ten code units; it never has more than a
    hundred. *)
Theorem sanitizeToken_valid_iff_long (token : jsstring) :
  ApiValidator.isValidToken
    (ApiValidator.UString (ApiValidator.sanitizeToken token))
  = (10 <=? length (ApiValidator.sanitizeToken token))%nat
  /\ (length (ApiValidator.sanitizeToken token) <= 100)%nat.
Proof.
  pose proof (sanitizeToken_chars token) as C.
  assert (L : (length (ApiValidator.sanitizeToken token) <= 100)%nat).
  { rewrite sanitizeToken_filter. apply firstn_le_length. }
  split; [|exact L].
  unfold ApiValidator.isValidToken.
  rewrite trim_no_whitespace
    by (revert C; apply forallb_impl, tokenChar_not_whitespace).
  unfold ApiValidator.tokenPattern, ApiValidator.MIN_TOKEN_LENGTH,
    ApiValidator.MAX_TOKEN_LENGTH.
  rewrite C.
  destruct (ApiValidator.sanitizeToken token) as [|c r] eqn:E;
    [reflexivity|].
  cbn [isEmpty negb andb].
  replace (100 <? length (c :: r))%nat with false
    by (symmetry; apply Nat.ltb_ge; exact L).
  rewrite orb_false_r.
  destruct (Nat.ltb_spec (length (c :: r)) 10),
           (Nat.leb_spec 10 (length (c :: r))); try reflexivity; lia.
Qed.

(** X25.  [sanitizeToken] changes nothing in a token that [isValidToken]
    accepts but the whitespace around it. *)
Theorem sanitizeToken_keeps_valid (token : jsstring) :
  ApiValidator.isValidToken (ApiValidator.UString token) = true ->
  ApiValidator.sanitizeToken token = trim token.
Proof.
  unfold ApiValidator.isValidToken. rewrite sanitizeToken_filter.
  destruct (isEmpty (trim token)); [discriminate|].
  destruct ((length (trim token) <? ApiValidator.MIN_TOKEN_LENGTH)%nat
            || (ApiValidator.MAX_TOKEN_LENGTH <? length (trim token))%nat)
    eqn:E; [discriminate|].
  destruct (ApiValidator.tokenPattern (trim token)) eqn:P; [|discriminate].
  intros _. apply orb_false_iff in E as [_ E]. apply Nat.ltb_ge in E.
  unfold ApiValidator.tokenPattern in P. apply andb_true_iff in P as [_ P].
  rewrite (filter_all _ _ P). apply firstn_all2. exact E.
Qed.

Lemma sanitizeToken_keeps_valid_witness :
  ApiValidator.isValidToken (ApiValidator.UString (js " ABC-123_def ")) = true
  /\ ApiValidator.sanitizeToken (js " ABC-123_def ") = js "ABC-123_def".
Proof.
  split; [reflexivity|].
  apply (sanitizeToken_keeps_valid (js " ABC-123_def ")). reflexivity.
Defined.

(** X26.  A query that [sanitizeQuery] returns has at most two hundred
    code units and no angle bracket. *)
Theorem sanitizeQuery_shape (query : jsstring) :
  (length (ApiValidator.sanitizeQuery query) <= 200)%nat
  /\ noAngle (ApiValidator.sanitizeQuery query) = true.
Proof.
  unfold ApiValidator.sanitizeQuery, ApiValidator.substring0,
    ApiValidator.MAX_QUERY_LENGTH.
  split; [apply firstn_le_length|].
  unfold noAngle. apply forallb_firstn. rewrite replaceAll_oneOf_delete.
  apply forallb_forall. intros c Hc. apply filter_In in Hc. tauto.
Qed.

(** Sanitizing twice is not sanitizing once: deleting a bracket between two
    spaces leaves two spaces, which a second pass makes one. *)
Example sanitizeQuery_not_idempotent :
  ApiValidator.sanitizeQuery (js "a < b") = js "a  b"
  /\ ApiValidator.sanitizeQuery (js "a  b") = js "a b".
Proof. split; reflexivity. Qed.
